(** * Secure Finance Tracker v21: encrypted persistence and backup engine

    A shallow embedding of the engine of [v21_encrpt.py]: key selection
    ([get_cipher]), field encryption ([enc_text], [dec_text]), sealed
    artifacts ([_write_file_secure], [persist_db_dump],
    [persist_csv_and_excel_encrypted]), backup rotation ([_rotate_backups],
    [backup_all]) and restore ([decrypt_artifact],
    [restore_from_encrypted_dump]).

    Python values are modelled as follows.
    - [str] is a list of Unicode code points (a Python [str] may hold lone
      surrogates, which UTF-8 refuses to encode);
    - [bytes] is a list of bytes;
    - the file system is a finite map from paths (lists of components) to
      nodes, the SQLite database behind [DB_FILE] is a separate component;
    - effects live in a state-and-exception monad over [World]; the monad
      also records the calls made to the cryptography library and counts
      mutating system calls, so that an interruption of the process can be
      placed between any two of them. *)

From Stdlib Require Import ZArith NArith Lia List Bool Ascii String.
From stdpp Require Import base option list sorting gmap.

Local Open Scope N_scope.

(** ** Python values *)

Abbreviation bytes := (list Byte.byte).
Abbreviation str := (list N).

(** A [str] literal from an ASCII string. *)
Definition lit (s : string) : str := N_of_ascii <$> list_ascii_of_string s.

(** A [bytes] literal. *)
Definition blit (s : string) : bytes := list_byte_of_string s.

#[global] Instance byte_eq_dec : EqDecision Byte.byte := Byte.byte_eq_dec.

(** ** The UTF-8 codec, strict error handler

    [s.encode("utf-8")] raises [UnicodeEncodeError] on a surrogate code
    point; [b.decode("utf-8")] raises [UnicodeDecodeError] on a malformed,
    overlong or surrogate sequence. *)

Definition b8 (n : N) : Byte.byte := default Byte.x00 (Byte.of_N n).

Definition is_surrogate (c : N) : bool := (0xD800 <=? c) && (c <=? 0xDFFF).

Definition utf8_encode_char (c : N) : option bytes :=
  if c <? 0x80 then Some [b8 c]
  else if c <? 0x800 then Some [b8 (0xC0 + c / 64); b8 (0x80 + c mod 64)]
  else if c <? 0x10000 then
    if is_surrogate c then None
    else Some [b8 (0xE0 + c / 4096); b8 (0x80 + (c / 64) mod 64);
               b8 (0x80 + c mod 64)]
  else if c <? 0x110000 then
    Some [b8 (0xF0 + c / 262144); b8 (0x80 + (c / 4096) mod 64);
          b8 (0x80 + (c / 64) mod 64); b8 (0x80 + c mod 64)]
  else None.

Fixpoint utf8_encode (s : str) : option bytes :=
  match s with
  | [] => Some []
  | c :: s' =>
      match utf8_encode_char c, utf8_encode s' with
      | Some b, Some bs => Some (b ++ bs)
      | _, _ => None
      end
  end.

(** The payload of a continuation byte [10xxxxxx]. *)
Definition cont (b : Byte.byte) : option N :=
  let n := Byte.to_N b in
  if (0x80 <=? n) && (n <? 0xC0) then Some (n - 0x80) else None.

Fixpoint utf8_decode (bs : bytes) : option str :=
  match bs with
  | [] => Some []
  | b0 :: r0 =>
      let n0 := Byte.to_N b0 in
      if n0 <? 0x80 then cons n0 <$> utf8_decode r0
      else if n0 <? 0xC2 then None
      else if n0 <? 0xE0 then
        match r0 with
        | b1 :: r1 =>
            match cont b1 with
            | Some c1 => cons ((n0 - 0xC0) * 64 + c1) <$> utf8_decode r1
            | None => None
            end
        | _ => None
        end
      else if n0 <? 0xF0 then
        match r0 with
        | b1 :: b2 :: r2 =>
            match cont b1, cont b2 with
            | Some c1, Some c2 =>
                let c := (n0 - 0xE0) * 4096 + c1 * 64 + c2 in
                if (c <? 0x800) || is_surrogate c then None
                else cons c <$> utf8_decode r2
            | _, _ => None
            end
        | _ => None
        end
      else if n0 <? 0xF5 then
        match r0 with
        | b1 :: b2 :: b3 :: r3 =>
            match cont b1, cont b2, cont b3 with
            | Some c1, Some c2, Some c3 =>
                let c := (n0 - 0xF0) * 262144 + c1 * 4096 + c2 * 64 + c3 in
                if (c <? 0x10000) || (0x110000 <=? c) then None
                else cons c <$> utf8_decode r3
            | _, _, _ => None
            end
        | _ => None
        end
      else None
  end.

(** ** Text order, prefixes and whitespace *)

(** [a < b] on [str]: code point by code point, a proper prefix first. *)
Fixpoint str_compare (a b : str) : comparison :=
  match a, b with
  | [], [] => Eq
  | [], _ :: _ => Lt
  | _ :: _, [] => Gt
  | x :: a', y :: b' =>
      match N.compare x y with
      | Eq => str_compare a' b'
      | c => c
      end
  end.

(** The order [sorted(..., reverse=True)] puts its result in. *)
Definition str_ge (a b : str) : Prop := str_compare a b <> Lt.

#[global] Instance str_ge_dec : RelDecision str_ge.
Proof. intros a b. unfold str_ge. destruct (str_compare a b); [left|right|left]; congruence. Defined.

(** [sorted(l, reverse=True)].  Equal strings are identical, so the
    stability of Python's sort leaves no trace in the result. *)
Definition sorted_reverse (l : list str) : list str := merge_sort str_ge l.

(** [f.startswith(prefix)] *)
Fixpoint startswith (f prefix : str) : bool :=
  match prefix, f with
  | [], _ => true
  | p :: prefix', c :: f' => (c =? p) && startswith f' prefix'
  | _ :: _, [] => false
  end.

(** [str.isspace] on one code point. *)
Definition isspace (c : N) : bool :=
  ((0x09 <=? c) && (c <=? 0x0D)) || ((0x1C <=? c) && (c <=? 0x20))
  || (c =? 0x85) || (c =? 0xA0) || (c =? 0x1680)
  || ((0x2000 <=? c) && (c <=? 0x200A))
  || (c =? 0x2028) || (c =? 0x2029) || (c =? 0x202F) || (c =? 0x205F)
  || (c =? 0x3000).

Fixpoint lstrip (s : str) : str :=
  match s with
  | c :: s' => if isspace c then lstrip s' else s
  | [] => []
  end.

(** [s.strip()] *)
Definition strip (s : str) : str := rev (lstrip (rev (lstrip s))).

(** ** Wall-clock time and [strftime] *)

Record datetime := {
  year : N; month : N; day : N; hour : N; minute : N; second : N
}.

Definition digit (n : N) : N := 48 + n mod 10.
Definition zero_pad2 (n : N) : str := [digit (n / 10); digit n].
Definition zero_pad4 (n : N) : str :=
  [digit (n / 1000); digit (n / 100); digit (n / 10); digit n].

(** [d.strftime("%Y-%m-%d_%H-%M-%S")], the year on four digits. *)
Definition strftime_ts (d : datetime) : str :=
  zero_pad4 (year d) ++ lit "-" ++ zero_pad2 (month d) ++ lit "-"
  ++ zero_pad2 (day d) ++ lit "_" ++ zero_pad2 (hour d) ++ lit "-"
  ++ zero_pad2 (minute d) ++ lit "-" ++ zero_pad2 (second d).

(** Chronological order of two wall-clock readings. *)
Definition datetime_key (d : datetime) : list N :=
  [year d; month d; day d; hour d; minute d; second d].

Definition earlier (d1 d2 : datetime) : Prop :=
  str_compare (datetime_key d1) (datetime_key d2) = Lt.

(** What a calendar allows the fields of a reading to be. *)
Definition datetime_ok (d : datetime) : Prop :=
  1000 <= year d <= 9999 /\ month d < 100 /\ day d < 100 /\ hour d < 100
  /\ minute d < 100 /\ second d < 100.

(** ** The world outside the interpreter *)

Inductive exn :=
  | InvalidToken          (* cryptography.fernet *)
  | UnicodeEncodeError
  | UnicodeDecodeError
  | FileNotFoundError
  | IsADirectoryError
  | NotADirectoryError
  | ValueError
  | DatabaseError         (* sqlite3 *)
  | ParserError           (* pandas *)
  | IllegalCharacterError (* openpyxl *).

Inductive outcome (A : Type) :=
  | Ok (a : A)            (* the call returned *)
  | Raise (e : exn)       (* the call raised an exception *)
  | Killed.               (* the process was interrupted *)
Arguments Ok {A} a.
Arguments Raise {A} e.
Arguments Killed {A}.

(** A path is the list of its components: [os.path.join d name] is
    [d ++ [name]]. *)
Abbreviation path := (list str).

Inductive node :=
  | File (data : bytes) (mode : N)
  | Dir.

(** Calls into the cryptography library and the entropy source. *)
Inductive event :=
  | EvUrandom (state : N) (n : nat)
  | EvEncrypt (iv : bytes) (time : N) (data : bytes)
  | EvDecrypt (token : bytes)
  | EvPBKDF2 (salt : bytes) (iterations length : N) (password : bytes)
  | EvGenerateKey.

(** The libraries the program calls and this development does not look
    into: Fernet, PBKDF2 and base64 ([cryptography], [base64]), the kernel
    entropy source, SQLite, pandas and openpyxl. *)
Class Externals := {
  fernet_encrypt : bytes -> bytes -> N -> bytes -> bytes;
    (* key, iv, time, data *)
  fernet_decrypt : bytes -> bytes -> option bytes;
    (* key, token; [None] is [InvalidToken] *)
  urlsafe_b64encode : bytes -> bytes;
  urlsafe_b64decode : bytes -> option bytes;
  pbkdf2_hmac_sha256 : bytes -> N -> N -> bytes -> bytes;
    (* salt, iterations, length, password *)
  urandom : N -> nat -> bytes;
    (* the bytes [os.urandom n] returns in a given state of the source *)
  posix_time : datetime -> N;
  decode_ignore : bytes -> str;
    (* text-mode read with [errors="ignore"] *)
  DB : Type;
  db_new : DB;
  executescript : str -> DB -> DB * option exn;
  iterdump : DB -> option str;
    (* ["\n".join(conn.iterdump())] *)
  DataFrame : Type;
  read_sql_query : str -> DB -> option DataFrame;
  read_csv : bytes -> option DataFrame;
  df_new : list str -> DataFrame;
    (* [pd.DataFrame(columns=...)] *)
  df_empty : DataFrame -> bool;
  df_column_str : str -> DataFrame -> list str;
    (* [df[c].astype(str)] *)
  df_assign : str -> list str -> DataFrame -> DataFrame;
  df_to_csv : DataFrame -> str;
  workbook_bytes : list str -> DataFrame -> option bytes
    (* the saved workbook with a header row and the rows of the frame *)
}.

(** What the program relies on from Fernet: decryption under the same key
    inverts encryption, and a token is a non-empty run of base64
    characters. *)
Class FernetSpec (E : Externals) : Prop := {
  fernet_decrypt_encrypt key iv t data :
    fernet_decrypt key (fernet_encrypt key iv t data) = Some data;
  fernet_token_ascii key iv t data :
    Forall (fun b => Byte.to_N b < 0x80) (fernet_encrypt key iv t data);
  fernet_token_nonempty key iv t data :
    fernet_encrypt key iv t data <> []
}.

(** The directory the module lives in ([ROOT] in the source). *)
Class Install := ROOT : path.

(** A [Fernet] object holds the 32 decoded bytes of its key. *)
Record Fernet := { fernet_key : bytes }.

Record World `{Externals} := {
  fs : gmap path node;          (* every file and directory but [DB_FILE] *)
  db : option DB;               (* the database in [DB_FILE], if it exists *)
  environ : gmap str str;       (* [os.environ] *)
  entropy : N;                  (* the state of the entropy source *)
  clock : datetime;             (* what [datetime.now()] reads *)
  budget : option nat;          (* mutating system calls left before the
                                   process is interrupted; [None]: it is not *)
  trace : list event;           (* library calls made so far, oldest first *)
  stdout : list str
}.

Section Monad.

Context `{E : Externals}.

Definition with_fs (f : gmap path node) (w : World) : World :=
  {| fs := f; db := db w; environ := environ w; entropy := entropy w;
     clock := clock w; budget := budget w; trace := trace w;
     stdout := stdout w |}.

Definition with_db (d : option DB) (w : World) : World :=
  {| fs := fs w; db := d; environ := environ w; entropy := entropy w;
     clock := clock w; budget := budget w; trace := trace w;
     stdout := stdout w |}.

Definition with_entropy (n : N) (w : World) : World :=
  {| fs := fs w; db := db w; environ := environ w; entropy := n;
     clock := clock w; budget := budget w; trace := trace w;
     stdout := stdout w |}.

Definition with_budget (b : option nat) (w : World) : World :=
  {| fs := fs w; db := db w; environ := environ w; entropy := entropy w;
     clock := clock w; budget := b; trace := trace w;
     stdout := stdout w |}.

Definition with_trace (t : list event) (w : World) : World :=
  {| fs := fs w; db := db w; environ := environ w; entropy := entropy w;
     clock := clock w; budget := budget w; trace := t;
     stdout := stdout w |}.

Definition with_stdout (o : list str) (w : World) : World :=
  {| fs := fs w; db := db w; environ := environ w; entropy := entropy w;
     clock := clock w; budget := budget w; trace := trace w;
     stdout := o |}.

(** A computation: it ends in an outcome and a new world. *)
Definition M (A : Type) : Type := World -> outcome A * World.

#[global] Instance M_ret : MRet M := fun A a w => (Ok a, w).

#[global] Instance M_bind : MBind M := fun A B f m w =>
  match m w with
  | (Ok a, w') => f a w'
  | (Raise e, w') => (Raise e, w')
  | (Killed, w') => (Killed, w')
  end.

Definition raise {A} (e : exn) : M A := fun w => (Raise e, w).

(** [try: m except Exception: h].  An interruption is not an exception. *)
Definition try_except {A} (m : M A) (h : exn -> M A) : M A := fun w =>
  match m w with
  | (Raise e, w') => h e w'
  | r => r
  end.

(** [for x in l: f x] *)
Fixpoint for_ {A} (l : list A) (f : A -> M unit) : M unit :=
  match l with
  | [] => mret tt
  | x :: l' => f x;; for_ l' f
  end.

(** [[f x for x in l]] *)
Fixpoint mapM {A B} (f : A -> M B) (l : list A) : M (list B) :=
  match l with
  | [] => mret []
  | x :: l' => y ← f x; ys ← mapM f l'; mret (y :: ys)
  end.

Definition of_option {A} (e : exn) (o : option A) : M A :=
  match o with Some a => mret a | None => raise e end.

(** One mutating system call: the place where an interruption strikes. *)
Definition tick : M unit := fun w =>
  match budget w with
  | None => (Ok tt, w)
  | Some (S n) => (Ok tt, with_budget (Some n) w)
  | Some O => (Killed, w)
  end.

(** A mutating system call [m]. *)
Definition syscall {A} (m : M A) : M A := tick;; m.

Definition log_event (e : event) : M unit := fun w =>
  (Ok tt, with_trace (trace w ++ [e]) w).

Definition print (s : str) : M unit := fun w =>
  (Ok tt, with_stdout (stdout w ++ [s]) w).

(** *** Files *)

Definition S_IRUSR : N := 256.
Definition S_IWUSR : N := 128.

(** The mode a file is created with (0o666 under the usual umask 0o022). *)
Definition default_mode : N := 420.

(** The directory a path lies in. *)
Definition parent (p : path) : path := removelast p.

(** [os.path.exists] *)
Definition path_exists (p : path) : M bool := fun w =>
  (Ok (bool_decide (is_Some (fs w !! p))), w).

(** [open(p, "rb").read()] *)
Definition read_file (p : path) : M bytes := fun w =>
  match fs w !! p with
  | Some (File data _) => (Ok data, w)
  | Some Dir => (Raise IsADirectoryError, w)
  | None => (Raise FileNotFoundError, w)
  end.

(** [open(p, "wb")]: an existing file is emptied, a missing one is
    created empty in its directory. *)
Definition open_wb (p : path) : M unit :=
  syscall (fun w =>
    match fs w !! p with
    | Some (File _ mode) => (Ok tt, with_fs (<[p := File [] mode]> (fs w)) w)
    | Some Dir => (Raise IsADirectoryError, w)
    | None =>
        match fs w !! parent p with
        | Some Dir => (Ok tt, with_fs (<[p := File [] default_mode]> (fs w)) w)
        | Some (File _ _) => (Raise NotADirectoryError, w)
        | None => (Raise FileNotFoundError, w)
        end
    end).

(** [f.write(data)] on the file opened at [p], flushed when the [with]
    block closes it. *)
Definition write_fd (p : path) (data : bytes) : M unit :=
  syscall (fun w =>
    match fs w !! p with
    | Some (File old mode) =>
        (Ok tt, with_fs (<[p := File (old ++ data) mode]> (fs w)) w)
    | Some Dir => (Raise IsADirectoryError, w)
    | None => (Raise FileNotFoundError, w)
    end).

(** [os.chmod] *)
Definition chmod (p : path) (mode : N) : M unit :=
  syscall (fun w =>
    match fs w !! p with
    | Some (File data _) => (Ok tt, with_fs (<[p := File data mode]> (fs w)) w)
    | Some Dir => (Ok tt, w)
    | None => (Raise FileNotFoundError, w)
    end).

(** [os.remove] *)
Definition remove (p : path) : M unit :=
  syscall (fun w =>
    match fs w !! p with
    | Some (File _ _) => (Ok tt, with_fs (delete p (fs w)) w)
    | Some Dir => (Raise IsADirectoryError, w)
    | None => (Raise FileNotFoundError, w)
    end).

(** The name a path has inside directory [d], if it lies there. *)
Definition child_name (d p : path) : option str :=
  match last p with
  | Some n => if decide (parent p = d) then Some n else None
  | None => None
  end.

Definition children (d : path) (m : gmap path node) : list str :=
  omap (fun kv => child_name d kv.1) (map_to_list m).

(** [os.listdir]; the order of the names is whatever the system gives. *)
Definition listdir (d : path) : M (list str) := fun w =>
  match fs w !! d with
  | Some Dir => (Ok (children d (fs w)), w)
  | Some (File _ _) => (Raise NotADirectoryError, w)
  | None => (Raise FileNotFoundError, w)
  end.

(** *** Codec, entropy and clock *)

Definition encode_utf8 (s : str) : M bytes :=
  of_option UnicodeEncodeError (utf8_encode s).

Definition decode_utf8 (b : bytes) : M str :=
  of_option UnicodeDecodeError (utf8_decode b).

(** [os.urandom n] *)
Definition os_urandom (n : nat) : M bytes := fun w =>
  (Ok (urandom (entropy w) n),
   with_trace (trace w ++ [EvUrandom (entropy w) n])
     (with_entropy (N.succ (entropy w)) w)).

(** [datetime.now()] *)
Definition datetime_now : M datetime := fun w => (Ok (clock w), w).

(** *** Fernet *)

(** [Fernet(key)]: the key must be the base64 text of 32 bytes. *)
Definition Fernet_new (key : bytes) : M Fernet :=
  match urlsafe_b64decode key with
  | Some k => if decide (length k = 32%nat) then mret {| fernet_key := k |}
              else raise ValueError
  | None => raise ValueError
  end.

(** [Fernet.generate_key()] *)
Definition Fernet_generate_key : M bytes :=
  log_event EvGenerateKey;;
  k ← os_urandom 32;
  mret (urlsafe_b64encode k).

(** [c.encrypt(data)]: a fresh initialisation vector for every call. *)
Definition Fernet_encrypt (c : Fernet) (data : bytes) : M bytes :=
  now ← datetime_now;
  iv ← os_urandom 16;
  log_event (EvEncrypt iv (posix_time now) data);;
  mret (fernet_encrypt (fernet_key c) iv (posix_time now) data).

(** [c.decrypt(token)] *)
Definition Fernet_decrypt (c : Fernet) (token : bytes) : M bytes :=
  log_event (EvDecrypt token);;
  of_option InvalidToken (fernet_decrypt (fernet_key c) token).

(** *** SQLite *)

(** [sqlite3.connect(DB_FILE)]: a missing database file is created. *)
Definition sqlite_connect : M DB := fun w =>
  match db w with
  | Some d => (Ok d, w)
  | None => (Ok db_new, with_db (Some db_new) w)
  end.

(** [conn.executescript(sql)] on the database of the world. *)
Definition sqlite_executescript (sql : str) : M unit :=
  syscall (fun w =>
    match db w with
    | Some d =>
        match executescript sql d with
        | (d', None) => (Ok tt, with_db (Some d') w)
        | (d', Some e) => (Raise e, with_db (Some d') w)
        end
    | None => (Raise DatabaseError, w)
    end).

End Monad.

(** The cipher of the process ([CIPHER] in the source), fixed when the
    module is loaded. *)
Class Process := CIPHER : Fernet.

(** ** The program *)

Section Program.

Context `{E : Externals} {I : Install}.

(** *** Configuration and paths *)

Definition DATA_DIR : path := ROOT ++ [lit "data_v21"].

Definition CSV_FILE : path := DATA_DIR ++ [lit "daily_finance_tracker.csv"].
Definition CSV_ENC : path := DATA_DIR ++ [lit "daily_finance_tracker.csv.enc"].
Definition XLSX_ENC : path := DATA_DIR ++ [lit "daily_finance_tracker.xlsx.enc"].
Definition DB_DUMP_ENC : path := DATA_DIR ++ [lit "finance_dump.sql.enc"].
Definition STATE_ENC : path := DATA_DIR ++ [lit "finance_state.json.enc"].

Definition SECRET_KEY_FILE : path := DATA_DIR ++ [lit "secret.key"].
Definition KDF_SALT_FILE : path := DATA_DIR ++ [lit "kdf_salt.bin"].

Definition BACKUP_FOLDER : path := DATA_DIR ++ [lit "backup"].

Definition BACKUP_RETENTION : nat := 20.

Definition CSV_COLUMNS : list str :=
  [lit "Date"; lit "Pocket Money"; lit "Extra Income"; lit "Total Income";
   lit "Food & Drinks"; lit "Other Spending"; lit "Total Spent";
   lit "Balance"; lit "Note"; lit "Tags"].

(** *** Crypto utilities *)

Definition _write_file_secure (p : path) (data : bytes) : M unit :=
  open_wb p;;
  write_fd p data;;
  try_except (chmod p (N.lor S_IRUSR S_IWUSR)) (fun _ => mret tt).

Definition _load_or_create_salt : M bytes :=
  e ← path_exists KDF_SALT_FILE;
  if e : bool then read_file KDF_SALT_FILE
  else
    salt ← os_urandom 16;
    _write_file_secure KDF_SALT_FILE salt;;
    mret salt.

Definition _derive_key_from_passphrase (passphrase : str) : M bytes :=
  salt ← _load_or_create_salt;
  password ← encode_utf8 passphrase;
  log_event (EvPBKDF2 salt 390000 32 password);;
  mret (urlsafe_b64encode (pbkdf2_hmac_sha256 salt 390000 32 password)).

Definition _load_or_create_filekey : M bytes :=
  e ← path_exists SECRET_KEY_FILE;
  if e : bool then read_file SECRET_KEY_FILE
  else
    key ← Fernet_generate_key;
    _write_file_secure SECRET_KEY_FILE key;;
    mret key.

(** [os.environ.get] *)
Definition environ_get (k : str) : M (option str) := fun w =>
  (Ok (environ w !! k), w).

Definition get_cipher : M Fernet :=
  passphrase ← environ_get (lit "FINANCE_PASSPHRASE");
  let passphrase :=
    match passphrase with
    | Some p => if decide (strip p = []) then None else Some p
    | None => None
    end in
  key ← match passphrase with
        | Some p =>
            if decide (p = []) then _load_or_create_filekey
            else _derive_key_from_passphrase p
        | None => _load_or_create_filekey
        end;
  Fernet_new key.

Context {P : Process}.

Definition enc_bytes (b : bytes) : M bytes := Fernet_encrypt CIPHER b.

Definition dec_bytes (b : bytes) : M bytes := Fernet_decrypt CIPHER b.

Definition enc_text (s : option str) : M str :=
  match s with
  | None => mret []
  | Some s =>
      if decide (s = []) then mret []
      else
        b ← encode_utf8 s;
        token ← Fernet_encrypt CIPHER b;
        decode_utf8 token
  end.

Definition dec_text (s : option str) : M str :=
  match s with
  | None => mret []
  | Some s =>
      if decide (s = []) then mret []
      else
        try_except
          (b ← encode_utf8 s;
           plain ← Fernet_decrypt CIPHER b;
           decode_utf8 plain)
          (fun _ => mret s)
  end.

(** *** CSV and workbook, and their sealed copies *)

(** [os.path.exists(DB_FILE)] *)
Definition db_exists : M bool := fun w =>
  (Ok (bool_decide (is_Some (db w))), w).

Definition dq (s : string) : str := [34] ++ lit s ++ [34].

Definition SELECT_FINANCE : str :=
  lit "SELECT date as " ++ dq "Date"
  ++ lit ", pocket as " ++ dq "Pocket Money"
  ++ lit ", extra as " ++ dq "Extra Income"
  ++ lit ", total_income as " ++ dq "Total Income"
  ++ lit ", food as " ++ dq "Food & Drinks"
  ++ lit ", other as " ++ dq "Other Spending"
  ++ lit ", total_spent as " ++ dq "Total Spent"
  ++ lit ", balance as " ++ dq "Balance"
  ++ lit ", note as " ++ dq "Note"
  ++ lit ", tags as " ++ dq "Tags"
  ++ lit " FROM finance ORDER BY date ASC, id ASC".

(** [pd.read_csv(p)] *)
Definition pd_read_csv (p : path) : M DataFrame :=
  b ← read_file p;
  of_option ParserError (read_csv b).

(** [df.to_csv(p, index=False)] *)
Definition to_csv_file (df : DataFrame) (p : path) : M unit :=
  open_wb p;;
  b ← encode_utf8 (df_to_csv df);
  write_fd p b.

(** [df[c] = df[c].astype(str).apply(lambda x: dec_text(x))] *)
Definition decrypt_column (c : str) (df : DataFrame) : M DataFrame :=
  values ← mapM (fun x => dec_text (Some x)) (df_column_str c df);
  mret (df_assign c values df).

Definition rebuild_csv_from_db : M unit :=
  e ← db_exists;
  if negb e then mret tt
  else
    conn ← sqlite_connect;
    df ← of_option DatabaseError (read_sql_query SELECT_FINANCE conn);
    df ← try_except
           (if negb (df_empty df) then
              df1 ← decrypt_column (lit "Note") df;
              try_except (decrypt_column (lit "Tags") df1)
                         (fun _ => mret df1)
            else mret df)
           (fun _ => mret df);
    to_csv_file df CSV_FILE.

(** The frame read back after [rebuild_csv_from_db]. *)
Definition rebuild_and_read : M DataFrame :=
  rebuild_csv_from_db;;
  e ← path_exists CSV_FILE;
  if e : bool then pd_read_csv CSV_FILE else mret (df_new CSV_COLUMNS).

Definition persist_csv_and_excel_encrypted : M unit :=
  e ← path_exists CSV_FILE;
  df ← (if e : bool
        then try_except (pd_read_csv CSV_FILE) (fun _ => rebuild_and_read)
        else rebuild_and_read);
  csv ← encode_utf8 (df_to_csv df);
  sealed ← enc_bytes csv;
  _write_file_secure CSV_ENC sealed;;
  xlsx ← of_option IllegalCharacterError (workbook_bytes CSV_COLUMNS df);
  sealed ← enc_bytes xlsx;
  _write_file_secure XLSX_ENC sealed.

(** *** The sealed database dump *)

Definition persist_db_dump : M unit :=
  conn ← sqlite_connect;
  text ← of_option DatabaseError (iterdump conn);
  dump ← encode_utf8 text;
  sealed ← enc_bytes dump;
  _write_file_secure DB_DUMP_ENC sealed.

(** *** Backups *)

Definition _rotate_backups (prefix : str) : M unit :=
  names ← listdir BACKUP_FOLDER;
  let files :=
    sorted_reverse (filter (fun f => startswith f prefix = true) names) in
  for_ (drop BACKUP_RETENTION files) (fun f =>
    try_except (remove (BACKUP_FOLDER ++ [f])) (fun _ => mret tt)).

(** The name of the record a backup at time [ts] makes for [tag]. *)
Definition backup_name (tag ts : str) : str :=
  tag ++ lit "_" ++ ts ++ lit ".enc".

(** The local function [copy_enc] of [backup_all]; [ts] is the variable
    it closes over. *)
Definition copy_enc (ts : str) (src : path) (tag : str) : M unit :=
  e ← path_exists src;
  if e : bool then
    plain ← try_except (raw ← read_file src; dec_bytes raw)
                       (fun _ => read_file src);
    let out := BACKUP_FOLDER ++ [backup_name tag ts] in
    sealed ← enc_bytes plain;
    _write_file_secure out sealed;;
    _rotate_backups (tag ++ lit "_")
  else mret tt.

Definition backup_all : M unit :=
  now ← datetime_now;
  let ts := strftime_ts now in
  persist_db_dump;;
  persist_csv_and_excel_encrypted;;
  copy_enc ts DB_DUMP_ENC (lit "dbdump");;
  copy_enc ts CSV_ENC (lit "csv");;
  copy_enc ts XLSX_ENC (lit "excel");;
  e ← path_exists STATE_ENC;
  if e : bool then copy_enc ts STATE_ENC (lit "state") else mret tt.

(** *** Command-line helpers *)

Definition decrypt_artifact (enc_path out_path : path) : M path :=
  enc ← read_file enc_path;
  plain ← dec_bytes enc;
  open_wb out_path;;
  write_fd out_path plain;;
  mret out_path.

Definition restore_from_encrypted_dump (enc_path : path) : M bool :=
  let tmp := DATA_DIR ++ [lit "__tmp_dump.sql"] in
  decrypt_artifact enc_path tmp;;
  raw ← read_file tmp;
  let sql := decode_ignore raw in
  sqlite_connect;;
  sqlite_executescript (lit "DROP TABLE IF EXISTS finance;");;
  sqlite_executescript sql;;
  remove tmp;;
  rebuild_csv_from_db;;
  persist_csv_and_excel_encrypted;;
  mret true.

(** The [restore] command of the module run as a script. *)
Definition main_restore (enc_path : path) : M unit :=
  restore_from_encrypted_dump enc_path;;
  print (lit "Restored from dump.").

End Program.

(** ** Vocabulary of the statements *)

Section Vocabulary.

Context `{E : Externals} {I : Install} {P : Process}.

(** The token [Fernet.encrypt] makes in world [w]. *)
Definition token_at (c : Fernet) (data : bytes) (w : World) : bytes :=
  fernet_encrypt (fernet_key c) (urandom (entropy w) 16)
    (posix_time (clock w)) data.

(** The world after that call: one draw from the entropy source. *)
Definition after_encrypt (data : bytes) (w : World) : World :=
  with_trace
    ((trace w ++ [EvUrandom (entropy w) 16])
     ++ [EvEncrypt (urandom (entropy w) 16) (posix_time (clock w)) data])
    (with_entropy (N.succ (entropy w)) w).

(** The world after [Fernet.decrypt]. *)
Definition after_decrypt (token : bytes) (w : World) : World :=
  with_trace (trace w ++ [EvDecrypt token]) w.

(** A string that holds no surrogate (and nothing beyond the Unicode
    range) is one that UTF-8 encodes. *)
Definition encodable (t : str) : Prop :=
  Forall (fun c => c < 0x110000 /\ is_surrogate c = false) t.

(** The stored strings on which authenticated decryption fails: the
    bytes of the string are no token of the process key (a string that
    has no bytes at all, for a lone surrogate, is none either). *)
Definition decryption_fails (s : str) : Prop :=
  match utf8_encode s with
  | Some b => fernet_decrypt (fernet_key CIPHER) b = None
  | None => True
  end.

(** [m] keeps the relation [R] between the world it starts in and the
    world it ends in, however it ends. *)
Definition preserves (R : World -> World -> Prop) {A} (m : M A) : Prop :=
  forall w, R w (m w).2.

(** What a computation may touch: files at the paths [S] only, library
    calls of the kind [Q] only; it cannot change the clock or the
    environment, give entropy back, print, or make an interruption
    appear. *)
Definition footprint (S : path -> Prop) (Q : event -> Prop)
    (w w' : World) : Prop :=
  (forall p, ~ S p -> fs w' !! p = fs w !! p)
  /\ (exists evs, trace w' = trace w ++ evs /\ Forall Q evs)
  /\ clock w' = clock w
  /\ environ w' = environ w
  /\ entropy w <= entropy w'
  /\ stdout w' = stdout w
  /\ (budget w = None -> budget w' = None).

(** [open(p, "wb")] succeeds: [p] is a file, or a free name in a
    directory. *)
Definition writable (p : path) (w : World) : Prop :=
  match fs w !! p with
  | Some (File _ _) => True
  | Some Dir => False
  | None => fs w !! parent p = Some Dir
  end.

(** The mode a file opened at [p] has. *)
Definition mode_at (p : path) (w : World) : N :=
  match fs w !! p with
  | Some (File _ mode) => mode
  | _ => default_mode
  end.

(** A passphrase that selects the key file: none, or white space only. *)
Definition blank (passphrase : option str) : Prop :=
  match passphrase with
  | Some p => strip p = []
  | None => True
  end.

Definition is_kdf_call (e : event) : Prop :=
  match e with
  | EvPBKDF2 _ _ _ _ => True
  | _ => False
  end.

(** The names in the backup folder that start with [prefix], in the
    order [_rotate_backups] puts them: descending. *)
Definition backup_files (prefix : str) (m : gmap path node) : list str :=
  sorted_reverse
    (filter (fun f => startswith f prefix = true)
       (children BACKUP_FOLDER m)).

(** The records of a category, newest name first. *)
Definition records (tag : str) (w : World) : list str :=
  backup_files (tag ++ lit "_") (fs w).

(** The backup folder once the files among [victims] are removed; a
    name that is no file stays. *)
Definition prune (victims : list str) (m : gmap path node)
    : gmap path node :=
  foldl (fun m f =>
           match m !! (BACKUP_FOLDER ++ [f]) with
           | Some (File _ _) => delete (BACKUP_FOLDER ++ [f]) m
           | _ => m
           end) m victims.

(** The categories [backup_all] goes through, each with its sealed
    artifact. *)
Definition categories : list (str * path) :=
  [(lit "dbdump", DB_DUMP_ENC); (lit "csv", CSV_ENC);
   (lit "excel", XLSX_ENC); (lit "state", STATE_ENC)].

(** The names a category holds once the record of a backup at [ts] is
    added to it: the records it had and the new one, descending. *)
Definition candidates (tag ts : str) (w : World) : list str :=
  sorted_reverse (remove_dups (backup_name tag ts :: records tag w)).

(** What [copy_enc] seals for stored bytes [raw]: their plaintext when
    they open under the process key, the bytes themselves when they do
    not. *)
Definition backup_plain (raw : bytes) : bytes :=
  default raw (fernet_decrypt (fernet_key CIPHER) raw).

(** Every path keeps its node or, if it is one of [V], loses it. *)
Definition only_removes (V : path -> Prop) (w w' : World) : Prop :=
  forall p, fs w' !! p = fs w !! p \/ (fs w' !! p = None /\ V p).

(** A write at [p] is atomic when, however the call ends, [p] holds
    what it held before or the complete new content. *)
Definition write_is_atomic (p : path) (data : bytes) (w : World) : Prop :=
  let w' := (_write_file_secure p data w).2 in
  fs w' !! p = fs w !! p \/ exists mode, fs w' !! p = Some (File data mode).

(** The round trip of a field: encryption returns a ciphertext, and
    decrypting that ciphertext, whenever it is done, gives the field
    back. *)
Definition field_round_trip (t : str) (w : World) : Prop :=
  exists c w1,
    enc_text (Some t) w = (Ok c, w1)
    /\ forall w2, exists w3, dec_text (Some c) w2 = (Ok t, w3).

End Vocabulary.

(** ** A small instance of the libraries

    Enough of each library to run the program on concrete worlds.  The
    stand-in for Fernet writes every byte as two letters and puts a digest
    of the key and one byte of the initialisation vector in front, so that
    a token opens under its own key only. *)

Module Toy.

Definition armor_byte (b : Byte.byte) : bytes :=
  [b8 (97 + Byte.to_N b / 16); b8 (97 + Byte.to_N b mod 16)].

Definition armor (l : bytes) : bytes := concat (armor_byte <$> l).

Definition nibble (b : Byte.byte) : option N :=
  let n := Byte.to_N b in
  if (97 <=? n) && (n <? 113) then Some (n - 97) else None.

Fixpoint unarmor (l : bytes) : option bytes :=
  match l with
  | [] => Some []
  | hi :: lo :: r =>
      match nibble hi, nibble lo, unarmor r with
      | Some h, Some l, Some bs => Some (b8 (h * 16 + l) :: bs)
      | _, _, _ => None
      end
  | _ => None
  end.

Definition key_digest (key : bytes) : Byte.byte :=
  b8 (foldr (fun b acc => (Byte.to_N b + acc) mod 256) 0 key).

Definition encrypt (key iv : bytes) (t : N) (data : bytes) : bytes :=
  armor (key_digest key :: hd Byte.x00 iv :: data).

Definition decrypt (key token : bytes) : option bytes :=
  match unarmor token with
  | Some (d :: _ :: data) =>
      if decide (d = key_digest key) then Some data else None
  | _ => None
  end.

(** A database is the list of the scripts run on it; a script that
    starts with an exclamation mark fails.  A frame is a list of cells. *)
#[global] Instance externals : Externals := {|
  fernet_encrypt := encrypt;
  fernet_decrypt := decrypt;
  urlsafe_b64encode := armor;
  urlsafe_b64decode := unarmor;
  pbkdf2_hmac_sha256 := fun salt _ len password =>
    take (N.to_nat len) (salt ++ password ++ replicate (N.to_nat len) Byte.x00);
  urandom := fun state n => replicate n (b8 (state mod 256));
  posix_time := fun d => second d;
  decode_ignore := fun b => Byte.to_N <$> b;
  DB := list str;
  db_new := [];
  executescript := fun sql d =>
    match sql with
    | 33 :: _ => (d, Some DatabaseError)
    | _ => (d ++ [sql], None)
    end;
  iterdump := fun d => Some (concat d);
  DataFrame := list str;
  read_sql_query := fun _ d => Some d;
  read_csv := fun b => match utf8_decode b with
                       | Some s => Some [s]
                       | None => None
                       end;
  df_new := fun _ => [];
  df_empty := fun df => bool_decide (df = []);
  df_column_str := fun _ df => df;
  df_assign := fun _ values _ => values;
  df_to_csv := fun df => concat df;
  workbook_bytes := fun _ df => utf8_encode (concat df)
|}.

#[global] Instance install : Install := [lit "srv"].

Definition key0 : bytes := replicate 32 (b8 7).

#[global] Instance process : Process := {| fernet_key := key0 |}.

Definition noon : datetime :=
  {| year := 2025; month := 8; day := 16; hour := 12; minute := 0;
     second := 0 |}.

(** A fresh installation: the data directory and the backup folder are
    there and empty. *)
Definition fs0 : gmap path node :=
  <[BACKUP_FOLDER := Dir]> (<[DATA_DIR := Dir]> (<[ROOT := Dir]> ∅)).

Definition world0 : World :=
  {| fs := fs0; db := Some [lit "CREATE TABLE finance;"]; environ := ∅;
     entropy := 0; clock := noon; budget := None; trace := [];
     stdout := [] |}.

(** An application state sealed in an earlier run, under another key. *)
Definition key1 : bytes := replicate 32 (b8 9).

Definition stale_state : bytes := encrypt key1 [b8 1] 0 (blit "day_index=3").

Definition world_stale_state : World :=
  with_fs (<[STATE_ENC := File stale_state 384]> fs0) world0.

(** Twenty-one records of a category, one a day, left behind by earlier
    runs. *)
Definition july (d : N) : datetime :=
  {| year := 2025; month := 7; day := d; hour := 12; minute := 0;
     second := 0 |}.

Definition old_records (tag : str) : list str :=
  (fun d => backup_name tag (strftime_ts (july d)))
    <$> [1; 2; 3; 4; 5; 6; 7; 8; 9; 10; 11; 12; 13; 14; 15; 16; 17; 18;
         19; 20; 21].

Definition add_records (names : list str) (m : gmap path node)
    : gmap path node :=
  foldr (fun n m => <[BACKUP_FOLDER ++ [n] := File (blit "old") 384]> m)
    m names.

Definition world_old (tag : str) : World :=
  with_fs (add_records (old_records tag) fs0) world0.

(** A directory sits where the record of the database dump is to go. *)
Definition world_blocked : World :=
  with_fs (<[BACKUP_FOLDER ++ [backup_name (lit "dbdump") (strftime_ts noon)]
             := Dir]> fs0) world0.

End Toy.

(** ** More vocabulary *)

#[global] Instance node_eq_dec : EqDecision node.
Proof. solve_decision. Defined.

Section MoreVocabulary.

Context `{E : Externals}.

(** The exceptions a computation can end in are among [X]. *)
Definition raises_only (X : exn -> Prop) {A} (m : M A) : Prop :=
  forall w e w', m w = (Raise e, w') -> X e.

(** The library calls of sealing and opening: a draw of sixteen bytes
    for an initialisation vector, an encryption, a decryption. *)
Definition is_cipher_call (e : event) : Prop :=
  match e with
  | EvUrandom _ n => n = 16%nat
  | EvEncrypt _ _ _ => True
  | EvDecrypt _ => True
  | _ => False
  end.

Definition is_decrypt_call (e : event) : Prop :=
  match e with
  | EvDecrypt _ => True
  | _ => False
  end.

(** The errors of the file system calls. *)
Definition is_os_error (e : exn) : Prop :=
  e = FileNotFoundError \/ e = IsADirectoryError \/ e = NotADirectoryError.

(** The database is what it was. *)
Definition same_db (w w' : World) : Prop := db w' = db w.

(** The files are what they were. *)
Definition same_fs (w w' : World) : Prop := fs w' = fs w.

End MoreVocabulary.

Section BackupVocabulary.

Context `{E : Externals} {I : Install}.

(** The paths a backup may write or remove: the sealed dump, the
    plaintext table, the two sealed exports, and the names of the backup
    folder that start with the prefix of a category. *)
Definition backup_all_writes (p : path) : Prop :=
  p = DB_DUMP_ENC \/ p = CSV_FILE \/ p = CSV_ENC \/ p = XLSX_ENC
  \/ exists c f, c ∈ categories /\ p = BACKUP_FOLDER ++ [f]
                 /\ startswith f (c.1 ++ lit "_") = true.

(** The file [restore_from_encrypted_dump] decrypts the dump into. *)
Definition TMP_DUMP : path := DATA_DIR ++ [lit "__tmp_dump.sql"].

End BackupVocabulary.

(** ** The rest of the engine

    The state file, the restore at start-up, the loading of the table for
    the views, the export of the sealed dump and the tagging of notes. *)

From Stdlib Require Import DecimalString.
From Stdlib Require DecimalZ.

(** Further calls into the libraries. *)
Class Libraries `{E : Externals} := {
  exn_str : exn -> str;
    (* [str(e)], the message of an exception *)
  bytes_decode_ignore : bytes -> str;
    (* [b.decode("utf-8", errors="ignore")] *)
  df_columns : DataFrame -> list str;
    (* the labels of [df.columns] *)
  state_of_json : str -> option (Z * Z);
    (* [data = json.loads(text)] and then
       [(int(data.get("day_index", 0)), int(data.get("balance_rollover", 0)))];
       [None] when any of it raises *)
  int_max_str_digits : N;
    (* [sys.get_int_max_str_digits()], 0 when integers of any length are
       converted *)
  json_dump_partial : Z -> Z -> str
    (* what [json.dump] has written to the file when it fails on an
       integer it cannot convert *)
}.

(** What [str.lower] does outside ASCII. *)
Class Unicode := {
  unicode_lower : N -> str;
    (* the full lower-case mapping of a code point *)
  final_sigma : str -> nat -> bool
    (* whether the capital sigma at an index of a string ends a word *)
}.

(** *** Text *)

(** [repr] of an integer: decimal digits, a minus sign in front of a
    negative one. *)
Definition str_of_int (z : Z) : str := lit (NilEmpty.string_of_int (Z.to_int z)).

(** Text read from a file opened in text mode: every line ending is a
    line feed. *)
Fixpoint universal_newlines (s : str) : str :=
  match s with
  | [] => []
  | c :: r =>
      if c =? 13 then
        10 :: match r with
              | 10 :: r' => universal_newlines r'
              | _ => universal_newlines r
              end
      else c :: universal_newlines r
  end.

(** [x in s] on strings: [x] occurs in [s]. *)
Fixpoint contains (s x : str) : bool :=
  startswith s x
  || match s with
     | [] => false
     | _ :: s' => contains s' x
     end.

(** [any(x in s for x in xs)] *)
Definition any_in (xs : list str) (s : str) : bool := existsb (contains s) xs.

(** [sep.join(l)] *)
Fixpoint join (sep : str) (l : list str) : str :=
  match l with
  | [] => []
  | [x] => x
  | x :: l' => x ++ sep ++ join sep l'
  end.

Section Lower.

Context {U : Unicode}.

(** The lower case of the code point [c] at index [i] of [s]. *)
Definition lower_at (s : str) (i : nat) (c : N) : str :=
  if (65 <=? c) && (c <=? 90) then [c + 32]
  else if c <? 128 then [c]
  else if c =? 0x3A3 then [if final_sigma s i then 0x3C2 else 0x3C3]
  else unicode_lower c.

(** [s.lower()] *)
Definition lower (s : str) : str := concat (imap (lower_at s) s).

(** The order-preserving removal of duplicates that ends [auto_tag]:
    the set [seen] and the list [out] after the loop over [tags]. *)
Definition dedupe (tags : list str) : gset str * list str :=
  foldl (fun '(seen, out) t =>
           if decide (t ∈ seen) then (seen, out)
           else ({[t]} ∪ seen, out ++ [t]))
    (∅, []) tags.

Definition auto_tag (note_text : option str) : str :=
  let s := lower (default [] note_text) in
  let tags := [] in
  let tags :=
    if any_in [lit "tired"; lit "lazy"; lit "rest"; lit "sleep"] s
    then tags ++ [lit "#skipday"] else tags in
  let tags :=
    if any_in [lit "short"; lit "half"; lit "partial"] s
    then tags ++ [lit "#shortday"] else tags in
  let tags :=
    if any_in [lit "save"; lit "no spend"; lit "zero spend"] s
    then tags ++ [lit "#savings"] else tags in
  let tags :=
    if any_in [lit "food"; lit "coffee"; lit "drink"; lit "meal"] s
    then tags ++ [lit "#food"] else tags in
  let tags :=
    if any_in [lit "uber"; lit "bus"; lit "trip"; lit "travel"; lit "metro";
               lit "rickshaw"] s
    then tags ++ [lit "#travel"] else tags in
  join (lit " ") (dedupe tags).2.

End Lower.

(** The keywords of each tag, in the order [auto_tag] goes through them. *)
Definition tag_rules : list (list str * str) :=
  [([lit "tired"; lit "lazy"; lit "rest"; lit "sleep"], lit "#skipday");
   ([lit "short"; lit "half"; lit "partial"], lit "#shortday");
   ([lit "save"; lit "no spend"; lit "zero spend"], lit "#savings");
   ([lit "food"; lit "coffee"; lit "drink"; lit "meal"], lit "#food");
   ([lit "uber"; lit "bus"; lit "trip"; lit "travel"; lit "metro";
     lit "rickshaw"], lit "#travel")].

(** [u] spells the keyword [k], in upper or lower case letter by letter. *)
Definition spells (u k : str) : Prop :=
  Forall2 (fun x c => x = c \/ (97 <= c <= 122 /\ x + 32 = c)) u k.

(** The tags of the rules that fire on the lower-cased note [s], in the
    order of the rules. *)
Definition fired (s : str) : list str :=
  omap (fun r : list str * str => if any_in r.1 s then Some r.2 else None)
    tag_rules.

(** What a view returns: a file sent as an attachment, or a text. *)
Inductive response :=
  | Attachment (p : path)
  | Body (text : str).

Section Engine.

Context `{E : Externals} {L : Libraries} {I : Install} {P : Process}.

Definition STATE_FILE : path := DATA_DIR ++ [lit "finance_state.json"].

(** *** Logging *)

(** colorama's [Fore.GREEN], [Fore.YELLOW] and [Fore.CYAN]. *)
Definition Fore_GREEN : str := 27 :: lit "[32m".
Definition Fore_YELLOW : str := 27 :: lit "[33m".
Definition Fore_CYAN : str := 27 :: lit "[36m".

Definition log (msg color : str) : M unit := print (color ++ msg).

(** *** State *)

(** [repr] of an integer as the interpreter allows it: [ValueError]
    beyond the limit on the number of digits. *)
Definition int_str (z : Z) : option str :=
  let digits := N.of_nat (length (str_of_int (Z.abs z))) in
  if (int_max_str_digits =? 0) || (digits <=? int_max_str_digits)
  then Some (str_of_int z) else None.

(** [json.dumps({"day_index": day_index, "balance_rollover":
    balance_rollover})] *)
Definition json_dumps_state (day_index balance_rollover : Z) : option str :=
  match int_str day_index, int_str balance_rollover with
  | Some d, Some b =>
      Some (lit "{" ++ dq "day_index" ++ lit ": " ++ d ++ lit ", "
            ++ dq "balance_rollover" ++ lit ": " ++ b ++ lit "}")
  | _, _ => None
  end.

(** [open(p, "r", encoding="utf-8").read()] *)
Definition read_text (p : path) : M str :=
  b ← read_file p;
  s ← decode_utf8 b;
  mret (universal_newlines s).

(** The body of either [try] block of [load_state] on the text it has
    read: the pair it returns. *)
Definition parse_state (text : str) : M (Z * Z) :=
  of_option ValueError (state_of_json text).

(** The first [try] block of [load_state], on the plaintext file: the
    pair it returns, or [None] when the file is not there or the block is
    left through its handler. *)
Definition load_state_plain : M (option (Z * Z)) :=
  e ← path_exists STATE_FILE;
  if e : bool then
    try_except (text ← read_text STATE_FILE;
                st ← parse_state text;
                mret (Some st))
               (fun _ => mret None)
  else mret None.

(** The second, on the sealed copy. *)
Definition load_state_sealed : M (option (Z * Z)) :=
  e ← path_exists STATE_ENC;
  if e : bool then
    try_except (blob ← read_file STATE_ENC;
                raw ← dec_bytes blob;
                text ← decode_utf8 raw;
                st ← parse_state text;
                mret (Some st))
               (fun _ => mret None)
  else mret None.

Definition load_state : M (Z * Z) :=
  plain ← load_state_plain;
  match plain with
  | Some st => mret st
  | None =>
      sealed ← load_state_sealed;
      match sealed with
      | Some st => mret st
      | None => mret (0, 0)%Z
      end
  end.

(** [with open(p, "w", encoding="utf-8") as f: json.dump(..., f)]: the
    file is opened, and closed with what the encoder has written, be it
    all of the text or, when an integer cannot be converted, a part of
    it. *)
Definition json_dump_state (day_index balance_rollover : Z) (p : path)
    : M unit :=
  open_wb p;;
  match json_dumps_state day_index balance_rollover with
  | Some text => b ← encode_utf8 text; write_fd p b
  | None =>
      b ← encode_utf8 (json_dump_partial day_index balance_rollover);
      write_fd p b;;
      raise ValueError
  end.

Definition save_state (day_index balance_rollover : Z) : M unit :=
  try_except (json_dump_state day_index balance_rollover STATE_FILE)
             (fun _ => mret tt);;
  text ← of_option ValueError (json_dumps_state day_index balance_rollover);
  blob ← encode_utf8 text;
  sealed ← enc_bytes blob;
  _write_file_secure STATE_ENC sealed.

(** *** The restore at start-up *)

Definition restore_from_db_dump_if_any : M unit :=
  e ← path_exists DB_DUMP_ENC;
  if negb e then mret tt
  else
    try_except
      (blob ← read_file DB_DUMP_ENC;
       raw ← dec_bytes blob;
       let sql := bytes_decode_ignore raw in
       sqlite_connect;;
       sqlite_executescript sql;;
       log (lit "Restored DB from encrypted dump.") Fore_CYAN)
      (fun e =>
         log (lit "DB restore failed (continuing with empty DB): "
              ++ exn_str e) Fore_YELLOW).

(** *** The table of the views *)

Definition load_df : M DataFrame :=
  e ← path_exists CSV_FILE;
  if e : bool then
    try_except
      (df ← pd_read_csv CSV_FILE;
       if forallb (fun c => bool_decide (c ∈ df_columns df)) CSV_COLUMNS
       then mret df
       else
         rebuild_csv_from_db;;
         pd_read_csv CSV_FILE)
      (fun _ => rebuild_and_read)
  else rebuild_and_read.

(** *** Exports *)

(** [send_file(p, as_attachment=True)]: the file is opened at once. *)
Definition send_file (p : path) : M response :=
  read_file p;;
  mret (Attachment p).

Definition export_csv : M response :=
  e ← path_exists CSV_FILE;
  if e : bool then send_file CSV_FILE
  else mret (Body (lit "CSV not found.")).

Definition export_db : M response :=
  persist_db_dump;;
  e ← path_exists DB_DUMP_ENC;
  if e : bool then send_file DB_DUMP_ENC
  else mret (Body (lit "DB dump not found.")).

(** What the second block gives: the state in the sealed copy when it
    opens under the process key, is UTF-8 and parses. *)
Definition sealed_state (w : World) : option (Z * Z) :=
  match fs w !! STATE_ENC with
  | Some (File blob _) =>
      raw ← fernet_decrypt (fernet_key CIPHER) blob;
      text ← utf8_decode raw;
      state_of_json text
  | _ => None
  end.

(** The line [restore_from_db_dump_if_any] prints for a restore that
    failed with [e]. *)
Definition restore_failed (e : exn) : str :=
  Fore_YELLOW ++ lit "DB restore failed (continuing with empty DB): "
  ++ exn_str e.

(** The line it prints for a restore that went through. *)
Definition restore_done : str :=
  Fore_CYAN ++ lit "Restored DB from encrypted dump.".

End Engine.

(** What the state file relies on from [json]: the text written for two
    integers reads back as those integers. *)
Class JsonSpec `{L : Libraries} : Prop :=
  state_of_json_dumps (day_index balance_rollover : Z) (text : str) :
    json_dumps_state day_index balance_rollover = Some text ->
    state_of_json text = Some (day_index, balance_rollover).

(** ** A small instance of the further libraries

    A reader for the one JSON text the program writes, messages for the
    exceptions, and a [str.lower] that knows ASCII only. *)

Module ToyEngine.

(** The characters of an ASCII [str]. *)
Definition ascii_string (s : str) : string :=
  string_of_list_ascii (ascii_of_N <$> s).

Definition parse_int (s : str) : option Z :=
  Z.of_int <$> NilEmpty.int_of_string (ascii_string s).

Fixpoint strip_prefix (p s : str) : option str :=
  match p, s with
  | [], _ => Some s
  | c :: p', x :: s' => if c =? x then strip_prefix p' s' else None
  | _ :: _, [] => None
  end.

(** A minus sign or a digit. *)
Definition int_char (c : N) : bool := (c =? 45) || ((48 <=? c) && (c <=? 57)).

Fixpoint span_int (s : str) : str * str :=
  match s with
  | c :: r =>
      if int_char c then (c :: (span_int r).1, (span_int r).2) else ([], s)
  | [] => ([], [])
  end.

Definition key1 : str := lit "{" ++ dq "day_index" ++ lit ": ".
Definition key2 : str := lit ", " ++ dq "balance_rollover" ++ lit ": ".

Definition read_state (text : str) : option (Z * Z) :=
  r1 ← strip_prefix key1 text;
  r3 ← strip_prefix key2 (span_int r1).2;
  if decide ((span_int r3).2 = lit "}") then
    d ← parse_int (span_int r1).1;
    b ← parse_int (span_int r3).1;
    Some (d, b)
  else None.

#[global] Instance libraries : Libraries := {|
  exn_str := fun e =>
    match e with
    | InvalidToken => []
    | DatabaseError => lit "near line 1: syntax error"
    | _ => lit "error"
    end;
  bytes_decode_ignore := fun b => Byte.to_N <$> b;
  df_columns := fun _ => CSV_COLUMNS;
  state_of_json := read_state;
  int_max_str_digits := 4300;
  json_dump_partial := fun _ _ => []
|}.

#[global] Instance unicode : Unicode := {|
  unicode_lower := fun c => [c];
  final_sigma := fun _ _ => false
|}.

End ToyEngine.

(** ** The stand-in libraries with a stricter workbook

    As the first instance, but the workbook refuses the control characters
    that openpyxl refuses in a cell. *)

Module ToyStrict.

Definition legal (c : N) : bool :=
  (32 <=? c) || (c =? 9) || (c =? 10) || (c =? 13).

Definition externals : Externals := {|
  fernet_encrypt := Toy.encrypt;
  fernet_decrypt := Toy.decrypt;
  urlsafe_b64encode := Toy.armor;
  urlsafe_b64decode := Toy.unarmor;
  pbkdf2_hmac_sha256 := @pbkdf2_hmac_sha256 Toy.externals;
  urandom := @urandom Toy.externals;
  posix_time := @posix_time Toy.externals;
  decode_ignore := @decode_ignore Toy.externals;
  DB := list str;
  db_new := [];
  executescript := @executescript Toy.externals;
  iterdump := @iterdump Toy.externals;
  DataFrame := list str;
  read_sql_query := @read_sql_query Toy.externals;
  read_csv := @read_csv Toy.externals;
  df_new := @df_new Toy.externals;
  df_empty := @df_empty Toy.externals;
  df_column_str := @df_column_str Toy.externals;
  df_assign := @df_assign Toy.externals;
  df_to_csv := @df_to_csv Toy.externals;
  workbook_bytes := fun _ df =>
    if forallb (forallb legal) df then utf8_encode (concat df) else None
|}.

(** The plaintext table holds a note with a bell character. *)
Definition world_bell : @World externals :=
  {| fs := <[CSV_FILE := File [b8 7] 420]> Toy.fs0; db := None;
     environ := ∅; entropy := 0; clock := Toy.noon; budget := None;
     trace := []; stdout := [] |}.

End ToyStrict.
(** ** Codec lemmas *)

Section Utf8.

Local Ltac Zify.zify_post_hook ::= Z.to_euclidean_division_equations.

Lemma to_N_b8 (n : N) : n < 256 -> Byte.to_N (b8 n) = n.
Proof.
  intros Hn. unfold b8. destruct (Byte.of_N n) as [b|] eqn:E.
  - simpl. now apply Byte.to_of_N.
  - apply Byte.of_N_None_iff in E. lia.
Qed.

Lemma cont_b8 (n : N) : n < 64 -> cont (b8 (0x80 + n)) = Some n.
Proof.
  intros Hn. unfold cont. rewrite to_N_b8 by lia.
  replace (0x80 <=? 0x80 + n) with true by (symmetry; apply N.leb_le; lia).
  replace (0x80 + n <? 0xC0) with true by (symmetry; apply N.ltb_lt; lia).
  simpl. f_equal. lia.
Qed.

Lemma utf8_decode_cons (b0 : Byte.byte) (r0 : bytes) :
  utf8_decode (b0 :: r0) =
  let n0 := Byte.to_N b0 in
  if n0 <? 0x80 then cons n0 <$> utf8_decode r0
  else if n0 <? 0xC2 then None
  else if n0 <? 0xE0 then
    match r0 with
    | b1 :: r1 =>
        match cont b1 with
        | Some c1 => cons ((n0 - 0xC0) * 64 + c1) <$> utf8_decode r1
        | None => None
        end
    | _ => None
    end
  else if n0 <? 0xF0 then
    match r0 with
    | b1 :: b2 :: r2 =>
        match cont b1, cont b2 with
        | Some c1, Some c2 =>
            let c := (n0 - 0xE0) * 4096 + c1 * 64 + c2 in
            if (c <? 0x800) || is_surrogate c then None
            else cons c <$> utf8_decode r2
        | _, _ => None
        end
    | _ => None
    end
  else if n0 <? 0xF5 then
    match r0 with
    | b1 :: b2 :: b3 :: r3 =>
        match cont b1, cont b2, cont b3 with
        | Some c1, Some c2, Some c3 =>
            let c := (n0 - 0xF0) * 262144 + c1 * 4096 + c2 * 64 + c3 in
            if (c <? 0x10000) || (0x110000 <=? c) then None
            else cons c <$> utf8_decode r3
        | _, _, _ => None
        end
    | _ => None
    end
  else None.
Proof. reflexivity. Qed.

Local Ltac ltb_true := symmetry; apply N.ltb_lt; lia.
Local Ltac ltb_false := symmetry; apply N.ltb_ge; lia.

Lemma utf8_decode_encode_char (c : N) (b r : bytes) :
  utf8_encode_char c = Some b ->
  utf8_decode (b ++ r) = cons c <$> utf8_decode r.
Proof.
  unfold utf8_encode_char.
  destruct (c <? 0x80) eqn:E1.
  { intros [= <-]. apply N.ltb_lt in E1. cbn [app].
    rewrite utf8_decode_cons. cbv zeta.
    rewrite to_N_b8 by lia. now rewrite (proj2 (N.ltb_lt _ _) E1). }
  apply N.ltb_ge in E1.
  destruct (c <? 0x800) eqn:E2.
  { intros [= <-]. apply N.ltb_lt in E2. cbn [app].
    rewrite utf8_decode_cons. cbv zeta.
    rewrite to_N_b8 by lia. rewrite cont_b8 by lia.
    replace (0xC0 + c / 64 <? 0x80) with false by ltb_false.
    replace (0xC0 + c / 64 <? 0xC2) with false by ltb_false.
    replace (0xC0 + c / 64 <? 0xE0) with true by ltb_true.
    replace ((0xC0 + c / 64 - 0xC0) * 64 + c mod 64) with c by lia.
    reflexivity. }
  apply N.ltb_ge in E2.
  destruct (c <? 0x10000) eqn:E3.
  { apply N.ltb_lt in E3.
    destruct (is_surrogate c) eqn:E4; [discriminate|].
    intros [= <-]. cbn [app].
    rewrite utf8_decode_cons. cbv zeta.
    rewrite to_N_b8 by lia. rewrite !cont_b8 by lia.
    replace (0xE0 + c / 4096 <? 0x80) with false by ltb_false.
    replace (0xE0 + c / 4096 <? 0xC2) with false by ltb_false.
    replace (0xE0 + c / 4096 <? 0xE0) with false by ltb_false.
    replace (0xE0 + c / 4096 <? 0xF0) with true by ltb_true.
    replace ((0xE0 + c / 4096 - 0xE0) * 4096 + (c / 64) mod 64 * 64 + c mod 64)
      with c by lia.
    rewrite E4.
    replace (c <? 0x800) with false by ltb_false.
    reflexivity. }
  apply N.ltb_ge in E3.
  destruct (c <? 0x110000) eqn:E5; [|discriminate].
  apply N.ltb_lt in E5. intros [= <-]. cbn [app].
  rewrite utf8_decode_cons. cbv zeta.
  rewrite to_N_b8 by lia. rewrite !cont_b8 by lia.
  replace (0xF0 + c / 262144 <? 0x80) with false by ltb_false.
  replace (0xF0 + c / 262144 <? 0xC2) with false by ltb_false.
  replace (0xF0 + c / 262144 <? 0xE0) with false by ltb_false.
  replace (0xF0 + c / 262144 <? 0xF0) with false by ltb_false.
  replace (0xF0 + c / 262144 <? 0xF5) with true by ltb_true.
  replace ((0xF0 + c / 262144 - 0xF0) * 262144 + (c / 4096) mod 64 * 4096
           + (c / 64) mod 64 * 64 + c mod 64) with c by lia.
  replace (c <? 0x10000) with false by ltb_false.
  replace (0x110000 <=? c) with false by (symmetry; apply N.leb_gt; lia).
  reflexivity.
Qed.

(** Decoding inverts encoding. *)
Lemma utf8_decode_encode (s : str) (b : bytes) :
  utf8_encode s = Some b -> utf8_decode b = Some s.
Proof.
  revert b. induction s as [|c s IH]; intros b; cbn [utf8_encode].
  - now intros [= <-].
  - destruct (utf8_encode_char c) as [bc|] eqn:Ec; [|discriminate].
    destruct (utf8_encode s) as [bs|] eqn:Es; [|discriminate].
    intros [= <-]. rewrite (utf8_decode_encode_char _ _ _ Ec).
    now rewrite (IH _ eq_refl).
Qed.

(** The encoding of a character is never empty. *)
Lemma utf8_encode_char_nonempty (c : N) (b : bytes) :
  utf8_encode_char c = Some b -> b <> [].
Proof.
  unfold utf8_encode_char.
  repeat match goal with |- context [if ?c then _ else _] => destruct c end;
    intros [= <-] || intros [=]; discriminate.
Qed.

(** Exactly the strings free of surrogates (and of values beyond the
    Unicode range) encode. *)
Lemma utf8_encode_char_is_Some (c : N) :
  is_Some (utf8_encode_char c) <-> c < 0x110000 /\ is_surrogate c = false.
Proof.
  unfold utf8_encode_char, is_surrogate.
  destruct (c <? 0x80) eqn:E1; [apply N.ltb_lt in E1|apply N.ltb_ge in E1].
  { split; [intros _|eauto]. split; [lia|].
    apply andb_false_iff. left. apply N.leb_gt. lia. }
  destruct (c <? 0x800) eqn:E2; [apply N.ltb_lt in E2|apply N.ltb_ge in E2].
  { split; [intros _|eauto]. split; [lia|].
    apply andb_false_iff. left. apply N.leb_gt. lia. }
  destruct (c <? 0x10000) eqn:E3; [apply N.ltb_lt in E3|apply N.ltb_ge in E3].
  { destruct ((0xD800 <=? c) && (c <=? 0xDFFF)) eqn:E4.
    - split; [intros [? [=]]|intros [_ [=]]].
    - split; [intros _; split; [lia|reflexivity]|eauto]. }
  destruct (c <? 0x110000) eqn:E5; [apply N.ltb_lt in E5|apply N.ltb_ge in E5].
  { split; [intros _|eauto]. split; [lia|].
    apply andb_false_iff. right. apply N.leb_gt. lia. }
  split; [intros [? [=]]|intros [? _]; lia].
Qed.

End Utf8.

(** ASCII bytes decode to themselves and encode back: a token made of
    base64 characters is the same text on both sides of the codec. *)
Lemma utf8_decode_ascii (bs : bytes) :
  Forall (fun b => Byte.to_N b < 0x80) bs ->
  utf8_decode bs = Some (Byte.to_N <$> bs).
Proof.
  induction 1 as [|b bs Hb _ IH]; [reflexivity|].
  cbn [utf8_decode fmap list_fmap]. apply N.ltb_lt in Hb. rewrite Hb, IH.
  reflexivity.
Qed.

Lemma utf8_encode_ascii (bs : bytes) :
  Forall (fun b => Byte.to_N b < 0x80) bs ->
  utf8_encode (Byte.to_N <$> bs) = Some bs.
Proof.
  induction 1 as [|b bs Hb _ IH]; [reflexivity|].
  cbn [utf8_encode fmap list_fmap]. rewrite IH. unfold utf8_encode_char.
  apply N.ltb_lt in Hb. rewrite Hb. unfold b8. now rewrite Byte.of_to_N.
Qed.

(** ** Laws of the monad *)

Section MonadLaws.

Context `{E : Externals}.

Lemma bind_unfold {A B} (m : M A) (f : A -> M B) (w : World) :
  (m ≫= f) w =
  match m w with
  | (Ok a, w') => f a w'
  | (Raise e, w') => (Raise e, w')
  | (Killed, w') => (Killed, w')
  end.
Proof. reflexivity. Qed.

Lemma bind_Ok {A B} (m : M A) (f : A -> M B) w a w' :
  m w = (Ok a, w') -> (m ≫= f) w = f a w'.
Proof. intros H. now rewrite bind_unfold, H. Qed.

Lemma bind_Raise {A B} (m : M A) (f : A -> M B) w e w' :
  m w = (Raise e, w') -> (m ≫= f) w = (Raise e, w').
Proof. intros H. now rewrite bind_unfold, H. Qed.

Lemma bind_Killed {A B} (m : M A) (f : A -> M B) w w' :
  m w = (Killed, w') -> (m ≫= f) w = (Killed, w').
Proof. intros H. now rewrite bind_unfold, H. Qed.

(** A run is its outcome and its final world. *)
Lemma run_eq {A} (m : M A) (w : World) (r : outcome A) :
  (m w).1 = r -> m w = (r, (m w).2).
Proof. intros <-. by destruct (m w). Qed.

Lemma bind_ret_l {A B} (a : A) (f : A -> M B) w : (mret a ≫= f) w = f a w.
Proof. reflexivity. Qed.

(** A sequence that returns went through both of its halves. *)
Lemma bind_Ok_inv {A B} (m : M A) (f : A -> M B) w b w' :
  (m ≫= f) w = (Ok b, w') ->
  exists a w1, m w = (Ok a, w1) /\ f a w1 = (Ok b, w').
Proof.
  rewrite bind_unfold. destruct (m w) as [[a|e|] w1]; [eauto|discriminate..].
Qed.

Lemma try_except_unfold {A} (m : M A) (h : exn -> M A) w :
  try_except m h w =
  match m w with
  | (Raise e, w') => h e w'
  | r => r
  end.
Proof. reflexivity. Qed.

Lemma tick_unbounded w : budget w = None -> tick w = (Ok tt, w).
Proof. unfold tick. now intros ->. Qed.

Lemma syscall_unbounded {A} (m : M A) w :
  budget w = None -> syscall m w = m w.
Proof. intros H. unfold syscall. now rewrite (bind_Ok _ _ _ _ _ (tick_unbounded w H)). Qed.

Lemma Fernet_encrypt_run (c : Fernet) (data : bytes) (w : World) :
  Fernet_encrypt c data w = (Ok (token_at c data w), after_encrypt data w).
Proof. reflexivity. Qed.

Lemma Fernet_decrypt_run (c : Fernet) (token : bytes) (w : World) :
  Fernet_decrypt c token w =
  (match fernet_decrypt (fernet_key c) token with
   | Some plain => Ok plain
   | None => Raise InvalidToken
   end, after_decrypt token w).
Proof.
  unfold Fernet_decrypt. rewrite bind_unfold. unfold log_event at 1.
  cbv beta iota. now destruct (fernet_decrypt _ _).
Qed.

End MonadLaws.

(** ** Field encryption *)

Section FieldCipher.

Context `{E : Externals} {P : Process}.

Lemma utf8_encode_is_Some (t : str) : is_Some (utf8_encode t) <-> encodable t.
Proof.
  unfold encodable. induction t as [|c t IH]; cbn [utf8_encode].
  - split; [constructor|eauto].
  - rewrite Forall_cons, <- IH, <- utf8_encode_char_is_Some.
    destruct (utf8_encode_char c), (utf8_encode t); split;
      try (intros [? [=]]); try (intros [[? [=]] ?]); try (intros [? [? [=]]]);
      eauto.
Qed.

Lemma utf8_encode_nil_inv (t : str) : utf8_encode t = Some [] -> t = [].
Proof.
  destruct t as [|c t]; [reflexivity|]. cbn [utf8_encode].
  destruct (utf8_encode_char c) as [bc|] eqn:Ec; [|discriminate].
  destruct (utf8_encode t); [|discriminate]. intros [= H].
  apply app_eq_nil in H as [-> _]. now apply utf8_encode_char_nonempty in Ec.
Qed.

(** What [dec_text] does to a non-empty string, step by step. *)
Lemma dec_text_nonempty (s : str) (w : World) :
  s <> [] ->
  dec_text (Some s) w =
  match utf8_encode s with
  | None => (Ok s, w)
  | Some b =>
      let w1 := after_decrypt b w in
      match fernet_decrypt (fernet_key CIPHER) b with
      | None => (Ok s, w1)
      | Some plain =>
          match utf8_decode plain with
          | Some t => (Ok t, w1)
          | None => (Ok s, w1)
          end
      end
  end.
Proof.
  intros Hs. unfold dec_text. destruct (decide (s = [])) as [|_]; [done|].
  rewrite try_except_unfold, bind_unfold. unfold encode_utf8.
  destruct (utf8_encode s) as [b|]; cbn [of_option]; [|reflexivity].
  unfold mret at 1, M_ret at 1. cbv beta iota.
  rewrite bind_unfold, Fernet_decrypt_run.
  destruct (fernet_decrypt (fernet_key CIPHER) b) as [plain|]; [|reflexivity].
  unfold decode_utf8. destruct (utf8_decode plain); reflexivity.
Qed.

(** [dec_text] returns on every input: it never raises. *)
Lemma dec_text_total (s : option str) (w : World) :
  exists t w', dec_text s w = (Ok t, w').
Proof.
  destruct s as [s|]; [|by eexists _, _].
  destruct (decide (s = [])) as [->|Hs]; [by eexists _, _|].
  rewrite dec_text_nonempty by done.
  destruct (utf8_encode s); [|by eexists _, _]. cbv zeta.
  destruct (fernet_decrypt _ _); [|by eexists _, _].
  destruct (utf8_decode _); by eexists _, _.
Qed.

(** What [enc_text] does to a non-empty string. *)
Lemma enc_text_nonempty (s : str) (w : World) :
  s <> [] ->
  enc_text (Some s) w =
  match utf8_encode s with
  | None => (Raise UnicodeEncodeError, w)
  | Some b =>
      match utf8_decode (token_at CIPHER b w) with
      | Some c => (Ok c, after_encrypt b w)
      | None => (Raise UnicodeDecodeError, after_encrypt b w)
      end
  end.
Proof.
  intros Hs. unfold enc_text. destruct (decide (s = [])) as [|_]; [done|].
  rewrite bind_unfold. unfold encode_utf8.
  destruct (utf8_encode s) as [b|]; cbn [of_option]; [|reflexivity].
  unfold mret at 1, M_ret at 1. cbv beta iota zeta.
  rewrite bind_unfold, Fernet_encrypt_run. unfold decode_utf8.
  destruct (utf8_decode _); reflexivity.
Qed.

End FieldCipher.

(** ** The stand-in libraries keep the contract of Fernet *)

Module ToyFacts.

Import Toy.

Local Ltac Zify.zify_post_hook ::= Z.to_euclidean_division_equations.

Lemma nibble_b8 (n : N) : n < 16 -> nibble (b8 (97 + n)) = Some n.
Proof.
  intros Hn. unfold nibble. rewrite to_N_b8 by lia.
  replace (97 <=? 97 + n) with true by (symmetry; apply N.leb_le; lia).
  replace (97 + n <? 113) with true by (symmetry; apply N.ltb_lt; lia).
  simpl. f_equal. lia.
Qed.

Lemma unarmor_armor (l : bytes) : unarmor (armor l) = Some l.
Proof.
  induction l as [|b l IH]; [reflexivity|].
  unfold armor in *. cbn [fmap list_fmap concat armor_byte app unarmor].
  pose proof (Byte.to_N_bounded b) as Hb.
  rewrite !nibble_b8, IH by lia.
  replace (Byte.to_N b / 16 * 16 + Byte.to_N b mod 16) with (Byte.to_N b) by lia.
  unfold b8. now rewrite Byte.of_to_N.
Qed.

Lemma armor_ascii (l : bytes) :
  Forall (fun b => Byte.to_N b < 0x80) (armor l).
Proof.
  induction l as [|b l IH]; [constructor|].
  unfold armor in *. cbn [fmap list_fmap concat armor_byte app].
  pose proof (Byte.to_N_bounded b) as Hb.
  repeat constructor; [rewrite to_N_b8 by lia; lia..|exact IH].
Qed.

#[global] Instance fernet_spec : FernetSpec externals.
Proof.
  split.
  - intros key iv t data.
    change (decrypt key (encrypt key iv t data) = Some data).
    unfold decrypt, encrypt. rewrite unarmor_armor. now rewrite decide_True.
  - intros key iv t data. apply armor_ascii.
  - intros key iv t data. change (encrypt key iv t data <> []).
    unfold encrypt, armor.
    cbn [fmap list_fmap concat armor_byte app]. discriminate.
Qed.

End ToyFacts.

(** ** Claims on the field cipher *)

Section FieldClaims.

Context `{E : Externals} {P : Process}.

(** A non-empty string that has bytes does reach [Fernet.decrypt]. *)
Lemma dec_text_nonempty_decrypts (s : str) (b : bytes) (w : World) :
  s <> [] -> utf8_encode s = Some b ->
  trace (dec_text (Some s) w).2 = trace w ++ [EvDecrypt b].
Proof.
  intros Hs Hb. rewrite dec_text_nonempty, Hb by done. cbv zeta.
  destruct (fernet_decrypt _ _); [destruct (utf8_decode _)|]; reflexivity.
Qed.

(** C10. [dec_text] on [None] or on the empty string returns the empty
    string and leaves the world as it was; in particular the record of
    library calls is what it was, so no decryption is attempted, whereas
    on any other string that has bytes the call to [Fernet.decrypt] is on
    record.  [enc_text] treats the two inputs the same way. *)
Theorem dec_text_empty_no_decrypt (w : World) :
  (forall s, s = None \/ s = Some [] ->
             dec_text s w = (Ok [], w)
             /\ trace (dec_text s w).2 = trace w
             /\ enc_text s w = (Ok [], w))
  /\ (forall s b, s <> [] -> utf8_encode s = Some b ->
                  trace (dec_text (Some s) w).2 = trace w ++ [EvDecrypt b]).
Proof.
  split.
  - intros s [->| ->]; repeat split.
  - intros s b Hs Hb. by apply dec_text_nonempty_decrypts.
Qed.

(** C2. Whenever authenticated decryption of a stored string fails,
    [dec_text] returns that string unchanged; it does not raise, and it
    touches neither the files nor the database. *)
Theorem dec_text_fallback (s : str) (w : World) :
  decryption_fails s ->
  exists w', dec_text (Some s) w = (Ok s, w')
             /\ fs w' = fs w /\ db w' = db w.
Proof.
  intros Hf. destruct (decide (s = [])) as [->|Hs]; [by exists w|].
  rewrite dec_text_nonempty by done. unfold decryption_fails in Hf.
  destruct (utf8_encode s) as [b|]; [|by exists w].
  cbv zeta. rewrite Hf. by eexists.
Qed.

Context {F : FernetSpec E}.

(** C4, amended. For every string that UTF-8 encodes, that is, one
    without surrogate code points, [enc_text] returns a ciphertext that
    [dec_text] turns back into the string; and [enc_text] of the empty
    string is the empty string. *)
Theorem enc_dec_text_round_trip (t : str) (w : World) :
  encodable t ->
  field_round_trip t w /\ enc_text (Some []) w = (Ok [], w).
Proof.
  intros Ht. split; [|reflexivity]. unfold field_round_trip.
  destruct (decide (t = [])) as [->|Hne].
  { exists [], w. split; [reflexivity|]. intros w2. by exists w2. }
  apply utf8_encode_is_Some in Ht as [b Hb].
  rewrite enc_text_nonempty, Hb by done.
  pose proof (fernet_token_ascii (fernet_key CIPHER) (urandom (entropy w) 16)
                (posix_time (clock w)) b) as Hascii.
  fold (token_at CIPHER b w) in Hascii.
  rewrite (utf8_decode_ascii _ Hascii).
  eexists _, _. split; [reflexivity|]. intros w2.
  assert (Byte.to_N <$> token_at CIPHER b w <> []) as Hc.
  { intros Hnil. apply fmap_nil_inv in Hnil.
    now apply (fernet_token_nonempty (fernet_key CIPHER)
                 (urandom (entropy w) 16) (posix_time (clock w)) b). }
  rewrite dec_text_nonempty by done.
  rewrite (utf8_encode_ascii _ Hascii). cbv zeta.
  unfold token_at. rewrite fernet_decrypt_encrypt.
  rewrite (utf8_decode_encode _ _ Hb). by eexists.
Qed.

End FieldClaims.

(** C10 at work: an empty note is neither encrypted nor decrypted. *)
Lemma dec_text_empty_no_decrypt_witness :
  dec_text (Some []) Toy.world0 = (Ok [], Toy.world0)
  /\ trace (dec_text (Some []) Toy.world0).2 = []
  /\ trace (dec_text (Some (lit "note")) Toy.world0).2
     = [EvDecrypt (blit "note")].
Proof.
  destruct (dec_text_empty_no_decrypt Toy.world0) as [Hempty Hother].
  destruct (Hempty (Some [])) as (Hrun & Htrace & _); [by right|].
  split; [exact Hrun|]. split; [exact Htrace|].
  apply (Hother (lit "note") (blit "note")); [discriminate|].
  vm_compute. reflexivity.
Defined.

(** C2 at work: a legacy plaintext note comes back as it is stored. *)
Lemma dec_text_fallback_witness :
  decryption_fails (lit "lunch")
  /\ exists w', dec_text (Some (lit "lunch")) Toy.world0 = (Ok (lit "lunch"), w')
                /\ fs w' = fs Toy.world0 /\ db w' = db Toy.world0.
Proof.
  split; [vm_compute; reflexivity|].
  apply (dec_text_fallback (lit "lunch") Toy.world0). vm_compute. reflexivity.
Defined.

(** C4 as stated fails on a string with a lone surrogate: [enc_text] raises
    [UnicodeEncodeError], so there is no ciphertext to decrypt. *)
Lemma enc_text_surrogate_no_round_trip :
  enc_text (Some [0xD800]) Toy.world0 = (Raise UnicodeEncodeError, Toy.world0)
  /\ ~ field_round_trip [0xD800] Toy.world0.
Proof.
  split; [reflexivity|]. intros (c & w1 & Henc & _). discriminate Henc.
Qed.

(** C4, amended, at work on a note. *)
Lemma enc_dec_text_round_trip_witness :
  encodable (lit "coffee with friends")
  /\ field_round_trip (lit "coffee with friends") Toy.world0.
Proof.
  assert (encodable (lit "coffee with friends")) as H.
  { apply utf8_encode_is_Some. vm_compute. eauto. }
  split; [exact H|].
  exact (proj1 (enc_dec_text_round_trip (lit "coffee with friends") Toy.world0 H)).
Defined.

(** ** Footprints *)

Section Footprints.

Context `{E : Externals}.

(** The parts of a footprint that hold at once when nothing is called. *)
Local Ltac quiet :=
  repeat split; try done; try (cbn; lia);
  try (exists []; by rewrite app_nil_r).

#[global] Instance footprint_refl S Q : Reflexive (footprint S Q).
Proof. intros w. quiet. Qed.

#[global] Instance footprint_trans S Q : Transitive (footprint S Q).
Proof.
  intros w1 w2 w3 (F1 & (e1 & T1 & Q1) & C1 & V1 & N1 & O1 & B1)
                  (F2 & (e2 & T2 & Q2) & C2 & V2 & N2 & O2 & B2).
  split; [|split; [|repeat split]].
  - intros p Hp. rewrite F2, F1; done.
  - exists (e1 ++ e2). rewrite T2, T1, app_assoc. split; [done|].
    by apply Forall_app.
  - congruence.
  - congruence.
  - lia.
  - congruence.
  - auto.
Qed.

Lemma footprint_weaken (S S' : path -> Prop) (Q Q' : event -> Prop) w w' :
  (forall p, S p -> S' p) -> (forall e, Q e -> Q' e) ->
  footprint S Q w w' -> footprint S' Q' w w'.
Proof.
  intros HS HQ (F & (e & T & HQe) & C & V & N & O & B).
  split; [|split; [|done]].
  - intros p Hp. apply F. eauto.
  - exists e. split; [done|]. eapply Forall_impl; eauto.
Qed.

Lemma preserves_weaken (S S' : path -> Prop) (Q Q' : event -> Prop)
    {A} (m : M A) :
  (forall p, S p -> S' p) -> (forall e, Q e -> Q' e) ->
  preserves (footprint S Q) m -> preserves (footprint S' Q') m.
Proof. intros HS HQ H w. eapply footprint_weaken; eauto. Qed.

Section Combinators.

Context (R : World -> World -> Prop) `{!Reflexive R} `{!Transitive R}.

Lemma preserves_ret {A} (a : A) : preserves R (mret a).
Proof. intros w. reflexivity. Qed.

Lemma preserves_raise {A} (e : exn) : preserves R (@raise _ A e).
Proof. intros w. reflexivity. Qed.

Lemma preserves_bind {A B} (m : M A) (f : A -> M B) :
  preserves R m -> (forall a, preserves R (f a)) ->
  preserves R (m ≫= f).
Proof.
  intros Hm Hf w. rewrite bind_unfold. specialize (Hm w).
  destruct (m w) as [[a|e|] w1]; cbn in *; [|done..].
  etransitivity; [exact Hm|apply Hf].
Qed.

Lemma preserves_try_except {A} (m : M A) (h : exn -> M A) :
  preserves R m -> (forall e, preserves R (h e)) ->
  preserves R (try_except m h).
Proof.
  intros Hm Hh w. rewrite try_except_unfold. specialize (Hm w).
  destruct (m w) as [[a|e|] w1]; cbn in *; [done| |done].
  etransitivity; [exact Hm|apply Hh].
Qed.

Lemma preserves_for_ {A} (l : list A) (f : A -> M unit) :
  (forall a, preserves R (f a)) -> preserves R (for_ l f).
Proof.
  intros Hf. induction l as [|x l IH]; cbn [for_].
  - apply preserves_ret.
  - apply preserves_bind; auto.
Qed.

Lemma preserves_mapM {A B} (f : A -> M B) (l : list A) :
  (forall a, preserves R (f a)) -> preserves R (mapM f l).
Proof.
  intros Hf. induction l as [|x l IH]; cbn [mapM].
  - apply preserves_ret.
  - apply preserves_bind; [auto|]. intros y.
    apply preserves_bind; [auto|]. intros ys. apply preserves_ret.
Qed.

Lemma preserves_of_option {A} (e : exn) (o : option A) :
  preserves R (of_option e o).
Proof. destruct o; [apply preserves_ret|apply preserves_raise]. Qed.

Lemma preserves_if {A} (b : bool) (m1 m2 : M A) :
  preserves R m1 -> preserves R m2 -> preserves R (if b then m1 else m2).
Proof. by destruct b. Qed.

Lemma preserves_pure {A} (f : World -> outcome A) :
  preserves R (fun w => (f w, w)).
Proof. intros w. reflexivity. Qed.

End Combinators.

Context (S : path -> Prop) (Q : event -> Prop).

Lemma tick_footprint : preserves (footprint S Q) tick.
Proof.
  intros w. unfold tick. destruct (budget w) as [[|n]|] eqn:Hb;
    cbn; try reflexivity.
  quiet. cbn. congruence.
Qed.

Lemma syscall_footprint {A} (m : M A) :
  preserves (footprint S Q) m -> preserves (footprint S Q) (syscall m).
Proof.
  intros H. apply preserves_bind; [apply _|apply tick_footprint|done].
Qed.

(** A change of the files alone, at paths of [S] alone. *)
Lemma with_fs_footprint (f : gmap path node) (w : World) :
  (forall p, ~ S p -> f !! p = fs w !! p) ->
  footprint S Q w (with_fs f w).
Proof.
  intros H. quiet.
Qed.

Lemma insert_outside (p : path) (n : node) (f : gmap path node) :
  S p -> forall q, ~ S q -> <[p := n]> f !! q = f !! q.
Proof. intros Hp q Hq. apply lookup_insert_ne. congruence. Qed.

Lemma delete_outside (p : path) (f : gmap path node) :
  S p -> forall q, ~ S q -> delete p f !! q = f !! q.
Proof. intros Hp q Hq. apply lookup_delete_ne. congruence. Qed.

Lemma open_wb_footprint (p : path) :
  S p -> preserves (footprint S Q) (open_wb p).
Proof.
  intros Hp. apply syscall_footprint. intros w. cbn.
  destruct (fs w !! p) as [[data mode|]|]; cbn; try reflexivity.
  - apply with_fs_footprint, insert_outside, Hp.
  - destruct (fs w !! parent p) as [[]|]; cbn; try reflexivity.
    apply with_fs_footprint, insert_outside, Hp.
Qed.

Lemma write_fd_footprint (p : path) (data : bytes) :
  S p -> preserves (footprint S Q) (write_fd p data).
Proof.
  intros Hp. apply syscall_footprint. intros w. cbn.
  destruct (fs w !! p) as [[old mode|]|]; cbn; try reflexivity.
  apply with_fs_footprint, insert_outside, Hp.
Qed.

Lemma chmod_footprint (p : path) (mode : N) :
  S p -> preserves (footprint S Q) (chmod p mode).
Proof.
  intros Hp. apply syscall_footprint. intros w. cbn.
  destruct (fs w !! p) as [[old m|]|]; cbn; try reflexivity.
  apply with_fs_footprint, insert_outside, Hp.
Qed.

Lemma remove_footprint (p : path) :
  S p -> preserves (footprint S Q) (remove p).
Proof.
  intros Hp. apply syscall_footprint. intros w. cbn.
  destruct (fs w !! p) as [[old m|]|]; cbn; try reflexivity.
  apply with_fs_footprint, delete_outside, Hp.
Qed.

Lemma read_file_footprint (p : path) : preserves (footprint S Q) (read_file p).
Proof.
  intros w. unfold read_file.
  destruct (fs w !! p) as [[]|]; reflexivity.
Qed.

Lemma path_exists_footprint (p : path) :
  preserves (footprint S Q) (path_exists p).
Proof. intros w. reflexivity. Qed.

Lemma listdir_footprint (d : path) : preserves (footprint S Q) (listdir d).
Proof.
  intros w. unfold listdir.
  destruct (fs w !! d) as [[]|]; reflexivity.
Qed.

Lemma datetime_now_footprint : preserves (footprint S Q) datetime_now.
Proof. intros w. reflexivity. Qed.

Lemma encode_utf8_footprint (s : str) :
  preserves (footprint S Q) (encode_utf8 s).
Proof. apply preserves_of_option; apply _. Qed.

Lemma decode_utf8_footprint (b : bytes) :
  preserves (footprint S Q) (decode_utf8 b).
Proof. apply preserves_of_option; apply _. Qed.

Lemma log_event_footprint (e : event) :
  Q e -> preserves (footprint S Q) (log_event e).
Proof.
  intros He w. quiet. exists [e]. split; [done|]. by constructor.
Qed.

Lemma os_urandom_footprint (n : nat) :
  (forall s, Q (EvUrandom s n)) -> preserves (footprint S Q) (os_urandom n).
Proof.
  intros He w. quiet.
  exists [EvUrandom (entropy w) n]. split; [done|]. by constructor.
Qed.

Lemma Fernet_encrypt_footprint (c : Fernet) (data : bytes) :
  (forall s, Q (EvUrandom s 16)) -> (forall iv t, Q (EvEncrypt iv t data)) ->
  preserves (footprint S Q) (Fernet_encrypt c data).
Proof.
  intros H1 H2 w. rewrite Fernet_encrypt_run. quiet.
  eexists [_; _]. split; [cbn; by rewrite <- app_assoc|].
  repeat constructor; auto.
Qed.

Lemma Fernet_decrypt_footprint (c : Fernet) (token : bytes) :
  Q (EvDecrypt token) -> preserves (footprint S Q) (Fernet_decrypt c token).
Proof.
  intros H w. rewrite Fernet_decrypt_run. quiet.
  exists [EvDecrypt token]. split; [done|]. by constructor.
Qed.

Lemma sqlite_connect_footprint : preserves (footprint S Q) sqlite_connect.
Proof.
  intros w. unfold sqlite_connect. destruct (db w); cbn; [reflexivity|].
  quiet.
Qed.

Lemma sqlite_executescript_footprint (sql : str) :
  preserves (footprint S Q) (sqlite_executescript sql).
Proof.
  apply syscall_footprint. intros w. cbn.
  destruct (db w) as [d|]; [|reflexivity].
  destruct (executescript sql d) as [d' [e|]]; cbn; quiet.
Qed.

End Footprints.

(** ** Writing a sealed file *)

Section WriteSecure.

Context `{E : Externals} {I : Install}.

Lemma with_fs_with_fs (f g : gmap path node) (w : World) :
  with_fs f (with_fs g w) = with_fs f w.
Proof. reflexivity. Qed.

Lemma open_wb_run (p : path) (w : World) :
  budget w = None -> writable p w ->
  open_wb p w = (Ok tt, with_fs (<[p := File [] (mode_at p w)]> (fs w)) w).
Proof.
  intros Hb Hw. unfold open_wb. rewrite syscall_unbounded by done.
  unfold writable, mode_at in *.
  destruct (fs w !! p) as [[data mode|]|]; [done..|]. now rewrite Hw.
Qed.

Lemma write_fd_run (p : path) (data old : bytes) (mode : N) (w : World) :
  budget w = None -> fs w !! p = Some (File old mode) ->
  write_fd p data w
  = (Ok tt, with_fs (<[p := File (old ++ data) mode]> (fs w)) w).
Proof.
  intros Hb Hp. unfold write_fd. rewrite syscall_unbounded by done.
  now rewrite Hp.
Qed.

Lemma chmod_run (p : path) (data : bytes) (mode mode' : N) (w : World) :
  budget w = None -> fs w !! p = Some (File data mode) ->
  chmod p mode' w = (Ok tt, with_fs (<[p := File data mode']> (fs w)) w).
Proof.
  intros Hb Hp. unfold chmod. rewrite syscall_unbounded by done.
  now rewrite Hp.
Qed.

(** Left alone, the call puts the content at [p] with mode 0600. *)
Lemma _write_file_secure_run (p : path) (data : bytes) (w : World) :
  budget w = None -> writable p w ->
  _write_file_secure p data w
  = (Ok tt, with_fs (<[p := File data 384]> (fs w)) w).
Proof.
  intros Hb Hw. unfold _write_file_secure.
  rewrite (bind_Ok _ _ _ _ _ (open_wb_run p w Hb Hw)).
  erewrite bind_Ok; cycle 1.
  { apply write_fd_run; [done|]. cbn. apply lookup_insert_eq. }
  rewrite try_except_unfold. erewrite chmod_run; cycle 1.
  { done. }
  { cbn. apply lookup_insert_eq. }
  cbn. now rewrite !insert_insert_eq.
Qed.

(** Interrupted after its first system call, it leaves an empty file. *)
Lemma _write_file_secure_interrupted (p : path) (data : bytes) (w : World) :
  budget w = Some 1%nat -> writable p w ->
  _write_file_secure p data w
  = (Killed, with_budget (Some 0%nat)
               (with_fs (<[p := File [] (mode_at p w)]> (fs w)) w)).
Proof.
  intros Hb Hw. unfold _write_file_secure.
  assert (open_wb p w
          = (Ok tt, with_fs (<[p := File [] (mode_at p w)]> (fs w))
                      (with_budget (Some 0%nat) w))) as Hopen.
  { unfold open_wb, syscall. rewrite bind_unfold. unfold tick. rewrite Hb.
    cbn. unfold writable, mode_at in *.
    destruct (fs w !! p) as [[old mode|]|]; [done..|]. now rewrite Hw. }
  rewrite (bind_Ok _ _ _ _ _ Hopen). reflexivity.
Qed.

(** When the call returns, the file holds the content. *)
Lemma _write_file_secure_Ok (p : path) (data : bytes) (w w' : World) :
  _write_file_secure p data w = (Ok tt, w') ->
  exists mode, fs w' !! p = Some (File data mode).
Proof.
  unfold _write_file_secure. intros H.
  apply bind_Ok_inv in H as ([] & w1 & Hopen & H).
  apply bind_Ok_inv in H as ([] & w2 & Hwrite & H).
  assert (exists mode, fs w1 !! p = Some (File [] mode)) as [m1 H1].
  { revert Hopen. unfold open_wb, syscall. rewrite bind_unfold.
    destruct (tick w) as [[[]|e|] w0]; [|discriminate..].
    destruct (fs w0 !! p) as [[old mode|]|].
    - intros [= <-]. eexists. cbn. apply lookup_insert_eq.
    - discriminate.
    - destruct (fs w0 !! parent p) as [[]|]; [discriminate| |discriminate].
      intros [= <-]. eexists. cbn. apply lookup_insert_eq. }
  assert (exists mode, fs w2 !! p = Some (File data mode)) as [m2 H2].
  { revert Hwrite. unfold write_fd, syscall. rewrite bind_unfold.
    unfold tick. destruct (budget w1) as [[|n]|]; [discriminate|..].
    - cbn. rewrite H1. intros [= <-]. eexists. cbn. apply lookup_insert_eq.
    - rewrite H1. intros [= <-]. eexists. cbn. apply lookup_insert_eq. }
  revert H. rewrite try_except_unfold. unfold chmod, syscall.
  rewrite bind_unfold. unfold tick.
  destruct (budget w2) as [[|n]|]; [discriminate|..].
  - cbn. rewrite H2. intros [= <-]. eexists. cbn. apply lookup_insert_eq.
  - rewrite H2. intros [= <-]. eexists. cbn. apply lookup_insert_eq.
Qed.

Lemma _write_file_secure_footprint S Q (p : path) (data : bytes) :
  S p -> preserves (footprint S Q) (_write_file_secure p data).
Proof.
  intros Hp. unfold _write_file_secure.
  apply preserves_bind; [apply _|by apply open_wb_footprint|intros _].
  apply preserves_bind; [apply _|by apply write_fd_footprint|intros _].
  apply preserves_try_except; [apply _|by apply chmod_footprint|intros _].
  apply preserves_ret; apply _.
Qed.

(** C5, amended. A sealed file is written in place: the final path
    itself is opened (and emptied), the content is written there and the
    mode is set to 0600; no other path is written, so there is no
    temporary file and no rename.  Left alone, the call ends with the
    complete content at the path; interrupted after the open, it leaves
    an empty file there. *)
Theorem _write_file_secure_in_place (p : path) (data : bytes) (w : World) :
  writable p w ->
  footprint (eq p) (fun _ => False) w (_write_file_secure p data w).2
  /\ (budget w = None ->
      _write_file_secure p data w
      = (Ok tt, with_fs (<[p := File data 384]> (fs w)) w))
  /\ (budget w = Some 1%nat ->
      (_write_file_secure p data w).1 = Killed
      /\ fs (_write_file_secure p data w).2 !! p
         = Some (File [] (mode_at p w))).
Proof.
  intros Hw. split; [|split].
  - by apply _write_file_secure_footprint.
  - intros Hb. by apply _write_file_secure_run.
  - intros Hb. rewrite _write_file_secure_interrupted by done.
    split; [done|]. cbn. apply lookup_insert_eq.
Qed.

End WriteSecure.

(** C5 as stated fails: the process is interrupted while it replaces a
    sealed export, and the final path holds an empty file, neither the old
    sealed bytes nor the new ones. *)
Lemma _write_file_secure_not_atomic :
  let w :=
    with_budget (Some 1%nat)
      (with_fs (<[CSV_ENC := File (blit "old sealed bytes") 384]> Toy.fs0)
         Toy.world0) in
  (_write_file_secure CSV_ENC (blit "new sealed bytes") w).1 = Killed
  /\ fs (_write_file_secure CSV_ENC (blit "new sealed bytes") w).2 !! CSV_ENC
     = Some (File [] 384)
  /\ ~ write_is_atomic CSV_ENC (blit "new sealed bytes") w.
Proof.
  cbv zeta. split; [vm_compute; reflexivity|].
  split; [vm_compute; reflexivity|].
  unfold write_is_atomic. cbv zeta. intros [H|[mode H]]; vm_compute in H; discriminate H.
Qed.

(** C5, amended, at work on the same export. *)
Lemma _write_file_secure_in_place_witness :
  let w := with_fs (<[CSV_ENC := File (blit "old sealed bytes") 384]> Toy.fs0)
             Toy.world0 in
  writable CSV_ENC w
  /\ fs (_write_file_secure CSV_ENC (blit "new sealed bytes") w).2 !! CSV_ENC
     = Some (File (blit "new sealed bytes") 384).
Proof.
  cbv zeta. split; [vm_compute; exact Logic.I|].
  match goal with |- context [_write_file_secure ?p ?d ?w] =>
    destruct (_write_file_secure_in_place p d w) as (_ & Hrun & _);
      [vm_compute; exact Logic.I|rewrite Hrun by reflexivity]
  end.
  cbn. apply lookup_insert_eq.
Defined.

(** ** Restore *)

Section Restore.

Context `{E : Externals} {I : Install} {P : Process}.

Lemma read_file_run (p : path) (data : bytes) (mode : N) (w : World) :
  fs w !! p = Some (File data mode) -> read_file p w = (Ok data, w).
Proof. intros H. unfold read_file. now rewrite H. Qed.

(** A dump that does not authenticate stops [decrypt_artifact] before it
    writes anything. *)
Lemma decrypt_artifact_invalid (enc_path out_path : path) (blob : bytes)
    (mode : N) (w : World) :
  fs w !! enc_path = Some (File blob mode) ->
  fernet_decrypt (fernet_key CIPHER) blob = None ->
  decrypt_artifact enc_path out_path w
  = (Raise InvalidToken, after_decrypt blob w).
Proof.
  intros Hf Hd. unfold decrypt_artifact.
  rewrite (bind_Ok _ _ _ _ _ (read_file_run _ _ _ _ Hf)).
  apply bind_Raise. unfold dec_bytes. now rewrite Fernet_decrypt_run, Hd.
Qed.

(** C1. When the sealed dump given to [restore_from_encrypted_dump] does
    not decrypt (tampered bytes, or bytes sealed under another key), the
    call raises [InvalidToken] and the files and the database are what
    they were: the table is dropped and rebuilt only after decryption has
    succeeded.  The [restore] command then ends on that exception and
    never prints its confirmation. *)
Theorem restore_invalid_dump_untouched (enc_path : path) (blob : bytes)
    (mode : N) (w : World) :
  fs w !! enc_path = Some (File blob mode) ->
  fernet_decrypt (fernet_key CIPHER) blob = None ->
  exists w',
    restore_from_encrypted_dump enc_path w = (Raise InvalidToken, w')
    /\ main_restore enc_path w = (Raise InvalidToken, w')
    /\ fs w' = fs w /\ db w' = db w /\ stdout w' = stdout w.
Proof.
  intros Hf Hd. exists (after_decrypt blob w).
  assert (restore_from_encrypted_dump enc_path w
          = (Raise InvalidToken, after_decrypt blob w)) as Hr.
  { unfold restore_from_encrypted_dump. apply bind_Raise.
    by eapply decrypt_artifact_invalid. }
  split; [exact Hr|]. split; [|done].
  unfold main_restore. by apply bind_Raise.
Qed.

End Restore.

(** C1 at work: the sealed dump of a backup is tampered with (its first
    byte is replaced) and the restore is refused. *)
Lemma restore_invalid_dump_untouched_witness :
  let tampered := blit "zaaaedfcefebfeefcafeebecemefcagggjgogbgogdgfdl" in
  let w := with_fs (<[DB_DUMP_ENC := File tampered 384]> Toy.fs0) Toy.world0 in
  fernet_decrypt (fernet_key CIPHER) tampered = None
  /\ exists w',
      restore_from_encrypted_dump DB_DUMP_ENC w = (Raise InvalidToken, w')
      /\ main_restore DB_DUMP_ENC w = (Raise InvalidToken, w')
      /\ fs w' = fs w /\ db w' = db w /\ stdout w' = stdout w.
Proof.
  cbv zeta. split; [vm_compute; reflexivity|].
  eapply restore_invalid_dump_untouched.
  - apply lookup_insert_eq.
  - vm_compute. reflexivity.
Defined.

(** ** Key selection *)

Section KeyStore.

Context `{E : Externals} {I : Install}.

Lemma strip_nil : strip [] = [].
Proof. reflexivity. Qed.

Lemma Fernet_new_pure (key : bytes) (w : World) :
  Fernet_new key w = ((Fernet_new key w).1, w).
Proof.
  unfold Fernet_new. destruct (urlsafe_b64decode key) as [k|]; [|done].
  by destruct (decide (length k = 32%nat)).
Qed.

Lemma Fernet_new_footprint S Q (key : bytes) :
  preserves (footprint S Q) (Fernet_new key).
Proof. intros w. rewrite Fernet_new_pure. reflexivity. Qed.

Lemma path_exists_run (p : path) (w : World) :
  path_exists p w = (Ok (bool_decide (is_Some (fs w !! p))), w).
Proof. reflexivity. Qed.

(** The salt is read when the salt file is there. *)
Lemma _load_or_create_salt_loads (salt : bytes) (mode : N) (w : World) :
  fs w !! KDF_SALT_FILE = Some (File salt mode) ->
  _load_or_create_salt w = (Ok salt, w).
Proof.
  intros H. unfold _load_or_create_salt.
  rewrite (bind_Ok _ _ _ _ _ (path_exists_run _ _)).
  rewrite bool_decide_true by (rewrite H; eauto).
  by eapply read_file_run.
Qed.

(** Whatever salt the call returns is the one the salt file holds. *)
Lemma _load_or_create_salt_persisted (salt : bytes) (w w1 : World) :
  _load_or_create_salt w = (Ok salt, w1) ->
  exists mode, fs w1 !! KDF_SALT_FILE = Some (File salt mode).
Proof.
  unfold _load_or_create_salt.
  rewrite (bind_Ok _ _ _ _ _ (path_exists_run _ _)).
  case_bool_decide as Hex.
  - unfold read_file.
    destruct (fs w !! KDF_SALT_FILE) as [[data mode|]|] eqn:Hf;
      [|discriminate..]. intros [= <- <-]. eauto.
  - intros H. apply bind_Ok_inv in H as (s & w2 & Hs & H).
    apply bind_Ok_inv in H as ([] & w3 & Hw & H).
    injection H as <- <-. injection Hs as <- <-.
    by apply _write_file_secure_Ok in Hw.
Qed.

Lemma _load_or_create_salt_footprint S Q :
  S KDF_SALT_FILE -> (forall s, Q (EvUrandom s 16)) ->
  preserves (footprint S Q) _load_or_create_salt.
Proof.
  intros HS HQ. unfold _load_or_create_salt.
  apply preserves_bind; [apply _|apply path_exists_footprint|intros e].
  apply preserves_if; [apply read_file_footprint|].
  apply preserves_bind; [apply _|by apply os_urandom_footprint|intros salt].
  apply preserves_bind;
    [apply _|by apply _write_file_secure_footprint|intros _].
  apply preserves_ret; apply _.
Qed.

Lemma _derive_key_from_passphrase_footprint S Q (p : str) :
  S KDF_SALT_FILE -> (forall s, Q (EvUrandom s 16)) ->
  (forall salt password, Q (EvPBKDF2 salt 390000 32 password)) ->
  preserves (footprint S Q) (_derive_key_from_passphrase p).
Proof.
  intros HS HQ1 HQ2. unfold _derive_key_from_passphrase.
  apply preserves_bind;
    [apply _|by apply _load_or_create_salt_footprint|intros salt].
  apply preserves_bind; [apply _|apply encode_utf8_footprint|intros pw].
  apply preserves_bind; [apply _|by apply log_event_footprint|intros _].
  apply preserves_ret; apply _.
Qed.

Lemma _load_or_create_filekey_footprint S Q :
  S SECRET_KEY_FILE -> (forall s, Q (EvUrandom s 32)) -> Q EvGenerateKey ->
  preserves (footprint S Q) _load_or_create_filekey.
Proof.
  intros HS HQ1 HQ2. unfold _load_or_create_filekey.
  apply preserves_bind; [apply _|apply path_exists_footprint|intros e].
  apply preserves_if; [apply read_file_footprint|].
  apply preserves_bind; [apply _| |intros key].
  { unfold Fernet_generate_key.
    apply preserves_bind; [apply _|by apply log_event_footprint|intros _].
    apply preserves_bind; [apply _|by apply os_urandom_footprint|intros k].
    apply preserves_ret; apply _. }
  apply preserves_bind;
    [apply _|by apply _write_file_secure_footprint|intros _].
  apply preserves_ret; apply _.
Qed.

(** The key file is read when it is there. *)
Lemma _load_or_create_filekey_loads (key : bytes) (mode : N) (w : World) :
  fs w !! SECRET_KEY_FILE = Some (File key mode) ->
  _load_or_create_filekey w = (Ok key, w).
Proof.
  intros H. unfold _load_or_create_filekey.
  rewrite (bind_Ok _ _ _ _ _ (path_exists_run _ _)).
  rewrite bool_decide_true by (rewrite H; eauto).
  by eapply read_file_run.
Qed.

(** With no passphrase, or a blank one, [get_cipher] is the key-file
    path. *)
Lemma get_cipher_blank (w : World) :
  blank (environ w !! lit "FINANCE_PASSPHRASE") ->
  get_cipher w = (key ← _load_or_create_filekey; Fernet_new key) w.
Proof.
  intros Hb. unfold get_cipher. rewrite bind_unfold.
  unfold environ_get at 1. cbv beta iota zeta.
  destruct (environ w !! lit "FINANCE_PASSPHRASE") as [p|]; [|reflexivity].
  cbn in Hb. by rewrite decide_True.
Qed.

(** With a passphrase that is not blank, it is the derivation path. *)
Lemma get_cipher_passphrase (p : str) (w : World) :
  environ w !! lit "FINANCE_PASSPHRASE" = Some p -> strip p <> [] ->
  get_cipher w = (key ← _derive_key_from_passphrase p; Fernet_new key) w.
Proof.
  intros Hp Hs. unfold get_cipher. rewrite bind_unfold.
  unfold environ_get at 1. cbv beta iota zeta. rewrite Hp.
  rewrite decide_False by done.
  rewrite decide_False; [reflexivity|]. intros ->. by apply Hs.
Qed.


End KeyStore.


(** ** The order of names *)

Section NameOrder.

Lemma str_compare_refl (a : str) : str_compare a a = Eq.
Proof. induction a as [|x a IH]; [done|]. cbn. now rewrite N.compare_refl. Qed.

Lemma str_compare_eq (a b : str) : str_compare a b = Eq -> a = b.
Proof.
  revert b. induction a as [|x a IH]; intros [|y b]; cbn; try done.
  destruct (N.compare_spec x y) as [->| |]; try done.
  intros H. f_equal. by apply IH.
Qed.

Lemma str_compare_antisym (a b : str) :
  str_compare b a = CompOpp (str_compare a b).
Proof.
  revert b. induction a as [|x a IH]; intros [|y b]; cbn; try done.
  rewrite (N.compare_antisym x y).
  destruct (N.compare x y); cbn; auto.
Qed.

Lemma str_compare_lt_trans (a b c : str) :
  str_compare a b = Lt -> str_compare b c = Lt -> str_compare a c = Lt.
Proof.
  revert b c. induction a as [|x a IH]; intros [|y b] [|z c]; cbn; try done.
  destruct (N.compare_spec x y) as [->|Hxy|Hxy]; try done.
  - destruct (N.compare_spec y z) as [->|Hyz|Hyz]; try done. apply IH.
  - intros _. destruct (N.compare_spec y z) as [->|Hyz|Hyz]; try done.
    + intros _. by rewrite (proj2 (N.compare_lt_iff x z) Hxy).
    + intros _. assert (x < z) as Hxz by lia.
      by rewrite (proj2 (N.compare_lt_iff x z) Hxz).
Qed.

#[global] Instance str_ge_refl : Reflexive str_ge.
Proof. intros a. unfold str_ge. now rewrite str_compare_refl. Qed.

#[global] Instance str_ge_total : Total str_ge.
Proof.
  intros a b. unfold str_ge. rewrite (str_compare_antisym a b).
  destruct (str_compare a b); cbn; [left|right|left]; done.
Qed.

#[global] Instance str_ge_antisym : AntiSymm (=) str_ge.
Proof.
  intros a b. unfold str_ge. rewrite (str_compare_antisym a b).
  destruct (str_compare a b) eqn:H; cbn; try done.
  intros _ _. by apply str_compare_eq.
Qed.

#[global] Instance str_ge_trans : Transitive str_ge.
Proof.
  intros a b c. unfold str_ge. intros Hab Hbc Hac.
  destruct (str_compare b c) eqn:H1; [|done|].
  - apply str_compare_eq in H1 as ->. done.
  - destruct (str_compare a b) eqn:H2; [|done|].
    + apply str_compare_eq in H2 as ->. congruence.
    + assert (str_compare c b = Lt) as H3
        by (rewrite (str_compare_antisym b c), H1; done).
      assert (str_compare b a = Lt) as H4
        by (rewrite (str_compare_antisym a b), H2; done).
      pose proof (str_compare_lt_trans _ _ _ Hac H3) as H5. congruence.
Qed.

Lemma sorted_reverse_Permutation (l : list str) : sorted_reverse l ≡ₚ l.
Proof. apply merge_sort_Permutation. Qed.

Lemma sorted_reverse_sorted (l : list str) :
  StronglySorted str_ge (sorted_reverse l).
Proof. apply StronglySorted_merge_sort; apply _. Qed.

Lemma elem_of_sorted_reverse (l : list str) (x : str) :
  x ∈ sorted_reverse l <-> x ∈ l.
Proof. by rewrite sorted_reverse_Permutation. Qed.

Lemma NoDup_sorted_reverse (l : list str) :
  NoDup l -> NoDup (sorted_reverse l).
Proof. by rewrite sorted_reverse_Permutation. Qed.

(** A list in descending order is what sorting any arrangement of its
    elements gives. *)
Lemma sorted_reverse_unique (l k : list str) :
  StronglySorted str_ge k -> k ≡ₚ l -> sorted_reverse l = k.
Proof.
  intros Hk Hp. apply (StronglySorted_unique str_ge).
  - apply sorted_reverse_sorted.
  - exact Hk.
  - by rewrite sorted_reverse_Permutation.
Qed.

Lemma StronglySorted_take (n : nat) (l : list str) :
  StronglySorted str_ge l -> StronglySorted str_ge (take n l).
Proof.
  intros H. revert n. induction H as [|x l Hl IH Hx]; intros [|n]; cbn;
    try constructor; auto.
  apply Forall_forall. intros y Hy. rewrite Forall_forall in Hx.
  apply Hx. by apply (subseteq_take n l).
Qed.

(** In a descending list, whatever lies beyond the first [n] names is
    below each of the first [n]. *)
Lemma StronglySorted_take_drop (n : nat) (l : list str) (x y : str) :
  StronglySorted str_ge l -> x ∈ take n l -> y ∈ drop n l -> str_ge x y.
Proof.
  intros H Hx Hy. rewrite <- (take_drop n l) in H.
  by eapply (StronglySorted_app_1_elem_of str_ge).
Qed.

Lemma startswith_app (prefix rest : str) : startswith (prefix ++ rest) prefix = true.
Proof.
  induction prefix as [|c p IH]; [by destruct rest|].
  cbn. by rewrite N.eqb_refl.
Qed.

Lemma startswith_inv (f prefix : str) :
  startswith f prefix = true -> exists rest, f = prefix ++ rest.
Proof.
  revert f. induction prefix as [|c p IH]; intros f; [by exists f|].
  destruct f as [|x f]; [done|]. cbn.
  intros [Hx Hp]%andb_true_iff. apply N.eqb_eq in Hx as ->.
  destruct (IH _ Hp) as [rest ->]. by exists rest.
Qed.

End NameOrder.

(** ** The backup folder *)

Section BackupFolder.

Context `{E : Externals} {I : Install}.

Lemma child_name_Some (d p : path) (n : str) :
  child_name d p = Some n <-> p = d ++ [n].
Proof.
  unfold child_name, parent. split.
  - destruct (last p) as [n'|] eqn:Hl; [|done].
    apply last_Some in Hl as [l' ->]. rewrite removelast_last.
    destruct (decide (l' = d)) as [->|]; [|done]. by intros [= ->].
  - intros ->. rewrite last_snoc, removelast_last. by rewrite decide_True.
Qed.

Lemma elem_of_children (d : path) (m : gmap path node) (n : str) :
  n ∈ children d m <-> is_Some (m !! (d ++ [n])).
Proof.
  unfold children. rewrite list_elem_of_omap. split.
  - intros ([p x] & Hin & Hc). apply elem_of_map_to_list in Hin.
    apply child_name_Some in Hc. cbn in Hc. subst p. eauto.
  - intros [x Hx]. exists (d ++ [n], x). split.
    + by apply elem_of_map_to_list.
    + by apply child_name_Some.
Qed.

Lemma NoDup_children (d : path) (m : gmap path node) :
  NoDup (children d m).
Proof.
  unfold children.
  assert (forall l : list (path * node),
            NoDup l.*1 -> NoDup (omap (fun kv => child_name d kv.1) l)) as H.
  { induction l as [|[p x] l IH]; cbn; [constructor|].
    intros [Hp Hl]%NoDup_cons. destruct (child_name d p) as [n|] eqn:Hc; auto.
    apply NoDup_cons. split; [|auto].
    rewrite list_elem_of_omap. intros ([q y] & Hin & Hq).
    apply child_name_Some in Hc, Hq. cbn in Hq. subst p q.
    apply Hp. apply list_elem_of_fmap. by exists (d ++ [n], y). }
  apply H, NoDup_fst_map_to_list.
Qed.

Lemma elem_of_backup_files (prefix f : str) (m : gmap path node) :
  f ∈ backup_files prefix m
  <-> startswith f prefix = true /\ is_Some (m !! (BACKUP_FOLDER ++ [f])).
Proof.
  unfold backup_files.
  by rewrite elem_of_sorted_reverse, list_elem_of_filter, elem_of_children.
Qed.

Lemma NoDup_backup_files (prefix : str) (m : gmap path node) :
  NoDup (backup_files prefix m).
Proof.
  apply NoDup_sorted_reverse, NoDup_filter, NoDup_children.
Qed.

Lemma backup_files_sorted (prefix : str) (m : gmap path node) :
  StronglySorted str_ge (backup_files prefix m).
Proof. apply sorted_reverse_sorted. Qed.

(** The sorted names are a function of the set of names. *)
Lemma backup_files_unique (prefix : str) (m : gmap path node)
    (k : list str) :
  StronglySorted str_ge k -> NoDup k ->
  (forall f, f ∈ k <-> startswith f prefix = true
                       /\ is_Some (m !! (BACKUP_FOLDER ++ [f]))) ->
  backup_files prefix m = k.
Proof.
  intros Hs Hn Hk. apply sorted_reverse_unique; [done|].
  apply NoDup_Permutation; [done|apply NoDup_filter, NoDup_children|].
  intros f. by rewrite Hk, list_elem_of_filter, elem_of_children.
Qed.

Lemma backup_files_ext (prefix : str) (m m' : gmap path node) :
  (forall f, startswith f prefix = true ->
             is_Some (m !! (BACKUP_FOLDER ++ [f]))
             <-> is_Some (m' !! (BACKUP_FOLDER ++ [f]))) ->
  backup_files prefix m = backup_files prefix m'.
Proof.
  intros H. apply backup_files_unique.
  - apply backup_files_sorted.
  - apply NoDup_backup_files.
  - intros f. rewrite elem_of_backup_files. split; intros [? ?];
      (split; [done|by apply H]).
Qed.

Lemma prune_cons (x : str) (l : list str) (m : gmap path node) :
  prune (x :: l) m =
  prune l (match m !! (BACKUP_FOLDER ++ [x]) with
           | Some (File _ _) => delete (BACKUP_FOLDER ++ [x]) m
           | _ => m
           end).
Proof. reflexivity. Qed.

Lemma lookup_prune (victims : list str) (m : gmap path node) (p : path) :
  prune victims m !! p =
  match m !! p with
  | Some (File data mode) =>
      if decide (Exists (fun f => p = BACKUP_FOLDER ++ [f]) victims)
      then None else Some (File data mode)
  | o => o
  end.
Proof.
  revert m. induction victims as [|x l IH]; intros m.
  - cbn. destruct (m !! p) as [[]|]; [|done..].
    by destruct (decide _) as [?%Exists_nil|].
  - rewrite prune_cons, IH.
    destruct (decide (p = BACKUP_FOLDER ++ [x])) as [->|Hne].
    + destruct (m !! (BACKUP_FOLDER ++ [x])) as [[data mode|]|] eqn:Hm.
      * rewrite lookup_delete_eq. rewrite decide_True; [done|].
        by apply Exists_cons_hd.
      * by rewrite Hm.
      * by rewrite Hm.
    + assert ((match m !! (BACKUP_FOLDER ++ [x]) with
               | Some (File _ _) => delete (BACKUP_FOLDER ++ [x]) m
               | _ => m
               end) !! p = m !! p) as ->.
      { destruct (m !! (BACKUP_FOLDER ++ [x])) as [[]|]; try done.
        by apply lookup_delete_ne. }
      destruct (m !! p) as [[data mode|]|]; try done.
      destruct (decide (Exists _ l)) as [H|H].
      * rewrite decide_True; [done|]. by apply Exists_cons_tl.
      * rewrite decide_False; [done|].
        intros [?|?]%Exists_cons; done.
Qed.

Lemma Exists_child (victims : list str) (f : str) :
  Exists (fun g => BACKUP_FOLDER ++ [f] = BACKUP_FOLDER ++ [g]) victims
  <-> f ∈ victims.
Proof.
  rewrite Exists_exists. split.
  - intros (g & Hg & Heq). apply app_inv_head in Heq. by injection Heq as ->.
  - intros H. by exists f.
Qed.

(** With no directory in the way, pruning what lies beyond the first
    [n] names leaves exactly the first [n]. *)
Lemma backup_files_prune (prefix : str) (n : nat) (m : gmap path node) :
  (forall f, startswith f prefix = true ->
             m !! (BACKUP_FOLDER ++ [f]) <> Some Dir) ->
  backup_files prefix (prune (drop n (backup_files prefix m)) m)
  = take n (backup_files prefix m).
Proof.
  intros Hreg. set (files := backup_files prefix m).
  pose proof (NoDup_backup_files prefix m) as Hnd. fold files in Hnd.
  apply backup_files_unique.
  - apply StronglySorted_take, backup_files_sorted.
  - eapply sublist_NoDup; [|apply sublist_take]. done.
  - intros f. rewrite lookup_prune.
    rewrite <- (take_drop n files) in Hnd.
    apply NoDup_app in Hnd as (_ & Hdisj & _). split.
    + intros Hf. assert (f ∈ files) as Hin.
      { rewrite <- (take_drop n files). apply elem_of_app. by left. }
      apply elem_of_backup_files in Hin as [Hp [x Hx]]. split; [done|].
      rewrite Hx. destruct x as [data mode|]; [|eauto].
      rewrite decide_False; [eauto|]. rewrite Exists_child. by apply Hdisj.
    + intros [Hp Hs].
      destruct (m !! (BACKUP_FOLDER ++ [f])) as [[data mode|]|] eqn:Hm.
      * destruct (decide (Exists _ _)) as [|Hne]; [by destruct Hs|].
        rewrite Exists_child in Hne.
        assert (f ∈ files) as Hin
          by (apply elem_of_backup_files; rewrite Hm; eauto).
        rewrite <- (take_drop n files) in Hin.
        apply elem_of_app in Hin as [|]; done.
      * by destruct (Hreg f Hp).
      * by destruct Hs.
Qed.

End BackupFolder.

(** ** Rotation *)

Section Rotation.

Context `{E : Externals} {I : Install}.

#[global] Instance only_removes_refl V : Reflexive (only_removes V).
Proof. intros w p. by left. Qed.

#[global] Instance only_removes_trans V : Transitive (only_removes V).
Proof.
  intros w1 w2 w3 H12 H23 p.
  destruct (H23 p) as [->|[? ?]]; [apply H12|by right].
Qed.

Lemma preserves_for_in (R : World -> World -> Prop)
    `{!Reflexive R} `{!Transitive R} {A} (l : list A) (f : A -> M unit) :
  (forall a, a ∈ l -> preserves R (f a)) -> preserves R (for_ l f).
Proof.
  induction l as [|x l IH]; intros Hf; cbn [for_].
  - by apply preserves_ret.
  - apply preserves_bind; [done|apply Hf; by left|intros _].
    apply IH. intros a Ha. apply Hf. by right.
Qed.

Lemma tick_only_removes V : preserves (only_removes V) tick.
Proof.
  intros w p. left. unfold tick. by destruct (budget w) as [[|n]|].
Qed.

Lemma remove_only_removes (V : path -> Prop) (p : path) :
  V p -> preserves (only_removes V) (remove p).
Proof.
  intros Hp. unfold remove, syscall.
  apply preserves_bind; [apply _|apply tick_only_removes|intros _].
  intros w q. destruct (fs w !! p) as [[data mode|]|] eqn:Hw; cbn;
    [|by left..].
  destruct (decide (q = p)) as [->|Hne].
  - right. by rewrite lookup_delete_eq.
  - left. by apply lookup_delete_ne.
Qed.

Lemma _rotate_backups_unfold (prefix : str) (w : World) :
  _rotate_backups prefix w =
  match fs w !! BACKUP_FOLDER with
  | Some Dir =>
      for_ (drop BACKUP_RETENTION (backup_files prefix (fs w)))
        (fun f => try_except (remove (BACKUP_FOLDER ++ [f]))
                             (fun _ => mret tt)) w
  | Some (File _ _) => (Raise NotADirectoryError, w)
  | None => (Raise FileNotFoundError, w)
  end.
Proof.
  unfold _rotate_backups. rewrite bind_unfold. unfold listdir.
  by destruct (fs w !! BACKUP_FOLDER) as [[]|].
Qed.

(** The loop of [_rotate_backups], left alone: every removal is tried,
    a removal that fails is passed over, and the loop returns. *)
Lemma rotate_loop_run (victims : list str) (w : World) :
  budget w = None ->
  for_ victims (fun f => try_except (remove (BACKUP_FOLDER ++ [f]))
                                    (fun _ => mret tt)) w
  = (Ok tt, with_fs (prune victims (fs w)) w).
Proof.
  revert w. induction victims as [|x l IH]; intros w Hb.
  - cbn. by destruct w.
  - cbn [for_]. rewrite bind_unfold, try_except_unfold.
    unfold remove. rewrite syscall_unbounded by done.
    destruct (fs w !! (BACKUP_FOLDER ++ [x])) as [[data mode|]|] eqn:Hx.
    + rewrite IH by done. by rewrite prune_cons, Hx.
    + cbn -[prune]. rewrite IH by done. by rewrite prune_cons, Hx.
    + cbn -[prune]. rewrite IH by done. by rewrite prune_cons, Hx.
Qed.

Lemma _rotate_backups_run (prefix : str) (w : World) :
  budget w = None -> fs w !! BACKUP_FOLDER = Some Dir ->
  _rotate_backups prefix w
  = (Ok tt,
     with_fs (prune (drop BACKUP_RETENTION (backup_files prefix (fs w)))
                (fs w)) w).
Proof.
  intros Hb Hd. rewrite _rotate_backups_unfold, Hd.
  by apply rotate_loop_run.
Qed.

Lemma _rotate_backups_only_removes (prefix : str) (w : World) :
  only_removes
    (fun p => exists f, p = BACKUP_FOLDER ++ [f]
                /\ f ∈ drop BACKUP_RETENTION (backup_files prefix (fs w)))
    w (_rotate_backups prefix w).2.
Proof.
  set (beyond := drop BACKUP_RETENTION (backup_files prefix (fs w))).
  set (V := fun p => exists f, p = BACKUP_FOLDER ++ [f] /\ f ∈ beyond).
  rewrite _rotate_backups_unfold. fold beyond.
  destruct (fs w !! BACKUP_FOLDER) as [[]|];
    [apply (only_removes_refl V)| |apply (only_removes_refl V)].
  apply (preserves_for_in (only_removes V)); [apply _..|]. intros f Hf.
  apply preserves_try_except; [apply _| |intros _; apply preserves_ret; apply _].
  apply remove_only_removes. unfold V. eauto.
Qed.

Lemma _rotate_backups_footprint S Q (prefix : str) :
  (forall f, startswith f prefix = true -> S (BACKUP_FOLDER ++ [f])) ->
  preserves (footprint S Q) (_rotate_backups prefix).
Proof.
  intros HS w. rewrite _rotate_backups_unfold.
  destruct (fs w !! BACKUP_FOLDER) as [[]|]; [reflexivity| |reflexivity].
  apply preserves_for_in; [apply _..|]. intros f Hf.
  apply preserves_try_except; [apply _| |intros _; apply preserves_ret; apply _].
  apply remove_footprint, HS.
  apply (subseteq_drop _ _) in Hf.
  by apply elem_of_backup_files in Hf as [? _].
Qed.

(** The prefixes of two categories never match the same name. *)
Lemma category_prefixes_apart (t1 t2 : str) (f : str) :
  t1 ∈ categories.*1 -> t2 ∈ categories.*1 -> t1 <> t2 ->
  startswith f (t1 ++ lit "_") = true ->
  startswith f (t2 ++ lit "_") = false.
Proof.
  intros H1 H2 Hne Hf. apply startswith_inv in Hf as [rest ->].
  cbn in H1, H2.
  repeat (apply elem_of_cons in H1 as [->|H1]);
    [| | | |by apply elem_of_nil in H1];
    (repeat (apply elem_of_cons in H2 as [->|H2]);
     [| | | |by apply elem_of_nil in H2]);
    try done; reflexivity.
Qed.

(** C9. However [_rotate_backups prefix] ends, a path either keeps its
    node or is a file of the backup folder that the call has removed,
    whose name starts with [prefix] and lies beyond the retention count in
    the descending order of names.  A name that does not start with
    [prefix] is left as it is; and as no prefix of a category matches a
    name of another, rotating one category leaves the records of the
    others alone. *)
Theorem _rotate_backups_frame (prefix : str) (w : World) :
  let w' := (_rotate_backups prefix w).2 in
  let beyond := drop BACKUP_RETENTION (backup_files prefix (fs w)) in
  (forall p, fs w' !! p = fs w !! p
             \/ (fs w' !! p = None
                 /\ exists f, p = BACKUP_FOLDER ++ [f] /\ f ∈ beyond
                              /\ startswith f prefix = true))
  /\ (forall f, startswith f prefix = false ->
                fs w' !! (BACKUP_FOLDER ++ [f])
                = fs w !! (BACKUP_FOLDER ++ [f]))
  /\ (forall t1 t2 f,
        t1 ∈ categories.*1 -> t2 ∈ categories.*1 -> t1 <> t2 ->
        prefix = t1 ++ lit "_" ->
        startswith f (t2 ++ lit "_") = true ->
        fs w' !! (BACKUP_FOLDER ++ [f]) = fs w !! (BACKUP_FOLDER ++ [f])).
Proof.
  cbv zeta.
  assert (forall p,
    fs (_rotate_backups prefix w).2 !! p = fs w !! p
    \/ (fs (_rotate_backups prefix w).2 !! p = None
        /\ exists f, p = BACKUP_FOLDER ++ [f]
             /\ f ∈ drop BACKUP_RETENTION (backup_files prefix (fs w))
             /\ startswith f prefix = true)) as H.
  { intros p.
    destruct (_rotate_backups_only_removes prefix w p)
      as [?|[Hn (f & -> & Hf)]]; [by left|right].
    split; [done|]. exists f. repeat split; [done|].
    apply (subseteq_drop _ _) in Hf.
    by apply elem_of_backup_files in Hf as [? _]. }
  assert (forall f, startswith f prefix = false ->
            fs (_rotate_backups prefix w).2 !! (BACKUP_FOLDER ++ [f])
            = fs w !! (BACKUP_FOLDER ++ [f])) as H'.
  { intros f Hf. destruct (H (BACKUP_FOLDER ++ [f]))
      as [?|[_ (g & Heq & _ & Hg)]]; [done|].
    apply app_inv_head in Heq. injection Heq as ->. congruence. }
  split; [exact H|]. split; [exact H'|].
  intros t1 t2 f H1 H2 Hne -> Hf. apply H'.
  by apply (category_prefixes_apart t2 t1).
Qed.

End Rotation.

(** ** What the artifact writers touch *)

Section ArtifactFootprints.

Context `{E : Externals} {I : Install} {P : Process}.

(** Two paths of the installation are different. *)
Local Ltac path_neq :=
  let H := fresh in
  intros H;
  unfold BACKUP_FOLDER, CSV_FILE, CSV_ENC, XLSX_ENC, DB_DUMP_ENC, STATE_ENC,
    SECRET_KEY_FILE, KDF_SALT_FILE in H;
  rewrite <- ?app_assoc in H; apply app_inv_head in H;
  vm_compute in H; discriminate H.

Lemma backup_child_not_data (f n : str) :
  BACKUP_FOLDER ++ [f] <> DATA_DIR ++ [n].
Proof. path_neq. Qed.

Lemma backup_child_not_folder (f : str) :
  BACKUP_FOLDER ++ [f] <> BACKUP_FOLDER.
Proof.
  intros H. apply (f_equal length) in H. rewrite length_app in H.
  cbn in H. lia.
Qed.

Lemma parent_backup_child (f : str) : parent (BACKUP_FOLDER ++ [f]) = BACKUP_FOLDER.
Proof. apply removelast_last. Qed.

Lemma sealed_paths_apart :
  DB_DUMP_ENC <> CSV_FILE /\ DB_DUMP_ENC <> CSV_ENC /\ DB_DUMP_ENC <> XLSX_ENC
  /\ CSV_ENC <> XLSX_ENC /\ CSV_ENC <> CSV_FILE /\ XLSX_ENC <> CSV_FILE
  /\ STATE_ENC <> DB_DUMP_ENC /\ STATE_ENC <> CSV_FILE
  /\ STATE_ENC <> CSV_ENC /\ STATE_ENC <> XLSX_ENC
  /\ BACKUP_FOLDER <> DB_DUMP_ENC /\ BACKUP_FOLDER <> CSV_FILE
  /\ BACKUP_FOLDER <> CSV_ENC /\ BACKUP_FOLDER <> XLSX_ENC
  /\ BACKUP_FOLDER <> STATE_ENC.
Proof. repeat split; path_neq. Qed.

Local Ltac fp_step :=
  first
    [ apply preserves_ret; apply _
    | apply preserves_raise; apply _
    | apply preserves_of_option; apply _
    | apply path_exists_footprint
    | apply read_file_footprint
    | apply listdir_footprint
    | apply datetime_now_footprint
    | apply encode_utf8_footprint
    | apply decode_utf8_footprint
    | apply sqlite_connect_footprint
    | apply sqlite_executescript_footprint
    | apply Fernet_encrypt_footprint; done
    | apply Fernet_decrypt_footprint; done
    | apply open_wb_footprint; done
    | apply write_fd_footprint; done
    | apply _write_file_secure_footprint; done
    | apply preserves_bind; [apply _| |intros ?]
    | apply preserves_try_except; [apply _| |intros ?]
    | apply preserves_if ].

Local Ltac fp := repeat fp_step.

Local Abbreviation any := (fun _ : event => True).

Lemma enc_bytes_footprint S (b : bytes) :
  preserves (footprint S any) (enc_bytes b).
Proof. unfold enc_bytes. fp. Qed.

Lemma dec_bytes_footprint S (b : bytes) :
  preserves (footprint S any) (dec_bytes b).
Proof. unfold dec_bytes. fp. Qed.

Lemma dec_text_footprint S (s : option str) :
  preserves (footprint S any) (dec_text s).
Proof.
  unfold dec_text. destruct s as [s|]; [|fp].
  destruct (decide (s = [])); fp.
Qed.

Lemma decrypt_column_footprint S (c : str) (df : DataFrame) :
  preserves (footprint S any) (decrypt_column c df).
Proof.
  unfold decrypt_column.
  apply preserves_bind; [apply _| |intros ?; fp].
  apply preserves_mapM; [apply _..|]. intros x. apply dec_text_footprint.
Qed.

Lemma db_exists_footprint S : preserves (footprint S any) db_exists.
Proof. intros w. reflexivity. Qed.

Lemma rebuild_csv_from_db_footprint (S : path -> Prop) :
  S CSV_FILE -> preserves (footprint S any) rebuild_csv_from_db.
Proof.
  intros HS. unfold rebuild_csv_from_db, to_csv_file.
  apply preserves_bind; [apply _|apply db_exists_footprint|intros e].
  apply preserves_if; [fp|].
  apply preserves_bind; [apply _|fp|intros conn].
  apply preserves_bind; [apply _|fp|intros df].
  apply preserves_bind; [apply _| |intros df'; fp].
  apply preserves_try_except; [apply _| |intros ?; fp].
  apply preserves_if; [|fp].
  apply preserves_bind; [apply _|apply decrypt_column_footprint|intros df1].
  apply preserves_try_except;
    [apply _|apply decrypt_column_footprint|intros ?; fp].
Qed.

Lemma pd_read_csv_footprint S (p : path) :
  preserves (footprint S any) (pd_read_csv p).
Proof. unfold pd_read_csv. fp. Qed.

Lemma rebuild_and_read_footprint (S : path -> Prop) :
  S CSV_FILE -> preserves (footprint S any) rebuild_and_read.
Proof.
  intros HS. unfold rebuild_and_read.
  apply preserves_bind;
    [apply _|by apply rebuild_csv_from_db_footprint|intros _].
  apply preserves_bind; [apply _|fp|intros e].
  apply preserves_if; [apply pd_read_csv_footprint|fp].
Qed.

Lemma persist_csv_and_excel_encrypted_footprint (S : path -> Prop) :
  S CSV_FILE -> S CSV_ENC -> S XLSX_ENC ->
  preserves (footprint S any) persist_csv_and_excel_encrypted.
Proof.
  intros H1 H2 H3. unfold persist_csv_and_excel_encrypted.
  apply preserves_bind; [apply _|fp|intros e].
  apply preserves_bind; [apply _| |intros df].
  { apply preserves_if; [|by apply rebuild_and_read_footprint].
    apply preserves_try_except;
      [apply _|apply pd_read_csv_footprint
      |intros ?; by apply rebuild_and_read_footprint]. }
  apply preserves_bind; [apply _|fp|intros csv].
  apply preserves_bind; [apply _|apply enc_bytes_footprint|intros sealed].
  apply preserves_bind; [apply _|fp|intros _].
  apply preserves_bind; [apply _|fp|intros xlsx].
  apply preserves_bind; [apply _|apply enc_bytes_footprint|intros sealed'].
  fp.
Qed.

Lemma persist_db_dump_footprint (S : path -> Prop) :
  S DB_DUMP_ENC -> preserves (footprint S any) persist_db_dump.
Proof.
  intros HS. unfold persist_db_dump.
  apply preserves_bind; [apply _|fp|intros conn].
  apply preserves_bind; [apply _|fp|intros text].
  apply preserves_bind; [apply _|fp|intros dump].
  apply preserves_bind; [apply _|apply enc_bytes_footprint|intros sealed].
  fp.
Qed.

Lemma startswith_backup_name (tag ts : str) :
  startswith (backup_name tag ts) (tag ++ lit "_") = true.
Proof. unfold backup_name. rewrite app_assoc. apply startswith_app. Qed.

Lemma copy_enc_footprint (S : path -> Prop) (ts : str) (src : path)
    (tag : str) :
  (forall f, startswith f (tag ++ lit "_") = true ->
             S (BACKUP_FOLDER ++ [f])) ->
  preserves (footprint S any) (copy_enc ts src tag).
Proof.
  intros HS. unfold copy_enc.
  apply preserves_bind; [apply _|fp|intros e].
  apply preserves_if; [|fp].
  apply preserves_bind; [apply _| |intros plain].
  { apply preserves_try_except; [apply _| |intros ?; fp].
    apply preserves_bind; [apply _|fp|intros raw].
    apply dec_bytes_footprint. }
  apply preserves_bind; [apply _|apply enc_bytes_footprint|intros sealed].
  apply preserves_bind; [apply _| |intros _].
  - apply _write_file_secure_footprint, HS, startswith_backup_name.
  - by apply _rotate_backups_footprint.
Qed.

End ArtifactFootprints.

(** ** One backup, step by step *)

Section CopyEnc.

Context `{E : Externals} {I : Install} {P : Process}.

Lemma bind_ext {A B} (m : M A) (f g : A -> M B) (w : World) :
  (forall a w1, f a w1 = g a w1) -> (m ≫= f) w = (m ≫= g) w.
Proof.
  intros H. rewrite !bind_unfold. destruct (m w) as [[a|e|] w1]; auto.
Qed.

Lemma bind_ret_r (m : M unit) (w : World) : (m;; mret tt) w = m w.
Proof.
  rewrite bind_unfold. by destruct (m w) as [[[]|e|] w1].
Qed.

Lemma _write_file_secure_Ok_inv (p : path) (data : bytes) (w w' : World) :
  budget w = None -> _write_file_secure p data w = (Ok tt, w') ->
  writable p w /\ w' = with_fs (<[p := File data 384]> (fs w)) w.
Proof.
  intros Hb H.
  assert (writable p w \/ exists e, open_wb p w = (Raise e, w)) as [Hw|[e He]].
  { unfold writable, open_wb. rewrite syscall_unbounded by done.
    destruct (fs w !! p) as [[old mode|]|]; [by left|right; eauto|].
    destruct (fs w !! parent p) as [[]|]; [right; eauto|by left|right; eauto]. }
  - split; [done|]. rewrite _write_file_secure_run in H by done.
    by injection H as <-.
  - unfold _write_file_secure in H.
    rewrite (bind_Raise _ _ _ _ _ He) in H. discriminate H.
Qed.

Lemma _rotate_backups_Ok_inv (prefix : str) (w w' : World) :
  budget w = None -> _rotate_backups prefix w = (Ok tt, w') ->
  fs w !! BACKUP_FOLDER = Some Dir
  /\ w' = with_fs (prune (drop BACKUP_RETENTION
                            (backup_files prefix (fs w))) (fs w)) w.
Proof.
  intros Hb H. destruct (fs w !! BACKUP_FOLDER) as [[]|] eqn:Hd.
  - rewrite _rotate_backups_unfold, Hd in H. discriminate H.
  - split; [done|]. rewrite _rotate_backups_run in H by done.
    by injection H as <-.
  - rewrite _rotate_backups_unfold, Hd in H. discriminate H.
Qed.

(** A category whose sealed artifact is missing is passed over. *)
Lemma copy_enc_absent (ts : str) (src : path) (tag : str) (w : World) :
  fs w !! src = None -> copy_enc ts src tag w = (Ok tt, w).
Proof.
  intros H. unfold copy_enc.
  rewrite (bind_Ok _ _ _ _ _ (path_exists_run _ _)).
  rewrite bool_decide_false; [done|]. rewrite H. by intros [? ?].
Qed.

(** Opening the stored bytes never stops the backup: when they do not
    decrypt they are taken as they are. *)
Lemma copy_enc_plain (src : path) (raw : bytes) (mode : N) (w : World) :
  fs w !! src = Some (File raw mode) ->
  try_except (raw ← read_file src; dec_bytes raw)
             (fun _ => read_file src) w
  = (Ok (backup_plain raw), after_decrypt raw w).
Proof.
  intros H. rewrite try_except_unfold.
  rewrite (bind_Ok _ _ _ _ _ (read_file_run _ _ _ _ H)).
  unfold dec_bytes, backup_plain. rewrite Fernet_decrypt_run.
  destruct (fernet_decrypt (fernet_key CIPHER) raw) as [plain|]; [done|].
  by apply (read_file_run src raw mode).
Qed.

(** With its artifact in place, [copy_enc] seals what [backup_plain]
    gives under a fresh draw of the entropy source, writes the record and
    rotates. *)
Lemma copy_enc_present (ts : str) (src : path) (tag : str) (raw : bytes)
    (mode : N) (w : World) :
  fs w !! src = Some (File raw mode) ->
  copy_enc ts src tag w
  = (_write_file_secure (BACKUP_FOLDER ++ [backup_name tag ts])
       (token_at CIPHER (backup_plain raw) (after_decrypt raw w));;
     _rotate_backups (tag ++ lit "_"))
      (after_encrypt (backup_plain raw) (after_decrypt raw w)).
Proof.
  intros H. unfold copy_enc.
  rewrite (bind_Ok _ _ _ _ _ (path_exists_run _ _)).
  rewrite bool_decide_true by (rewrite H; eauto).
  rewrite (bind_Ok _ _ _ _ _ (copy_enc_plain _ _ _ _ H)).
  unfold enc_bytes.
  by rewrite (bind_Ok _ _ _ _ _ (Fernet_encrypt_run _ _ _)).
Qed.

(** A directory in place of the artifact stops the backup. *)
Lemma copy_enc_directory (ts : str) (src : path) (tag : str) (w : World) :
  fs w !! src = Some Dir ->
  copy_enc ts src tag w = (Raise IsADirectoryError, w).
Proof.
  intros H. unfold copy_enc.
  rewrite (bind_Ok _ _ _ _ _ (path_exists_run _ _)).
  rewrite bool_decide_true by (rewrite H; eauto).
  apply bind_Raise. rewrite try_except_unfold.
  assert (read_file src w = (Raise IsADirectoryError, w)) as Hr
    by (unfold read_file; by rewrite H).
  by rewrite (bind_Raise _ _ _ _ _ Hr).
Qed.

(** All that a returning [copy_enc] can have done. *)
Lemma copy_enc_Ok_inv (ts : str) (src : path) (tag : str) (w w' : World) :
  budget w = None -> copy_enc ts src tag w = (Ok tt, w') ->
  (fs w !! src = None /\ w' = w)
  \/ exists raw mode,
      fs w !! src = Some (File raw mode)
      /\ writable (BACKUP_FOLDER ++ [backup_name tag ts]) w
      /\ fs w !! BACKUP_FOLDER = Some Dir
      /\ let sealed :=
           token_at CIPHER (backup_plain raw) (after_decrypt raw w) in
         let fs1 :=
           <[BACKUP_FOLDER ++ [backup_name tag ts] := File sealed 384]>
             (fs w) in
         w' = with_fs
                (prune (drop BACKUP_RETENTION
                          (backup_files (tag ++ lit "_") fs1)) fs1)
                (after_encrypt (backup_plain raw) (after_decrypt raw w)).
Proof.
  intros Hb H. destruct (fs w !! src) as [[raw mode|]|] eqn:Hs.
  - right. exists raw, mode. split; [done|].
    rewrite (copy_enc_present _ _ _ _ _ _ Hs) in H.
    apply bind_Ok_inv in H as ([] & w3 & Hw & Hr).
    apply _write_file_secure_Ok_inv in Hw as [Hw ->]; [|done].
    apply _rotate_backups_Ok_inv in Hr as [Hd ->]; [|done].
    split; [done|]. split; [|done].
    cbn in Hd. rewrite lookup_insert_ne in Hd; [done|].
    apply backup_child_not_folder.
  - rewrite copy_enc_directory in H by done. discriminate H.
  - left. rewrite copy_enc_absent in H by done. by injection H as <-.
Qed.

(** [backup_all] is the two writers of the artifacts and then
    [copy_enc] on each category in turn. *)
Lemma backup_all_unfold (w : World) :
  backup_all w
  = (persist_db_dump;; persist_csv_and_excel_encrypted;;
     for_ categories (fun c => copy_enc (strftime_ts (clock w)) c.2 c.1)) w.
Proof.
  unfold backup_all. rewrite bind_unfold. unfold datetime_now at 1.
  cbv beta iota zeta.
  apply bind_ext. intros _ w1. apply bind_ext. intros _ w2.
  cbn [for_ categories fst snd].
  apply bind_ext. intros _ w3. apply bind_ext. intros _ w4.
  apply bind_ext. intros _ w5. rewrite bind_ret_r.
  rewrite (bind_Ok _ _ _ _ _ (path_exists_run _ _)).
  case_bool_decide as Hs; [done|].
  rewrite copy_enc_absent; [done|].
  destruct (fs w5 !! STATE_ENC) eqn:Hl; [|done]. destruct Hs. eauto.
Qed.

Lemma for_app {A} (l1 l2 : list A) (f : A -> M unit) (w : World) :
  for_ (l1 ++ l2) f w = (for_ l1 f;; for_ l2 f) w.
Proof.
  revert w. induction l1 as [|x l1 IH]; intros w; cbn [for_ app].
  - done.
  - rewrite !bind_unfold. destruct (f x w) as [[[]|e|] w1]; [|done..].
    rewrite IH. by rewrite bind_unfold.
Qed.

(** A loop that returns went through each of its elements. *)
Lemma for_Ok_split {A} (l1 l2 : list A) (x : A) (f : A -> M unit)
    (w w' : World) :
  for_ (l1 ++ x :: l2) f w = (Ok tt, w') ->
  exists u u', for_ l1 f w = (Ok tt, u) /\ f x u = (Ok tt, u')
               /\ for_ l2 f u' = (Ok tt, w').
Proof.
  rewrite for_app. intros H.
  apply bind_Ok_inv in H as ([] & u & H1 & H).
  cbn [for_] in H. apply bind_Ok_inv in H as ([] & u' & H2 & H3).
  eauto 6.
Qed.

End CopyEnc.

(** ** A whole backup, category by category *)

Section BackupAll.

Context `{E : Externals} {I : Install} {P : Process}.

Local Abbreviation any := (fun _ : event => True).

Lemma enc_bytes_run (b : bytes) (w : World) :
  enc_bytes b w = (Ok (token_at CIPHER b w), after_encrypt b w).
Proof. apply Fernet_encrypt_run. Qed.

(** After [persist_db_dump] the sealed dump is a token of the process
    key. *)
Lemma persist_db_dump_Ok (w w1 : World) :
  persist_db_dump w = (Ok tt, w1) ->
  exists plain v mode,
    fs w1 !! DB_DUMP_ENC = Some (File (token_at CIPHER plain v) mode).
Proof.
  unfold persist_db_dump. intros H.
  apply bind_Ok_inv in H as (conn & u1 & _ & H).
  apply bind_Ok_inv in H as (text & u2 & _ & H).
  apply bind_Ok_inv in H as (dump & u3 & _ & H).
  apply bind_Ok_inv in H as (sealed & u4 & Hs & H).
  rewrite enc_bytes_run in Hs. injection Hs as <- <-.
  apply _write_file_secure_Ok in H as [mode H]. eauto.
Qed.

(** After [persist_csv_and_excel_encrypted] so are the sealed table and
    the sealed workbook. *)
Lemma persist_csv_and_excel_encrypted_Ok (w w1 : World) :
  persist_csv_and_excel_encrypted w = (Ok tt, w1) ->
  (exists plain v mode,
     fs w1 !! CSV_ENC = Some (File (token_at CIPHER plain v) mode))
  /\ (exists plain v mode,
        fs w1 !! XLSX_ENC = Some (File (token_at CIPHER plain v) mode)).
Proof.
  unfold persist_csv_and_excel_encrypted. intros H.
  apply bind_Ok_inv in H as (e & u1 & _ & H).
  apply bind_Ok_inv in H as (df & u2 & _ & H).
  apply bind_Ok_inv in H as (csv & u3 & _ & H).
  apply bind_Ok_inv in H as (sealed & u4 & Hs & H).
  rewrite enc_bytes_run in Hs. injection Hs as <- <-.
  apply bind_Ok_inv in H as ([] & u5 & Hcsv & H).
  apply _write_file_secure_Ok in Hcsv as [mode Hcsv].
  assert (footprint (eq XLSX_ENC) any u5 w1) as (Hfs & _).
  { match type of H with ?c u5 = _ =>
      assert (preserves (footprint (eq XLSX_ENC) any) c) as Hc
    end.
    { apply preserves_bind;
        [apply _|apply preserves_of_option; apply _|intros xlsx].
      apply preserves_bind; [apply _|apply enc_bytes_footprint|intros s].
      by apply _write_file_secure_footprint. }
    specialize (Hc u5). by rewrite H in Hc. }
  split.
  - exists csv, u3, mode. rewrite Hfs; [done|].
    intros Heq. by destruct sealed_paths_apart as (_ & _ & _ & Hne & _).
  - apply bind_Ok_inv in H as (xlsx & u6 & _ & H).
    apply bind_Ok_inv in H as (sealed' & u7 & Hs & H).
    rewrite enc_bytes_run in Hs. injection Hs as <- <-.
    apply _write_file_secure_Ok in H as [mode' H]. eauto.
Qed.

Lemma copy_loop_footprint (l : list (str * path)) (ts : str) :
  preserves
    (footprint
       (fun p => exists c f, c ∈ l /\ p = BACKUP_FOLDER ++ [f]
                   /\ startswith f (c.1 ++ lit "_") = true) any)
    (for_ l (fun c => copy_enc ts c.2 c.1)).
Proof.
  apply preserves_for_in; [apply _..|]. intros c Hc.
  apply copy_enc_footprint. intros f Hf. eauto.
Qed.

Lemma categories_tags_NoDup : NoDup categories.*1.
Proof. apply (bool_decide_unpack _). vm_compute. reflexivity. Qed.

Lemma categories_elem :
  (lit "dbdump", DB_DUMP_ENC) ∈ categories
  /\ (lit "csv", CSV_ENC) ∈ categories
  /\ (lit "excel", XLSX_ENC) ∈ categories
  /\ (lit "state", STATE_ENC) ∈ categories.
Proof. unfold categories. repeat split; repeat first [by left | right]. Qed.

Lemma category_src (tag : str) (src : path) :
  (tag, src) ∈ categories -> exists n, src = DATA_DIR ++ [n].
Proof.
  unfold categories. intros H.
  repeat (apply elem_of_cons in H as [[= -> ->]|H]); [..|by apply elem_of_nil in H];
    eexists; reflexivity.
Qed.

(** The view of one category on a backup that returns: the world [u] in
    which its [copy_enc] starts and the world [u'] in which it ends.  Up
    to [u] and from [u'] on, nothing touches the records of the category
    or its sealed artifact. *)
Lemma backup_all_category (w w' : World) (tag : str) (src : path) :
  budget w = None -> backup_all w = (Ok tt, w') -> (tag, src) ∈ categories ->
  exists u u',
    copy_enc (strftime_ts (clock w)) src tag u = (Ok tt, u')
    /\ budget u = None /\ clock u = clock w
    /\ entropy w <= entropy u /\ entropy u' <= entropy w'
    /\ (forall f, startswith f (tag ++ lit "_") = true ->
                  fs u !! (BACKUP_FOLDER ++ [f])
                  = fs w !! (BACKUP_FOLDER ++ [f])
                  /\ fs w' !! (BACKUP_FOLDER ++ [f])
                     = fs u' !! (BACKUP_FOLDER ++ [f]))
    /\ fs w' !! src = fs u !! src
    /\ (src <> STATE_ENC ->
        exists plain v mode,
          fs u !! src = Some (File (token_at CIPHER plain v) mode)).
Proof.
  intros Hb H Hc. rewrite backup_all_unfold in H.
  apply bind_Ok_inv in H as ([] & w1 & Hdump & H).
  apply bind_Ok_inv in H as ([] & w2 & Hcsv & H).
  pose proof (list_elem_of_split _ _ Hc) as (l1 & l2 & Hl).
  rewrite Hl in H. apply for_Ok_split in H as (u & u' & H1 & Hcopy & H2).
  cbn [fst snd] in Hcopy. exists u, u'. split; [done|].
  pose proof (persist_db_dump_footprint (eq DB_DUMP_ENC) eq_refl w) as F0.
  rewrite Hdump in F0. cbn [snd] in F0.
  pose proof (persist_csv_and_excel_encrypted_footprint
                (fun p => p = CSV_FILE \/ p = CSV_ENC \/ p = XLSX_ENC)
                (or_introl eq_refl) (or_intror (or_introl eq_refl))
                (or_intror (or_intror eq_refl)) w1) as F0'.
  rewrite Hcsv in F0'. cbn [snd] in F0'.
  pose proof (copy_loop_footprint l1 (strftime_ts (clock w)) w2) as F1.
  rewrite H1 in F1. cbn [snd] in F1.
  pose proof (copy_loop_footprint l2 (strftime_ts (clock w)) u') as F2.
  rewrite H2 in F2. cbn [snd] in F2.
  pose proof (copy_enc_footprint
                (fun p => exists f, p = BACKUP_FOLDER ++ [f])
                (strftime_ts (clock w)) src tag
                (fun f _ => ex_intro _ f eq_refl) u) as Fc.
  rewrite Hcopy in Fc. cbn [snd] in Fc.
  destruct F0 as (A0 & _ & C0 & _ & N0 & _ & B0).
  destruct F0' as (A0' & _ & C0' & _ & N0' & _ & B0').
  destruct F1 as (A1 & _ & C1 & _ & N1 & _ & B1).
  destruct F2 as (A2 & _ & C2 & _ & N2 & _ & B2).
  destruct Fc as (Ac & _ & Cc & _ & Nc & _ & Bc).
  pose proof categories_tags_NoDup as Hnd. rewrite Hl in Hnd.
  rewrite fmap_app, fmap_cons in Hnd. cbn [fst] in Hnd.
  apply NoDup_app in Hnd as (_ & Hd1 & [Hd2 _]%NoDup_cons).
  assert (forall c, c ∈ l1 ++ l2 -> c.1 ∈ categories.*1 /\ c.1 <> tag)
    as Hother.
  { intros c Hin. split.
    - apply list_elem_of_fmap. exists c. split; [done|]. rewrite Hl.
      apply elem_of_app in Hin as [|]; apply elem_of_app; [by left|].
      right. by right.
    - intros <-. apply elem_of_app in Hin as [Hin|Hin].
      + apply (Hd1 c.1); [|by left].
        apply list_elem_of_fmap. by exists c.
      + apply Hd2. apply list_elem_of_fmap. by exists c. }
  assert (tag ∈ categories.*1) as Htag.
  { apply list_elem_of_fmap. by exists (tag, src). }
  assert (forall (l : list (str * path)) f,
            l ⊆ l1 ++ l2 -> startswith f (tag ++ lit "_") = true ->
            ~ (exists c g, c ∈ l /\ BACKUP_FOLDER ++ [f] = BACKUP_FOLDER ++ [g]
                           /\ startswith g (c.1 ++ lit "_") = true))
    as Hapart.
  { intros l f Hsub Hf (c & g & Hin & Heq & Hg).
    apply app_inv_head in Heq. injection Heq as <-.
    destruct (Hother c (Hsub _ Hin)) as [Hc1 Hc2].
    rewrite (category_prefixes_apart tag c.1 f) in Hg; done. }
  destruct (category_src _ _ Hc) as [n ->].
  assert (forall (l : list (str * path)),
            ~ (exists c g, c ∈ l /\ DATA_DIR ++ [n] = BACKUP_FOLDER ++ [g]
                           /\ startswith g (c.1 ++ lit "_") = true))
    as Hsrc.
  { intros l (c & g & _ & Heq & _).
    symmetry in Heq. by apply backup_child_not_data in Heq. }
  repeat split.
  - auto.
  - congruence.
  - lia.
  - lia.
  - rewrite A1
      by (apply Hapart; [intros x Hx; apply elem_of_app; by left|done]).
    rewrite A0'. 2:{ intros [Heq|[Heq|Heq]];
                     by apply backup_child_not_data in Heq. }
    apply A0. intros Heq. symmetry in Heq.
    by apply backup_child_not_data in Heq.
  - apply A2. apply Hapart; [intros x Hx; apply elem_of_app; by right|done].
  - rewrite A2 by apply Hsrc. apply Ac. intros [g Heq].
    symmetry in Heq. by apply backup_child_not_data in Heq.
  - intros Hne. rewrite A1 by apply Hsrc.
    destruct sealed_paths_apart
      as (N1' & N2' & N3' & N4' & N5' & N6' & _).
    unfold categories in Hc.
    repeat (apply elem_of_cons in Hc as [[= Ht Hs]|Hc]);
      [..|by apply elem_of_nil in Hc].
    + unfold DB_DUMP_ENC in Hs. apply app_inv_head in Hs.
      injection Hs as Hs. subst n. fold DB_DUMP_ENC.
      apply persist_db_dump_Ok in Hdump as (plain & v & mode & Hd).
      exists plain, v, mode. rewrite A0'; [done|].
      intros [Heq|[Heq|Heq]]; congruence.
    + unfold CSV_ENC in Hs. apply app_inv_head in Hs.
      injection Hs as Hs. subst n. fold CSV_ENC.
      by apply persist_csv_and_excel_encrypted_Ok in Hcsv as [? _].
    + unfold XLSX_ENC in Hs. apply app_inv_head in Hs.
      injection Hs as Hs. subst n. fold XLSX_ENC.
      by apply persist_csv_and_excel_encrypted_Ok in Hcsv as [_ ?].
    + by destruct Hne.
Qed.

End BackupAll.

(** ** What a backup record holds *)

Section Reseal.

Context `{E : Externals} {I : Install} {P : Process}.


End Reseal.



(** ** Failures during a backup *)

Section BackupFailures.

Context `{E : Externals} {I : Install} {P : Process}.

Local Abbreviation any := (fun _ : event => True).

Lemma backup_all_footprint :
  preserves (footprint (fun _ => True) any) backup_all.
Proof.
  intros w. rewrite backup_all_unfold.
  apply preserves_bind;
    [apply _|by apply persist_db_dump_footprint|intros _].
  apply preserves_bind;
    [apply _|by apply persist_csv_and_excel_encrypted_footprint|intros _].
  apply preserves_for_; [apply _..|]. intros c.
  by apply copy_enc_footprint.
Qed.

(** A record that cannot be written stops [copy_enc] with the error of
    the write. *)
Lemma copy_enc_blocked (ts : str) (src : path) (tag : str) (raw : bytes)
    (mode : N) (w : World) :
  budget w = None -> fs w !! src = Some (File raw mode) ->
  ~ writable (BACKUP_FOLDER ++ [backup_name tag ts]) w ->
  exists e,
    copy_enc ts src tag w
    = (Raise e, after_encrypt (backup_plain raw) (after_decrypt raw w)).
Proof.
  intros Hb Hs Hw. rewrite (copy_enc_present _ _ _ _ _ _ Hs).
  set (w2 := after_encrypt _ _). set (out := BACKUP_FOLDER ++ _) in *.
  assert (exists e, open_wb out w2 = (Raise e, w2)) as [e He].
  { unfold writable in Hw. unfold open_wb. rewrite syscall_unbounded by done.
    change (fs w2) with (fs w).
    destruct (fs w !! out) as [[old m|]|]; [by destruct Hw|eauto|].
    destruct (fs w !! parent out) as [[]|]; [eauto|by destruct Hw|eauto]. }
  exists e. apply bind_Raise. unfold _write_file_secure.
  by apply bind_Raise.
Qed.

(** C6, amended. In [backup_all] two failures are absorbed: a record
    that cannot be removed is passed over by the rotation, which returns
    all the same, and a sealed artifact that does not decrypt is backed up
    as it is stored.  Every other failure is raised to the caller at once,
    in the world where it struck, so that the categories that follow are
    not attempted: a failure to regenerate the sealed artifacts, and a
    failure of [copy_enc] on any category, which a record that cannot be
    written brings about.  Nothing is printed in any case. *)
Theorem backup_all_failures (w : World) :
  budget w = None ->
  let ts := strftime_ts (clock w) in
  (forall prefix, fs w !! BACKUP_FOLDER = Some Dir ->
                  (_rotate_backups prefix w).1 = Ok tt)
  /\ (forall src raw mode,
        fs w !! src = Some (File raw mode) ->
        fernet_decrypt (fernet_key CIPHER) raw = None ->
        try_except (raw ← read_file src; dec_bytes raw)
                   (fun _ => read_file src) w
        = (Ok raw, after_decrypt raw w))
  /\ (forall src tag raw mode,
        fs w !! src = Some (File raw mode) ->
        ~ writable (BACKUP_FOLDER ++ [backup_name tag ts]) w ->
        exists e,
          copy_enc ts src tag w
          = (Raise e, after_encrypt (backup_plain raw) (after_decrypt raw w)))
  /\ (forall e u, persist_db_dump w = (Raise e, u) ->
                  backup_all w = (Raise e, u))
  /\ (forall e u u',
        persist_db_dump w = (Ok tt, u) ->
        persist_csv_and_excel_encrypted u = (Raise e, u') ->
        backup_all w = (Raise e, u'))
  /\ (forall l1 c l2 e u u' v v',
        categories = l1 ++ c :: l2 ->
        persist_db_dump w = (Ok tt, u) ->
        persist_csv_and_excel_encrypted u = (Ok tt, u') ->
        for_ l1 (fun c => copy_enc ts c.2 c.1) u' = (Ok tt, v) ->
        copy_enc ts c.2 c.1 v = (Raise e, v') ->
        backup_all w = (Raise e, v'))
  /\ stdout (backup_all w).2 = stdout w.
Proof.
  intros Hb. cbv zeta. repeat split.
  - intros prefix Hd. by rewrite _rotate_backups_run.
  - intros src raw mode Hs Hd. rewrite (copy_enc_plain _ _ _ _ Hs).
    unfold backup_plain. by rewrite Hd.
  - intros src tag raw mode Hs Hw. by eapply copy_enc_blocked.
  - intros e u H. rewrite backup_all_unfold. by apply bind_Raise.
  - intros e u u' H1 H2. rewrite backup_all_unfold.
    rewrite (bind_Ok _ _ _ _ _ H1). by apply bind_Raise.
  - intros l1 c l2 e u u' v v' Hl H1 H2 H3 H4. rewrite backup_all_unfold.
    rewrite (bind_Ok _ _ _ _ _ H1), (bind_Ok _ _ _ _ _ H2).
    rewrite Hl, for_app, (bind_Ok _ _ _ _ _ H3). cbn [for_].
    by apply bind_Raise.
  - by destruct (backup_all_footprint w) as (_ & _ & _ & _ & _ & ? & _).
Qed.

End BackupFailures.

(** C6 as stated fails: a directory sits where the record of the database
    dump is to be written.  [backup_all] raises [IsADirectoryError] to its
    caller; the sealed table is there, yet its category is not attempted, no
    record is made for it; and nothing is printed. *)
Lemma backup_all_failure_propagates :
  let w' := (backup_all Toy.world_blocked).2 in
  (backup_all Toy.world_blocked).1 = Raise IsADirectoryError
  /\ is_Some (fs w' !! CSV_ENC)
  /\ fs w' !! (BACKUP_FOLDER ++ [backup_name (lit "csv") (strftime_ts Toy.noon)])
     = None
  /\ children BACKUP_FOLDER (fs w')
     = [backup_name (lit "dbdump") (strftime_ts Toy.noon)]
  /\ stdout w' = [].
Proof.
  cbv zeta. split; [vm_compute; reflexivity|].
  split; [vm_compute; eauto|]. split; [vm_compute; reflexivity|].
  split; vm_compute; reflexivity.
Qed.

(** C6, amended, at work on the same world: the rotation of the category
    returns although the directory cannot be removed, and the failed write
    ends the backup with nothing printed. *)
Lemma backup_all_failures_witness :
  budget Toy.world_blocked = None
  /\ (_rotate_backups (lit "dbdump_") Toy.world_blocked).1 = Ok tt
  /\ stdout (backup_all Toy.world_blocked).2 = stdout Toy.world_blocked.
Proof.
  split; [reflexivity|].
  destruct (backup_all_failures Toy.world_blocked eq_refl)
    as (Hrot & _ & _ & _ & _ & _ & Hout).
  split; [|exact Hout]. apply Hrot. vm_compute. reflexivity.
Defined.

(** ** Names and timestamps *)

Section Timestamps.

Local Ltac Zify.zify_post_hook ::= Z.to_euclidean_division_equations.

Lemma str_compare_app_common (p a b : str) :
  str_compare (p ++ a) (p ++ b) = str_compare a b.
Proof. induction p as [|c p IH]; [done|]. cbn. by rewrite N.compare_refl. Qed.

(** Two texts that start with blocks of one length compare by the
    blocks first. *)
Lemma str_compare_app_block (a b s1 s2 : str) :
  length a = length b ->
  str_compare (a ++ s1) (b ++ s2)
  = match str_compare a b with
    | Eq => str_compare s1 s2
    | c => c
    end.
Proof.
  revert b. induction a as [|x a IH]; intros [|y b]; cbn; try done.
  intros [= Hl]. destruct (x ?= y); [by apply IH|done..].
Qed.

Lemma zero_pad2_compare (a b : N) :
  a < 100 -> b < 100 -> str_compare (zero_pad2 a) (zero_pad2 b) = (a ?= b).
Proof.
  intros Ha Hb. unfold zero_pad2, digit. cbn [str_compare].
  destruct (N.compare_spec (48 + (a / 10) mod 10) (48 + (b / 10) mod 10));
    destruct (N.compare_spec (48 + a mod 10) (48 + b mod 10));
    destruct (N.compare_spec a b); try reflexivity; exfalso; lia.
Qed.

Lemma zero_pad4_split (a : N) :
  zero_pad4 a = zero_pad2 (a / 100) ++ zero_pad2 (a mod 100).
Proof.
  assert ((a / 1000) mod 10 = (a / 100 / 10) mod 10) as E1 by lia.
  assert ((a / 10) mod 10 = (a mod 100 / 10) mod 10) as E2 by (clear; lia).
  assert (a mod 10 = (a mod 100) mod 10) as E3 by (clear; lia).
  unfold zero_pad4, zero_pad2, digit. cbn [app].
  by rewrite E1, E2, <- E3.
Qed.

Lemma zero_pad4_compare (a b : N) :
  a < 10000 -> b < 10000 ->
  str_compare (zero_pad4 a) (zero_pad4 b) = (a ?= b).
Proof.
  intros Ha Hb. rewrite !zero_pad4_split.
  rewrite str_compare_app_block by done.
  rewrite !zero_pad2_compare by lia.
  destruct (N.compare_spec (a / 100) (b / 100));
    destruct (N.compare_spec (a mod 100) (b mod 100));
    destruct (N.compare_spec a b); try reflexivity; exfalso; lia.
Qed.

Lemma length_strftime_ts (d : datetime) : length (strftime_ts d) = 19%nat.
Proof. reflexivity. Qed.

(** The order of two timestamps as texts is the order of the readings
    they print. *)
Lemma strftime_ts_compare (d1 d2 : datetime) :
  datetime_ok d1 -> datetime_ok d2 ->
  str_compare (strftime_ts d1) (strftime_ts d2)
  = str_compare (datetime_key d1) (datetime_key d2).
Proof.
  intros (Hy1 & Hm1 & Hd1 & HH1 & HM1 & HS1) (Hy2 & Hm2 & Hd2 & HH2 & HM2 & HS2).
  unfold strftime_ts, datetime_key.
  rewrite str_compare_app_block by done.
  rewrite zero_pad4_compare by lia.
  rewrite (str_compare_app_common (lit "-")).
  rewrite str_compare_app_block by done. rewrite zero_pad2_compare by lia.
  rewrite (str_compare_app_common (lit "-")).
  rewrite str_compare_app_block by done. rewrite zero_pad2_compare by lia.
  rewrite (str_compare_app_common (lit "_")).
  rewrite str_compare_app_block by done. rewrite zero_pad2_compare by lia.
  rewrite (str_compare_app_common (lit "-")).
  rewrite str_compare_app_block by done. rewrite zero_pad2_compare by lia.
  rewrite (str_compare_app_common (lit "-")).
  rewrite zero_pad2_compare by lia.
  cbn [str_compare].
  destruct (year d1 ?= year d2); try done.
  destruct (month d1 ?= month d2); try done.
  destruct (day d1 ?= day d2); try done.
  destruct (hour d1 ?= hour d2); try done.
  destruct (minute d1 ?= minute d2); try done.
  by destruct (second d1 ?= second d2).
Qed.

(** The names of two records of one category are in the order of their
    timestamps. *)
Lemma backup_name_compare (tag : str) (d1 d2 : datetime) :
  datetime_ok d1 -> datetime_ok d2 ->
  str_compare (backup_name tag (strftime_ts d1))
              (backup_name tag (strftime_ts d2))
  = str_compare (datetime_key d1) (datetime_key d2).
Proof.
  intros H1 H2. unfold backup_name.
  rewrite !str_compare_app_common.
  rewrite str_compare_app_block by done.
  rewrite strftime_ts_compare by done.
  rewrite str_compare_refl. by destruct (str_compare _ _).
Qed.

(** Two readings that print the same timestamp are the same reading:
    no two records of a category share a timestamp. *)
Lemma backup_name_inj (tag : str) (d1 d2 : datetime) :
  datetime_ok d1 -> datetime_ok d2 ->
  backup_name tag (strftime_ts d1) = backup_name tag (strftime_ts d2) ->
  d1 = d2.
Proof.
  intros H1 H2 Heq.
  pose proof (backup_name_compare tag d1 d2 H1 H2) as Hc.
  rewrite Heq, str_compare_refl in Hc. symmetry in Hc.
  apply str_compare_eq in Hc. injection Hc.
  destruct d1, d2; cbn. congruence.
Qed.

End Timestamps.

(** ** Retention *)

Section Retention.

Context `{E : Externals} {I : Install} {P : Process}.

Lemma elem_of_candidates (tag ts : str) (w : World) (f : str) :
  f ∈ candidates tag ts w <-> f = backup_name tag ts \/ f ∈ records tag w.
Proof.
  unfold candidates.
  by rewrite elem_of_sorted_reverse, elem_of_remove_dups, elem_of_cons.
Qed.

(** The names of a category once the new record is written are its
    candidates. *)
Lemma backup_files_insert_record (tag ts : str) (sealed : bytes)
    (w : World) (m : gmap path node) :
  (forall f, startswith f (tag ++ lit "_") = true ->
             m !! (BACKUP_FOLDER ++ [f]) = fs w !! (BACKUP_FOLDER ++ [f])) ->
  backup_files (tag ++ lit "_")
    (<[BACKUP_FOLDER ++ [backup_name tag ts] := File sealed 384]> m)
  = candidates tag ts w.
Proof.
  intros Hm. apply backup_files_unique.
  - apply sorted_reverse_sorted.
  - apply NoDup_sorted_reverse, NoDup_remove_dups.
  - intros f. rewrite elem_of_candidates. unfold records.
    rewrite elem_of_backup_files.
    destruct (decide (f = backup_name tag ts)) as [->|Hne].
    + rewrite lookup_insert_eq. split; [|by left].
      intros _. split; [apply startswith_backup_name|eauto].
    + rewrite lookup_insert_ne by (intros [= ?]%app_inv_head; done).
      split.
      * intros [?|[Hp Hs]]; [done|]. split; [done|]. by rewrite Hm.
      * intros [Hp Hs]. right. split; [done|]. by rewrite <- Hm.
Qed.


End Retention.


Lemma Toy_fs0_regular (f : str) :
  Toy.fs0 !! (BACKUP_FOLDER ++ [f]) <> Some Dir.
Proof.
  assert (forall p : path, length p <> 4%nat ->
            BACKUP_FOLDER ++ [f] <> p) as Hne.
  { intros p Hp <-. apply Hp. reflexivity. }
  unfold Toy.fs0. rewrite !lookup_insert_ne by (symmetry; by apply Hne).
  by rewrite lookup_empty.
Qed.

Lemma Toy_add_records_regular (names : list str) (m : gmap path node) :
  (forall f, m !! (BACKUP_FOLDER ++ [f]) <> Some Dir) ->
  forall f, Toy.add_records names m !! (BACKUP_FOLDER ++ [f]) <> Some Dir.
Proof.
  intros Hm. induction names as [|n names IH]; intros f; [apply Hm|].
  cbn [Toy.add_records foldr].
  destruct (decide (BACKUP_FOLDER ++ [n] = BACKUP_FOLDER ++ [f])) as [->|Hne].
  - by rewrite lookup_insert_eq.
  - rewrite lookup_insert_ne by done. apply IH.
Qed.


(** C9 at work: rotating the records of the sealed table removes the
    oldest of its twenty-one records and leaves a record of the database
    dump as it is. *)
Lemma _rotate_backups_frame_witness :
  let w :=
    with_fs (<[BACKUP_FOLDER ++ [backup_name (lit "dbdump") (strftime_ts Toy.noon)]
               := File (blit "dump") 384]> (fs (Toy.world_old (lit "csv"))))
      Toy.world0 in
  let w' := (_rotate_backups (lit "csv_") w).2 in
  fs w' !! (BACKUP_FOLDER ++ [backup_name (lit "dbdump") (strftime_ts Toy.noon)])
  = Some (File (blit "dump") 384)
  /\ fs w' !! (BACKUP_FOLDER ++ [backup_name (lit "csv") (strftime_ts (Toy.july 1))])
     = None
  /\ length (records (lit "csv") w') = 20%nat.
Proof.
  cbv zeta. split; [|split; vm_compute; reflexivity].
  match goal with |- fs (_rotate_backups ?p ?w).2 !! _ = _ =>
    destruct (_rotate_backups_frame p w) as (_ & Hframe & _)
  end.
  rewrite Hframe by (vm_compute; reflexivity).
  apply lookup_insert_eq.
Defined.

(** * Further properties of the engine *)

(** ** The key survives a restart *)

Section KeyStability.

Context `{E : Externals} {I : Install}.

(** [Fernet(key)] looks at its argument only. *)
Lemma Fernet_new_any_world (key : bytes) (w w' u : World) (r : outcome Fernet) :
  Fernet_new key w = (r, u) -> Fernet_new key w' = (r, w').
Proof.
  unfold Fernet_new. destruct (urlsafe_b64decode key) as [k|].
  - destruct (decide (length k = 32%nat)); intros [= <- <-]; reflexivity.
  - intros [= <- <-]; reflexivity.
Qed.

(** Whatever key the call returns is the one the key file holds. *)
Lemma _load_or_create_filekey_persisted (key : bytes) (w w1 : World) :
  _load_or_create_filekey w = (Ok key, w1) ->
  exists mode, fs w1 !! SECRET_KEY_FILE = Some (File key mode).
Proof.
  unfold _load_or_create_filekey.
  rewrite (bind_Ok _ _ _ _ _ (path_exists_run _ _)).
  case_bool_decide as Hex.
  - unfold read_file.
    destruct (fs w !! SECRET_KEY_FILE) as [[data mode|]|] eqn:Hf;
      [|discriminate..]. intros [= <- <-]. eauto.
  - intros H. apply bind_Ok_inv in H as (s & w2 & Hs & H).
    apply bind_Ok_inv in H as ([] & w3 & Hw & H).
    injection H as <- <-.
    by apply _write_file_secure_Ok in Hw.
Qed.

Lemma get_cipher_environ (w : World) : environ (get_cipher w).2 = environ w.
Proof.
  assert (preserves (footprint (fun _ => True) (fun _ => True)) get_cipher) as H.
  { unfold get_cipher.
    apply preserves_bind; [apply _|intros u; reflexivity|intros p].
    apply preserves_bind; [apply _| |intros key; apply Fernet_new_footprint].
    destruct p as [p|]; [destruct (decide (strip p = []))|].
    - by apply _load_or_create_filekey_footprint.
    - destruct (decide (p = []));
        [by apply _load_or_create_filekey_footprint
        |by apply _derive_key_from_passphrase_footprint].
    - by apply _load_or_create_filekey_footprint. }
  by destruct (H w) as (_ & _ & _ & ? & _).
Qed.

(** X1. When [get_cipher] has returned a cipher, calling it again in the
    world it left returns the same cipher: the key file, or the salt
    file, that the first call read or created is read back, nothing is
    written and no entropy is drawn. *)
Theorem get_cipher_stable (w w1 : World) (c : Fernet) :
  get_cipher w = (Ok c, w1) ->
  exists w2, get_cipher w1 = (Ok c, w2)
             /\ fs w2 = fs w1 /\ entropy w2 = entropy w1.
Proof.
  intros H. pose proof (get_cipher_environ w) as Henv.
  rewrite H in Henv. cbn [snd] in Henv.
  destruct (environ w !! lit "FINANCE_PASSPHRASE") as [p|] eqn:Hp;
    [destruct (decide (strip p = [])) as [Hs|Hs]|].
  2:{ (* a passphrase *)
    rewrite (get_cipher_passphrase p) in H by done.
    apply bind_Ok_inv in H as (key & u & Hkey & Hnew).
    pose proof (Fernet_new_pure key u) as Hpure. rewrite Hnew in Hpure.
    injection Hpure as Hpure. subst u.
    unfold _derive_key_from_passphrase in Hkey.
    apply bind_Ok_inv in Hkey as (salt & u1 & Hsalt & Hkey).
    apply bind_Ok_inv in Hkey as (password & u2 & Hpw & Hkey).
    unfold encode_utf8 in Hpw.
    destruct (utf8_encode p) as [pw|] eqn:Hpw'; [|discriminate Hpw].
    injection Hpw as <- <-.
    apply bind_Ok_inv in Hkey as ([] & u3 & Hlog & Hkey).
    injection Hlog as <-. injection Hkey as <- <-.
    apply _load_or_create_salt_persisted in Hsalt as [mode Hfile].
    set (w1 := with_trace _ u1) in *.
    exists (with_trace (trace w1 ++ [EvPBKDF2 salt 390000 32 pw]) w1).
    split; [|done].
    rewrite (get_cipher_passphrase p) by (by rewrite ?Henv).
    rewrite bind_unfold. unfold _derive_key_from_passphrase.
    rewrite (bind_Ok _ _ _ _ _ (_load_or_create_salt_loads salt mode w1 Hfile)).
    unfold encode_utf8. rewrite Hpw'.
    change (Fernet_new
              (urlsafe_b64encode (pbkdf2_hmac_sha256 salt 390000 32 pw))
              (with_trace (trace w1 ++ [EvPBKDF2 salt 390000 32 pw]) w1)
            = (Ok c, with_trace (trace w1 ++ [EvPBKDF2 salt 390000 32 pw]) w1)).
    by eapply Fernet_new_any_world. }
  all: (* the key file *)
    rewrite get_cipher_blank in H by (by rewrite Hp);
    apply bind_Ok_inv in H as (key & u & Hkey & Hnew);
    pose proof (Fernet_new_pure key u) as Hpure; rewrite Hnew in Hpure;
    injection Hpure as Hpure; subst u;
    apply _load_or_create_filekey_persisted in Hkey as [mode Hfile];
    exists w1; split; [|done];
    rewrite get_cipher_blank by (by rewrite Henv, Hp);
    by rewrite (bind_Ok _ _ _ _ _ (_load_or_create_filekey_loads key mode w1 Hfile)).
Qed.

End KeyStability.

(** ** A damaged key file *)

Section DamagedKey.

Context `{E : Externals} {I : Install}.

(** X2. With no passphrase in force, a key file that is there but does not
    hold the base64 text of 32 bytes makes [get_cipher] raise
    [ValueError] and leave the world as it is: the damaged key is neither
    replaced nor regenerated. *)
Theorem get_cipher_damaged_key_file (w : World) (key : bytes) (mode : N) :
  blank (environ w !! lit "FINANCE_PASSPHRASE") ->
  fs w !! SECRET_KEY_FILE = Some (File key mode) ->
  (forall k, urlsafe_b64decode key = Some k -> length k <> 32%nat) ->
  get_cipher w = (Raise ValueError, w).
Proof.
  intros Hb Hf Hk. rewrite get_cipher_blank by done.
  rewrite (bind_Ok _ _ _ _ _ (_load_or_create_filekey_loads key mode w Hf)).
  unfold Fernet_new. destruct (urlsafe_b64decode key) as [k|]; [|done].
  by rewrite decide_False by (by apply Hk).
Qed.

End DamagedKey.

(** ** The window before the mode is set *)

Section ModeWindow.

Context `{E : Externals} {I : Install}.

(** X3. [_write_file_secure] restricts the mode only after the content is
    written: a process interrupted after the write and before the
    [chmod] leaves the complete content at the path under the mode the
    file had, and a file that was not there has the creation mode. *)
Theorem _write_file_secure_mode_window (p : path) (data : bytes) (w : World) :
  writable p w -> budget w = Some 2%nat ->
  (_write_file_secure p data w).1 = Killed
  /\ fs (_write_file_secure p data w).2 !! p
     = Some (File data (mode_at p w))
  /\ (fs w !! p = None -> mode_at p w = default_mode).
Proof.
  intros Hw Hb.
  assert (_write_file_secure p data w
          = (Killed, with_fs (<[p := File data (mode_at p w)]> (fs w))
                       (with_budget (Some 0%nat) w))) as ->.
  { unfold _write_file_secure.
    assert (open_wb p w
            = (Ok tt, with_fs (<[p := File [] (mode_at p w)]> (fs w))
                        (with_budget (Some 1%nat) w))) as Hopen.
    { unfold open_wb, syscall. rewrite bind_unfold. unfold tick. rewrite Hb.
      cbn. unfold writable, mode_at in *.
      destruct (fs w !! p) as [[old mode|]|]; [done..|]. now rewrite Hw. }
    rewrite (bind_Ok _ _ _ _ _ Hopen).
    set (w1 := with_fs _ (with_budget (Some 1%nat) w)).
    assert (write_fd p data w1
            = (Ok tt, with_fs (<[p := File data (mode_at p w)]> (fs w))
                        (with_budget (Some 0%nat) w))) as Hwrite.
    { unfold write_fd, syscall. rewrite bind_unfold. unfold tick. cbn.
      rewrite lookup_insert_eq. cbn. by rewrite insert_insert_eq. }
    rewrite (bind_Ok _ _ _ _ _ Hwrite). reflexivity. }
  split; [done|]. split; [cbn; apply lookup_insert_eq|].
  intros Hn. unfold mode_at. by rewrite Hn.
Qed.

End ModeWindow.

(** ** More on the field cipher *)

Section FieldCipherMore.

Context `{E : Externals} {P : Process}.

(** X4. [dec_text] never raises.  What it returns is the stored string
    itself or the text its bytes decrypt to; bytes that decrypt to
    something that is no UTF-8 give the stored string back. *)
Theorem dec_text_result (s : str) (w : World) :
  exists t w',
    dec_text (Some s) w = (Ok t, w')
    /\ fs w' = fs w /\ db w' = db w /\ entropy w' = entropy w
    /\ (t = s
        \/ exists b plain,
             utf8_encode s = Some b
             /\ fernet_decrypt (fernet_key CIPHER) b = Some plain
             /\ utf8_decode plain = Some t)
    /\ (forall b plain,
          utf8_encode s = Some b ->
          fernet_decrypt (fernet_key CIPHER) b = Some plain ->
          utf8_decode plain = None -> t = s).
Proof.
  destruct (decide (s = [])) as [->|Hs].
  { exists [], w. do 4 (split; [done|]). split; [by left|done]. }
  rewrite dec_text_nonempty by done.
  destruct (utf8_encode s) as [b|] eqn:Hb.
  2:{ exists s, w. do 4 (split; [done|]). split; [by left|done]. }
  cbv zeta.
  destruct (fernet_decrypt (fernet_key CIPHER) b) as [plain|] eqn:Hd.
  2:{ eexists s, _. do 4 (split; [done|]). split; [by left|done]. }
  destruct (utf8_decode plain) as [t|] eqn:Ht.
  - eexists t, _. do 4 (split; [done|]). split; [right; eauto|].
    intros b' plain' [= <-] Hd' Ht'. rewrite Hd in Hd'.
    injection Hd' as <-. congruence.
  - eexists s, _. do 4 (split; [done|]). split; [by left|done].
Qed.

Context {F : FernetSpec E}.

(** X5. What [enc_text] returns is empty exactly when the field is absent
    or empty: a field that holds text never encrypts to the empty string,
    and its ciphertext is ASCII. *)
Theorem enc_text_empty_iff (s : option str) (w w' : World) (c : str) :
  enc_text s w = (Ok c, w') ->
  (c = [] <-> s = None \/ s = Some []) /\ Forall (fun x => x < 0x80) c.
Proof.
  intros H. destruct s as [s|].
  2:{ injection H as <- <-. split; [|constructor]. split; auto. }
  destruct (decide (s = [])) as [->|Hs].
  { injection H as <- <-. split; [|constructor]. split; auto. }
  rewrite enc_text_nonempty in H by done.
  destruct (utf8_encode s) as [b|]; [|discriminate H].
  pose proof (fernet_token_ascii (fernet_key CIPHER) (urandom (entropy w) 16)
                (posix_time (clock w)) b) as Hascii.
  fold (token_at CIPHER b w) in Hascii.
  rewrite (utf8_decode_ascii _ Hascii) in H. injection H as <- <-.
  split.
  - split.
    + intros Hnil. apply fmap_nil_inv in Hnil.
      by apply (fernet_token_nonempty (fernet_key CIPHER)
                  (urandom (entropy w) 16) (posix_time (clock w)) b) in Hnil.
    + intros [|[= ->]]; done.
  - apply Forall_fmap. eapply Forall_impl; [exact Hascii|]. by intros x.
Qed.

End FieldCipherMore.

(** ** Which exceptions a computation can raise *)

Section RaisesOnly.

Context `{E : Externals}.

Lemma raises_only_weaken (X Y : exn -> Prop) {A} (m : M A) :
  (forall e, X e -> Y e) -> raises_only X m -> raises_only Y m.
Proof. intros HXY H w e w' Hr. eauto. Qed.

Section Combinators.

Context (X : exn -> Prop).

Lemma raises_only_ret {A} (a : A) : raises_only X (mret a).
Proof. intros w e w' [=]. Qed.

Lemma raises_only_raise {A} (e : exn) : X e -> raises_only X (@raise _ A e).
Proof. intros He w e' w' [= <- <-]. done. Qed.

Lemma raises_only_bind {A B} (m : M A) (f : A -> M B) :
  raises_only X m -> (forall a, raises_only X (f a)) ->
  raises_only X (m ≫= f).
Proof.
  intros Hm Hf w e w'. rewrite bind_unfold.
  destruct (m w) as [[a|e1|] w1] eqn:Hr.
  - apply Hf.
  - intros [= <- <-]. eauto.
  - discriminate.
Qed.

(** A handler stands for the block it guards. *)
Lemma raises_only_try_except {A} (m : M A) (h : exn -> M A) :
  (forall e, raises_only X (h e)) -> raises_only X (try_except m h).
Proof.
  intros Hh w e w'. rewrite try_except_unfold.
  destruct (m w) as [[a|e1|] w1]; [discriminate|apply Hh|discriminate].
Qed.

Lemma raises_only_if {A} (b : bool) (m1 m2 : M A) :
  raises_only X m1 -> raises_only X m2 ->
  raises_only X (if b then m1 else m2).
Proof. by destruct b. Qed.

Lemma raises_only_of_option {A} (e : exn) (o : option A) :
  X e -> raises_only X (of_option e o).
Proof. destruct o; [intros _; apply raises_only_ret|apply raises_only_raise]. Qed.

Lemma raises_only_for_ {A} (l : list A) (f : A -> M unit) :
  (forall a, raises_only X (f a)) -> raises_only X (for_ l f).
Proof.
  intros Hf. induction l as [|x l IH]; cbn [for_].
  - apply raises_only_ret.
  - apply raises_only_bind; auto.
Qed.

Lemma raises_only_mapM {A B} (f : A -> M B) (l : list A) :
  (forall a, raises_only X (f a)) -> raises_only X (mapM f l).
Proof.
  intros Hf. induction l as [|x l IH]; cbn [mapM].
  - apply raises_only_ret.
  - apply raises_only_bind; [auto|]. intros y.
    apply raises_only_bind; [auto|]. intros ys. apply raises_only_ret.
Qed.

(** A call that always returns. *)
Lemma raises_only_total {A} (f : World -> A) (g : World -> World) :
  raises_only X (fun w => (Ok (f w), g w)).
Proof. intros w e w' [=]. Qed.

Lemma tick_raises_only : raises_only X tick.
Proof.
  intros w e w'. unfold tick. by destruct (budget w) as [[|n]|].
Qed.

Lemma syscall_raises_only {A} (m : M A) :
  raises_only X m -> raises_only X (syscall m).
Proof. intros H. apply raises_only_bind; [apply tick_raises_only|done]. Qed.

Lemma Fernet_encrypt_raises_only (c : Fernet) (data : bytes) :
  raises_only X (Fernet_encrypt c data).
Proof. intros w e w'. by rewrite Fernet_encrypt_run. Qed.

Lemma Fernet_decrypt_raises_only (c : Fernet) (token : bytes) :
  X InvalidToken -> raises_only X (Fernet_decrypt c token).
Proof.
  intros HX w e w'. rewrite Fernet_decrypt_run.
  destruct (fernet_decrypt _ _); [discriminate|]. by intros [= <- <-].
Qed.

Lemma sqlite_connect_raises_only : raises_only X sqlite_connect.
Proof. intros w e w'. unfold sqlite_connect. by destruct (db w). Qed.

Context (HX : forall e, is_os_error e -> X e).

Lemma read_file_raises_only (p : path) : raises_only X (read_file p).
Proof.
  intros w e w'. unfold read_file.
  destruct (fs w !! p) as [[]|]; [discriminate|intros [= <- <-]..];
    apply HX; unfold is_os_error; auto.
Qed.

Lemma open_wb_raises_only (p : path) : raises_only X (open_wb p).
Proof.
  apply syscall_raises_only. intros w e w'.
  destruct (fs w !! p) as [[]|]; [discriminate|intros [= <- <-]|].
  - apply HX; unfold is_os_error; auto.
  - destruct (fs w !! parent p) as [[]|];
      [intros [= <- <-]|discriminate|intros [= <- <-]];
      apply HX; unfold is_os_error; auto.
Qed.

Lemma write_fd_raises_only (p : path) (data : bytes) :
  raises_only X (write_fd p data).
Proof.
  apply syscall_raises_only. intros w e w'.
  destruct (fs w !! p) as [[]|]; [discriminate|intros [= <- <-]..];
    apply HX; unfold is_os_error; auto.
Qed.

Lemma remove_raises_only (p : path) : raises_only X (remove p).
Proof.
  apply syscall_raises_only. intros w e w'.
  destruct (fs w !! p) as [[]|]; [discriminate|intros [= <- <-]..];
    apply HX; unfold is_os_error; auto.
Qed.

Lemma listdir_raises_only (d : path) : raises_only X (listdir d).
Proof.
  intros w e w'. unfold listdir.
  destruct (fs w !! d) as [[]|]; [intros [= <- <-]|discriminate|intros [= <- <-]];
    apply HX; unfold is_os_error; auto.
Qed.

End Combinators.

Context {I : Install}.

(** The [chmod] of [_write_file_secure] is guarded: only the open and
    the write can raise. *)
Lemma _write_file_secure_raises_only (p : path) (data : bytes) :
  raises_only is_os_error (_write_file_secure p data).
Proof.
  unfold _write_file_secure.
  apply raises_only_bind; [by apply open_wb_raises_only|intros _].
  apply raises_only_bind; [by apply write_fd_raises_only|intros _].
  apply raises_only_try_except. intros _. apply raises_only_ret.
Qed.

Context {P : Process}.

(** [dec_text] never raises. *)
Lemma dec_text_raises_only (X : exn -> Prop) (s : option str) :
  raises_only X (dec_text s).
Proof.
  intros w e w'. destruct (dec_text_total s w) as (t & u & ->). discriminate.
Qed.

Lemma decrypt_column_raises_only (X : exn -> Prop) (c : str) (df : DataFrame) :
  raises_only X (decrypt_column c df).
Proof.
  unfold decrypt_column. apply raises_only_bind.
  - apply raises_only_mapM. intros x. apply dec_text_raises_only.
  - intros values. apply raises_only_ret.
Qed.

(** What can stop the rebuilding of the plaintext table: the query, the
    encoding of the text, the file system. *)
Lemma rebuild_csv_from_db_raises_only (X : exn -> Prop) :
  (forall e, is_os_error e -> X e) -> X DatabaseError -> X UnicodeEncodeError ->
  raises_only X rebuild_csv_from_db.
Proof.
  intros H1 H2 H3. unfold rebuild_csv_from_db, to_csv_file.
  apply raises_only_bind; [apply (raises_only_total X (fun w => bool_decide (is_Some (db w))) id)|intros e].
  apply raises_only_if; [apply raises_only_ret|].
  apply raises_only_bind; [apply sqlite_connect_raises_only|intros conn].
  apply raises_only_bind; [by apply raises_only_of_option|intros df].
  apply raises_only_bind.
  { apply raises_only_try_except. intros _. apply raises_only_ret. }
  intros df'.
  apply raises_only_bind; [by apply open_wb_raises_only|intros _].
  apply raises_only_bind; [by apply raises_only_of_option|intros b].
  by apply write_fd_raises_only.
Qed.

Lemma pd_read_csv_raises_only (X : exn -> Prop) (p : path) :
  (forall e, is_os_error e -> X e) -> X ParserError ->
  raises_only X (pd_read_csv p).
Proof.
  intros H1 H2. unfold pd_read_csv.
  apply raises_only_bind; [by apply read_file_raises_only|intros b].
  by apply raises_only_of_option.
Qed.

Lemma rebuild_and_read_raises_only (X : exn -> Prop) :
  (forall e, is_os_error e -> X e) -> X DatabaseError -> X UnicodeEncodeError ->
  X ParserError -> raises_only X rebuild_and_read.
Proof.
  intros H1 H2 H3 H4. unfold rebuild_and_read.
  apply raises_only_bind; [by apply rebuild_csv_from_db_raises_only|intros _].
  apply raises_only_bind;
    [apply (raises_only_total X (fun w => bool_decide (is_Some (fs w !! CSV_FILE))) id)
    |intros e].
  apply raises_only_if; [by apply pd_read_csv_raises_only|apply raises_only_ret].
Qed.

End RaisesOnly.

(** ** What leaves the database alone *)

Section SameDb.

Context `{E : Externals}.

#[global] Instance same_db_refl : Reflexive same_db.
Proof. by intros w. Qed.

#[global] Instance same_db_trans : Transitive same_db.
Proof. unfold same_db. intros w1 w2 w3 H1 H2. congruence. Qed.

Lemma tick_same_db : preserves same_db tick.
Proof. intros w. unfold tick. by destruct (budget w) as [[|n]|]. Qed.

Lemma syscall_same_db {A} (m : M A) :
  preserves same_db m -> preserves same_db (syscall m).
Proof. intros H. apply preserves_bind; [apply _|apply tick_same_db|done]. Qed.

Lemma open_wb_same_db (p : path) : preserves same_db (open_wb p).
Proof.
  apply syscall_same_db. intros w. cbn.
  destruct (fs w !! p) as [[]|]; try done.
  by destruct (fs w !! parent p) as [[]|].
Qed.

Lemma write_fd_same_db (p : path) (data : bytes) :
  preserves same_db (write_fd p data).
Proof.
  apply syscall_same_db. intros w. cbn. by destruct (fs w !! p) as [[]|].
Qed.

Lemma chmod_same_db (p : path) (mode : N) : preserves same_db (chmod p mode).
Proof.
  apply syscall_same_db. intros w. cbn. by destruct (fs w !! p) as [[]|].
Qed.

Lemma remove_same_db (p : path) : preserves same_db (remove p).
Proof.
  apply syscall_same_db. intros w. cbn. by destruct (fs w !! p) as [[]|].
Qed.

Lemma read_file_same_db (p : path) : preserves same_db (read_file p).
Proof. intros w. unfold read_file. by destruct (fs w !! p) as [[]|]. Qed.

Lemma listdir_same_db (d : path) : preserves same_db (listdir d).
Proof. intros w. unfold listdir. by destruct (fs w !! d) as [[]|]. Qed.

Lemma Fernet_encrypt_same_db (c : Fernet) (data : bytes) :
  preserves same_db (Fernet_encrypt c data).
Proof. intros w. by rewrite Fernet_encrypt_run. Qed.

Lemma Fernet_decrypt_same_db (c : Fernet) (token : bytes) :
  preserves same_db (Fernet_decrypt c token).
Proof. intros w. by rewrite Fernet_decrypt_run. Qed.

(** A step of a proof that a computation leaves the database alone. *)
Ltac same_db_step :=
  first
    [ apply preserves_ret; apply _
    | apply preserves_raise; apply _
    | apply preserves_of_option; apply _
    | apply read_file_same_db
    | apply listdir_same_db
    | apply open_wb_same_db
    | apply write_fd_same_db
    | apply chmod_same_db
    | apply remove_same_db
    | apply Fernet_encrypt_same_db
    | apply Fernet_decrypt_same_db
    | apply preserves_bind; [apply _| |intros ?]
    | apply preserves_try_except; [apply _| |intros ?]
    | apply preserves_if
    | (intros ?; reflexivity) ].

Context {I : Install}.

Lemma _write_file_secure_same_db (p : path) (data : bytes) :
  preserves same_db (_write_file_secure p data).
Proof. unfold _write_file_secure. repeat same_db_step. Qed.

Context {P : Process}.

Lemma dec_text_same_db (s : option str) : preserves same_db (dec_text s).
Proof.
  unfold dec_text, encode_utf8, decode_utf8. destruct s as [s|]; [|repeat same_db_step].
  destruct (decide (s = [])); repeat same_db_step.
Qed.

Lemma decrypt_column_same_db (c : str) (df : DataFrame) :
  preserves same_db (decrypt_column c df).
Proof.
  unfold decrypt_column.
  apply preserves_bind; [apply _| |intros ?; repeat same_db_step].
  apply preserves_mapM; [apply _..|]. intros x. apply dec_text_same_db.
Qed.

(** The database is consulted only when it is there, so that connecting
    never creates it. *)
Lemma rebuild_csv_from_db_same_db : preserves same_db rebuild_csv_from_db.
Proof.
  intros w. unfold rebuild_csv_from_db. rewrite bind_unfold.
  unfold db_exists at 1. cbv beta iota.
  destruct (db w) as [d|] eqn:Hd.
  2:{ rewrite bool_decide_false by (by intros [? ?]). reflexivity. }
  rewrite bool_decide_true by eauto. cbn [negb].
  assert (sqlite_connect w = (Ok d, w)) as Hc
    by (unfold sqlite_connect; by rewrite Hd).
  rewrite (bind_Ok _ _ _ _ _ Hc).
  match goal with |- same_db w (?m w).2 =>
    assert (preserves same_db m) as Hm
  end.
  { unfold to_csv_file, encode_utf8.
    apply preserves_bind; [apply _|repeat same_db_step|intros df].
    apply preserves_bind; [apply _| |intros df'; repeat same_db_step].
    apply preserves_try_except; [apply _| |intros ?; repeat same_db_step].
    apply preserves_if; [|repeat same_db_step].
    apply preserves_bind; [apply _|apply decrypt_column_same_db|intros df1].
    apply preserves_try_except;
      [apply _|apply decrypt_column_same_db|intros ?; repeat same_db_step]. }
  apply Hm.
Qed.

Lemma pd_read_csv_same_db (p : path) : preserves same_db (pd_read_csv p).
Proof. unfold pd_read_csv. repeat same_db_step. Qed.

Lemma rebuild_and_read_same_db : preserves same_db rebuild_and_read.
Proof.
  unfold rebuild_and_read.
  apply preserves_bind; [apply _|apply rebuild_csv_from_db_same_db|intros _].
  apply preserves_bind; [apply _|intros w; reflexivity|intros e].
  apply preserves_if; [apply pd_read_csv_same_db|repeat same_db_step].
Qed.

Lemma persist_csv_and_excel_encrypted_same_db :
  preserves same_db persist_csv_and_excel_encrypted.
Proof.
  unfold persist_csv_and_excel_encrypted, enc_bytes, encode_utf8.
  apply preserves_bind; [apply _|intros w; reflexivity|intros e].
  apply preserves_bind; [apply _| |intros df].
  { apply preserves_if; [|apply rebuild_and_read_same_db].
    apply preserves_try_except;
      [apply _|apply pd_read_csv_same_db
      |intros ?; apply rebuild_and_read_same_db]. }
  apply preserves_bind; [apply _|repeat same_db_step|intros csv].
  apply preserves_bind; [apply _|repeat same_db_step|intros sealed].
  apply preserves_bind; [apply _|apply _write_file_secure_same_db|intros _].
  apply preserves_bind; [apply _|repeat same_db_step|intros xlsx].
  apply preserves_bind; [apply _|repeat same_db_step|intros sealed'].
  apply _write_file_secure_same_db.
Qed.

Lemma decrypt_artifact_same_db (enc_path out_path : path) :
  preserves same_db (decrypt_artifact enc_path out_path).
Proof. unfold decrypt_artifact, dec_bytes. repeat same_db_step. Qed.

End SameDb.

(** ** Which library calls the artifact writers make *)

Section CipherFootprints.

Context `{E : Externals} {I : Install} {P : Process}.

Ltac cipher_call := intros; first [exact Logic.I | exact eq_refl].

Ltac fp_step :=
  first
    [ apply preserves_ret; apply _
    | apply preserves_raise; apply _
    | apply preserves_of_option; apply _
    | apply path_exists_footprint
    | apply read_file_footprint
    | apply listdir_footprint
    | apply datetime_now_footprint
    | apply encode_utf8_footprint
    | apply decode_utf8_footprint
    | apply sqlite_connect_footprint
    | apply sqlite_executescript_footprint
    | apply Fernet_encrypt_footprint; cipher_call
    | apply Fernet_decrypt_footprint; cipher_call
    | apply open_wb_footprint; done
    | apply write_fd_footprint; done
    | apply remove_footprint; done
    | apply _write_file_secure_footprint; done
    | apply preserves_bind; [apply _| |intros ?]
    | apply preserves_try_except; [apply _| |intros ?]
    | apply preserves_if ].

Ltac fp := repeat fp_step.

Context (S : path -> Prop).

Lemma dec_bytes_decrypts (b : bytes) :
  preserves (footprint S is_decrypt_call) (dec_bytes b).
Proof. unfold dec_bytes. fp. Qed.

Lemma dec_text_decrypts (s : option str) :
  preserves (footprint S is_decrypt_call) (dec_text s).
Proof.
  unfold dec_text. destruct s as [s|]; [|fp].
  destruct (decide (s = [])); fp.
Qed.

Lemma decrypt_column_decrypts (c : str) (df : DataFrame) :
  preserves (footprint S is_decrypt_call) (decrypt_column c df).
Proof.
  unfold decrypt_column.
  apply preserves_bind; [apply _| |intros ?; fp].
  apply preserves_mapM; [apply _..|]. intros x. apply dec_text_decrypts.
Qed.

Lemma rebuild_csv_from_db_decrypts :
  S CSV_FILE -> preserves (footprint S is_decrypt_call) rebuild_csv_from_db.
Proof.
  intros HS. unfold rebuild_csv_from_db, to_csv_file.
  apply preserves_bind; [apply _|intros w; reflexivity|intros e].
  apply preserves_if; [fp|].
  apply preserves_bind; [apply _|fp|intros conn].
  apply preserves_bind; [apply _|fp|intros df].
  apply preserves_bind; [apply _| |intros df'; fp].
  apply preserves_try_except; [apply _| |intros ?; fp].
  apply preserves_if; [|fp].
  apply preserves_bind; [apply _|apply decrypt_column_decrypts|intros df1].
  apply preserves_try_except;
    [apply _|apply decrypt_column_decrypts|intros ?; fp].
Qed.

Lemma pd_read_csv_decrypts (p : path) :
  preserves (footprint S is_decrypt_call) (pd_read_csv p).
Proof. unfold pd_read_csv. fp. Qed.

Lemma rebuild_and_read_decrypts :
  S CSV_FILE -> preserves (footprint S is_decrypt_call) rebuild_and_read.
Proof.
  intros HS. unfold rebuild_and_read.
  apply preserves_bind;
    [apply _|by apply rebuild_csv_from_db_decrypts|intros _].
  apply preserves_bind; [apply _|fp|intros e].
  apply preserves_if; [apply pd_read_csv_decrypts|fp].
Qed.

Lemma decrypt_is_cipher_call (e : event) : is_decrypt_call e -> is_cipher_call e.
Proof. by destruct e. Qed.

Lemma enc_bytes_seals (b : bytes) :
  preserves (footprint S is_cipher_call) (enc_bytes b).
Proof. unfold enc_bytes. fp. Qed.

Lemma persist_csv_and_excel_encrypted_seals :
  S CSV_FILE -> S CSV_ENC -> S XLSX_ENC ->
  preserves (footprint S is_cipher_call) persist_csv_and_excel_encrypted.
Proof.
  intros H1 H2 H3. unfold persist_csv_and_excel_encrypted.
  assert (preserves (footprint S is_cipher_call) rebuild_and_read) as Hr.
  { eapply preserves_weaken; [|apply decrypt_is_cipher_call
                              |by apply rebuild_and_read_decrypts]. done. }
  apply preserves_bind; [apply _|fp|intros e].
  apply preserves_bind; [apply _| |intros df].
  { apply preserves_if; [|done].
    apply preserves_try_except; [apply _| |intros ?; done].
    eapply preserves_weaken; [|apply decrypt_is_cipher_call
                              |apply pd_read_csv_decrypts]. done. }
  apply preserves_bind; [apply _|fp|intros csv].
  apply preserves_bind; [apply _|apply enc_bytes_seals|intros sealed].
  apply preserves_bind; [apply _|fp|intros _].
  apply preserves_bind; [apply _|fp|intros xlsx].
  apply preserves_bind; [apply _|apply enc_bytes_seals|intros sealed'].
  fp.
Qed.

Lemma persist_db_dump_seals :
  S DB_DUMP_ENC -> preserves (footprint S is_cipher_call) persist_db_dump.
Proof.
  intros HS. unfold persist_db_dump.
  apply preserves_bind; [apply _|fp|intros conn].
  apply preserves_bind; [apply _|fp|intros text].
  apply preserves_bind; [apply _|fp|intros dump].
  apply preserves_bind; [apply _|apply enc_bytes_seals|intros sealed].
  fp.
Qed.

Lemma copy_enc_seals (ts : str) (src : path) (tag : str) :
  (forall f, startswith f (tag ++ lit "_") = true ->
             S (BACKUP_FOLDER ++ [f])) ->
  preserves (footprint S is_cipher_call) (copy_enc ts src tag).
Proof.
  intros HS. unfold copy_enc.
  apply preserves_bind; [apply _|fp|intros e].
  apply preserves_if; [|fp].
  apply preserves_bind; [apply _| |intros plain].
  { apply preserves_try_except; [apply _| |intros ?; fp].
    apply preserves_bind; [apply _|fp|intros raw].
    unfold dec_bytes. fp. }
  apply preserves_bind; [apply _|apply enc_bytes_seals|intros sealed].
  apply preserves_bind; [apply _| |intros _].
  - apply _write_file_secure_footprint, HS, startswith_backup_name.
  - by apply _rotate_backups_footprint.
Qed.

Lemma decrypt_artifact_decrypts (enc_path out_path : path) :
  S out_path ->
  preserves (footprint S is_decrypt_call) (decrypt_artifact enc_path out_path).
Proof. intros HS. unfold decrypt_artifact, dec_bytes. fp. Qed.

End CipherFootprints.

(** ** Opening a sealed artifact *)

Section DecryptArtifact.

Context `{E : Externals} {I : Install} {P : Process}.

Lemma dec_bytes_run (blob plain : bytes) (w : World) :
  fernet_decrypt (fernet_key CIPHER) blob = Some plain ->
  dec_bytes blob w = (Ok plain, after_decrypt blob w).
Proof. intros Hd. unfold dec_bytes. by rewrite Fernet_decrypt_run, Hd. Qed.

(** Left alone, on a sealed file that opens, [decrypt_artifact] puts the
    plaintext at the output path and does not set the mode. *)
Lemma decrypt_artifact_run (enc_path out_path : path) (blob plain : bytes)
    (mode : N) (w : World) :
  budget w = None -> fs w !! enc_path = Some (File blob mode) ->
  fernet_decrypt (fernet_key CIPHER) blob = Some plain ->
  writable out_path w ->
  decrypt_artifact enc_path out_path w
  = (Ok out_path,
     with_fs (<[out_path := File plain (mode_at out_path w)]> (fs w))
       (after_decrypt blob w)).
Proof.
  intros Hb Hf Hd Hw. unfold decrypt_artifact.
  rewrite (bind_Ok _ _ _ _ _ (read_file_run _ _ _ _ Hf)).
  rewrite (bind_Ok _ _ _ _ _ (dec_bytes_run _ _ _ Hd)).
  erewrite bind_Ok; cycle 1.
  { apply open_wb_run; done. }
  erewrite bind_Ok; cycle 1.
  { apply write_fd_run; [done|]. cbn. apply lookup_insert_eq. }
  cbn. by rewrite insert_insert_eq.
Qed.


(** All that a returning [persist_db_dump] has done. *)
Lemma persist_db_dump_Ok_inv (w w1 : World) :
  budget w = None -> persist_db_dump w = (Ok tt, w1) ->
  exists conn text dump,
    (db w = Some conn \/ (db w = None /\ conn = db_new))
    /\ iterdump conn = Some text /\ utf8_encode text = Some dump
    /\ writable DB_DUMP_ENC w
    /\ let u := (sqlite_connect w).2 in
       w1 = with_fs (<[DB_DUMP_ENC := File (token_at CIPHER dump u) 384]> (fs w))
              (after_encrypt dump u).
Proof.
  intros Hb H. unfold persist_db_dump in H.
  apply bind_Ok_inv in H as (conn & u1 & Hc & H).
  apply bind_Ok_inv in H as (text & u2 & Ht & H).
  apply bind_Ok_inv in H as (dump & u3 & Hd & H).
  apply bind_Ok_inv in H as (sealed & u4 & Hs & H).
  assert (u1 = (sqlite_connect w).2) as Hu1 by (by rewrite Hc).
  assert (db w = Some conn \/ (db w = None /\ conn = db_new)) as Hdb.
  { revert Hc. unfold sqlite_connect.
    destruct (db w) as [d|]; intros [= <- <-]; auto. }
  assert (fs u1 = fs w /\ budget u1 = None) as [Hfs1 Hb1].
  { rewrite Hu1. unfold sqlite_connect. by destruct (db w). }
  unfold of_option in Ht. destruct (iterdump conn) as [t|] eqn:Hit;
    [|discriminate Ht]. injection Ht as <- <-.
  unfold encode_utf8, of_option in Hd.
  destruct (utf8_encode t) as [b|] eqn:Hb'; [|discriminate Hd].
  injection Hd as <- <-.
  rewrite enc_bytes_run in Hs. injection Hs as <- <-.
  apply _write_file_secure_Ok_inv in H as [Hw ->]; [|done].
  exists conn, t, b.
  split; [done|]. split; [done|]. split; [done|]. split.
  - unfold writable in *. cbn in Hw. by rewrite Hfs1 in Hw.
  - cbv zeta. rewrite <- Hu1. cbn. by rewrite Hfs1.
Qed.

Context {F : FernetSpec E}.

(** X7. The sealed dump opens again: after [persist_db_dump],
    [decrypt_artifact] on the sealed dump puts at the output path the
    UTF-8 text of the database dump.  The plaintext is written under the
    mode the output file had, or the creation mode when it is new: it is
    not restricted as the sealed files are. *)
Theorem persist_db_dump_decrypt_artifact (w w1 : World) (out_path : path) :
  budget w = None -> persist_db_dump w = (Ok tt, w1) ->
  writable out_path w1 ->
  exists conn text dump w2,
    (db w = Some conn \/ (db w = None /\ conn = db_new))
    /\ iterdump conn = Some text /\ utf8_encode text = Some dump
    /\ decrypt_artifact DB_DUMP_ENC out_path w1 = (Ok out_path, w2)
    /\ fs w2 !! out_path = Some (File dump (mode_at out_path w1)).
Proof.
  intros Hb H Hw.
  destruct (persist_db_dump_Ok_inv w w1 Hb H)
    as (conn & text & dump & Hdb & Hit & Hd & _ & Hw1).
  cbv zeta in Hw1. exists conn, text, dump. eexists.
  split; [done|]. split; [done|]. split; [done|].
  assert (budget w1 = None) as Hb1.
  { rewrite Hw1. cbn. unfold sqlite_connect. by destruct (db w). }
  assert (fs w1 !! DB_DUMP_ENC
          = Some (File (token_at CIPHER dump (sqlite_connect w).2) 384)) as Hf.
  { rewrite Hw1. cbn. apply lookup_insert_eq. }
  split.
  - eapply decrypt_artifact_run; [done|exact Hf| |done].
    unfold token_at. apply fernet_decrypt_encrypt.
  - cbn. apply lookup_insert_eq.
Qed.

End DecryptArtifact.

(** ** The sealed exports are written one after the other *)

Section SealedExports.

Context `{E : Externals} {I : Install} {P : Process}.

(** A sequence that raises does so in its first half, or in its second
    after the first has returned. *)
Lemma bind_Raise_inv {A B} (m : M A) (f : A -> M B) (w w' : World) (e : exn) :
  (m ≫= f) w = (Raise e, w') ->
  m w = (Raise e, w')
  \/ exists a w1, m w = (Ok a, w1) /\ f a w1 = (Raise e, w').
Proof.
  rewrite bind_unfold. destruct (m w) as [[a|e1|] w1]; [eauto| |discriminate].
  intros [= <- <-]. by left.
Qed.

Lemma os_error_not_workbook (e : exn) :
  is_os_error e -> e <> IllegalCharacterError.
Proof. intros [->|[->| ->]]; discriminate. Qed.

(** The frame that [persist_csv_and_excel_encrypted] seals: the
    plaintext table when it is there and parses, the table rebuilt from
    the database otherwise. *)
Lemma load_frame_raises_only (b : bool) :
  raises_only (fun e => e <> IllegalCharacterError)
    (if b then try_except (pd_read_csv CSV_FILE) (fun _ => rebuild_and_read)
     else rebuild_and_read).
Proof.
  apply raises_only_if; [apply raises_only_try_except; intros _|];
    apply rebuild_and_read_raises_only;
    first [(cbv beta; discriminate) | apply os_error_not_workbook].
Qed.

Lemma load_frame_footprint (b : bool) :
  preserves (footprint (eq CSV_FILE) is_decrypt_call)
    (if b then try_except (pd_read_csv CSV_FILE) (fun _ => rebuild_and_read)
     else rebuild_and_read).
Proof.
  apply preserves_if; [|by apply rebuild_and_read_decrypts].
  apply preserves_try_except;
    [apply _|apply pd_read_csv_decrypts
    |intros _; by apply rebuild_and_read_decrypts].
Qed.

(** X8. The sealed table is written before the workbook is built.  When the
    workbook cannot be built (openpyxl refuses a cell, as it does for a
    control character), [persist_csv_and_excel_encrypted] raises with the
    sealed table already replaced by the sealing of the current frame and
    the sealed workbook left as it was: the two exports no longer hold the
    same rows. *)
Theorem persist_csv_sealed_before_workbook (w w' : World) :
  budget w = None ->
  persist_csv_and_excel_encrypted w = (Raise IllegalCharacterError, w') ->
  exists df csv u,
    workbook_bytes CSV_COLUMNS df = None
    /\ utf8_encode (df_to_csv df) = Some csv
    /\ fs w' !! CSV_ENC = Some (File (token_at CIPHER csv u) 384)
    /\ fs w' !! XLSX_ENC = fs w !! XLSX_ENC.
Proof.
  intros Hb H. unfold persist_csv_and_excel_encrypted in H.
  rewrite (bind_Ok _ _ _ _ _ (path_exists_run _ _)) in H.
  apply bind_Raise_inv in H as [H|(df & u2 & Hload & H)].
  { by apply load_frame_raises_only in H. }
  pose proof (load_frame_footprint (bool_decide (is_Some (fs w !! CSV_FILE))) w)
    as (Hfs & _ & _ & _ & _ & _ & Hbud).
  rewrite Hload in Hfs, Hbud. cbn [snd] in Hfs, Hbud.
  apply bind_Raise_inv in H as [H|(csv & u3 & Henc & H)].
  { unfold encode_utf8, of_option in H.
    destruct (utf8_encode (df_to_csv df)); discriminate H. }
  unfold encode_utf8, of_option in Henc.
  destruct (utf8_encode (df_to_csv df)) as [b|] eqn:Hcsv; [|discriminate Henc].
  injection Henc as <- <-.
  apply bind_Raise_inv in H as [H|(sealed & u4 & Hs & H)].
  { by rewrite enc_bytes_run in H. }
  rewrite enc_bytes_run in Hs. injection Hs as <- <-.
  apply bind_Raise_inv in H as [H|([] & u5 & Hw & H)].
  { apply _write_file_secure_raises_only in H.
    by apply os_error_not_workbook in H. }
  apply _write_file_secure_Ok_inv in Hw as [_ ->]; [|by apply Hbud].
  apply bind_Raise_inv in H as [H|(xlsx & u6 & Hx & H)].
  - unfold of_option in H.
    destruct (workbook_bytes CSV_COLUMNS df) eqn:Hwb; [discriminate H|].
    injection H as <-. exists df, b, u2.
    split; [done|]. split; [done|]. split.
    + cbn. apply lookup_insert_eq.
    + cbn. rewrite lookup_insert_ne.
      * apply Hfs. intros Heq.
        by destruct sealed_paths_apart as (_ & _ & _ & _ & _ & Hne & _).
      * by destruct sealed_paths_apart as (_ & _ & _ & Hne & _).
  - apply bind_Raise_inv in H as [H|(sealed' & u7 & Hs & H)].
    { by rewrite enc_bytes_run in H. }
    apply _write_file_secure_raises_only in H.
    by apply os_error_not_workbook in H.
Qed.

End SealedExports.

(** ** Rebuilding the plaintext table *)

Section Rebuild.

Context `{E : Externals} {I : Install} {P : Process}.

Lemma open_wb_Ok (p : path) (w w1 : World) :
  open_wb p w = (Ok tt, w1) ->
  fs w1 !! p = Some (File [] (mode_at p w)).
Proof.
  unfold open_wb, syscall. rewrite bind_unfold.
  assert (forall u, fs u = fs w ->
            (match fs u !! p with
             | Some (File _ mode) => (Ok tt, with_fs (<[p := File [] mode]> (fs u)) u)
             | Some Dir => (Raise IsADirectoryError, u)
             | None =>
                 match fs u !! parent p with
                 | Some Dir => (Ok tt, with_fs (<[p := File [] default_mode]> (fs u)) u)
                 | Some (File _ _) => (Raise NotADirectoryError, u)
                 | None => (Raise FileNotFoundError, u)
                 end
             end) = (Ok tt, w1) ->
            fs w1 !! p = Some (File [] (mode_at p w))) as Hcase.
  { intros u Hu. unfold mode_at. rewrite Hu.
    destruct (fs w !! p) as [[old mode|]|].
    - intros [= <-]. cbn. apply lookup_insert_eq.
    - discriminate.
    - destruct (fs w !! parent p) as [[]|]; [discriminate| |discriminate].
      intros [= <-]. cbn. apply lookup_insert_eq. }
  unfold tick. destruct (budget w) as [[|n]|]; [discriminate|..];
    by apply Hcase.
Qed.

Lemma write_fd_Ok (p : path) (data old : bytes) (mode : N) (w w1 : World) :
  write_fd p data w = (Ok tt, w1) -> fs w !! p = Some (File old mode) ->
  fs w1 !! p = Some (File (old ++ data) mode).
Proof.
  unfold write_fd, syscall. rewrite bind_unfold. intros H Hf. revert H.
  unfold tick. destruct (budget w) as [[|n]|]; [discriminate|..];
    cbn; rewrite Hf; intros [= <-]; cbn; apply lookup_insert_eq.
Qed.

Lemma to_csv_file_Ok (df : DataFrame) (p : path) (w w1 : World) :
  to_csv_file df p w = (Ok tt, w1) ->
  exists data, fs w1 !! p = Some (File data (mode_at p w)).
Proof.
  unfold to_csv_file. intros H.
  apply bind_Ok_inv in H as ([] & u1 & Hopen & H).
  apply bind_Ok_inv in H as (b & u2 & Henc & H).
  unfold encode_utf8, of_option in Henc.
  destruct (utf8_encode (df_to_csv df)); [|discriminate Henc].
  injection Henc as <- <-. apply open_wb_Ok in Hopen.
  eexists. by eapply write_fd_Ok.
Qed.

(** X9. [rebuild_csv_from_db] writes no file but the plaintext table, leaves
    the database as it is, and calls the cryptography library only to
    decrypt.  With no database file it does nothing at all.  When it
    returns with a database in place, the plaintext table, decrypted notes
    included, is a file under the mode it had or, if it is new, the
    creation mode: nothing restricts it. *)
Theorem rebuild_csv_from_db_frame (w : World) :
  let w' := (rebuild_csv_from_db w).2 in
  footprint (eq CSV_FILE) is_decrypt_call w w'
  /\ db w' = db w
  /\ (db w = None -> rebuild_csv_from_db w = (Ok tt, w))
  /\ ((rebuild_csv_from_db w).1 = Ok tt -> is_Some (db w) ->
      exists data, fs w' !! CSV_FILE = Some (File data (mode_at CSV_FILE w))).
Proof.
  cbv zeta. split; [by apply rebuild_csv_from_db_decrypts|].
  split; [apply rebuild_csv_from_db_same_db|]. split.
  - intros Hd. unfold rebuild_csv_from_db. rewrite bind_unfold.
    unfold db_exists at 1. cbv beta iota.
    rewrite Hd, bool_decide_false by (by intros [? ?]). reflexivity.
  - intros Hok [d Hd].
    pose proof (run_eq rebuild_csv_from_db w _ Hok) as H.
    revert H. generalize (rebuild_csv_from_db w).2. intros w' H.
    unfold rebuild_csv_from_db in H. rewrite bind_unfold in H.
    unfold db_exists at 1 in H. cbv beta iota in H.
    rewrite Hd, bool_decide_true in H by eauto. cbn [negb] in H.
    apply bind_Ok_inv in H as (conn & u1 & Hc & H).
    apply bind_Ok_inv in H as (df & u2 & Hq & H).
    apply bind_Ok_inv in H as (df' & u3 & Hdec & H).
    apply to_csv_file_Ok in H as [data H]. exists data. rewrite H.
    assert (fs u3 = fs w) as Hfs.
    { assert (fs u1 = fs w) as H1.
      { revert Hc. unfold sqlite_connect. rewrite Hd. by intros [= _ <-]. }
      assert (fs u2 = fs u1) as H2.
      { revert Hq. unfold of_option.
        destruct (read_sql_query _ _); [by intros [= _ <-]|discriminate]. }
      match type of Hdec with ?m u2 = _ =>
        assert (preserves (footprint (fun _ => False) is_decrypt_call) m) as Hm
      end.
      { apply preserves_try_except;
          [apply _| |intros ?; apply preserves_ret; apply _].
        apply preserves_if; [|apply preserves_ret; apply _].
        apply preserves_bind;
          [apply _|apply decrypt_column_decrypts|intros df1].
        apply preserves_try_except;
          [apply _|apply decrypt_column_decrypts
          |intros ?; apply preserves_ret; apply _]. }
      destruct (Hm u2) as (Hfs & _). rewrite Hdec in Hfs. cbn [snd] in Hfs.
      apply map_eq. intros p. rewrite Hfs by tauto. by rewrite H2, H1. }
    unfold mode_at. by rewrite Hfs.
Qed.

End Rebuild.

(** ** Rotation at its bounds, and what a backup may touch *)

Section RotationBounds.

Context `{E : Externals} {I : Install} {P : Process}.

(** X10. With at most [BACKUP_RETENTION] names under the prefix, rotation
    removes nothing and makes no system call; the listing of the folder is
    not guarded, so a missing backup folder, or a file in its place, makes
    the rotation raise. *)
Theorem _rotate_backups_within_retention (prefix : str) (w : World) :
  (fs w !! BACKUP_FOLDER = Some Dir ->
   (length (backup_files prefix (fs w)) <= BACKUP_RETENTION)%nat ->
   _rotate_backups prefix w = (Ok tt, w))
  /\ (fs w !! BACKUP_FOLDER = None ->
      _rotate_backups prefix w = (Raise FileNotFoundError, w))
  /\ (forall data mode,
        fs w !! BACKUP_FOLDER = Some (File data mode) ->
        _rotate_backups prefix w = (Raise NotADirectoryError, w)).
Proof.
  split; [|split].
  - intros Hd Hlen. rewrite _rotate_backups_unfold, Hd.
    by rewrite drop_ge.
  - intros Hd. by rewrite _rotate_backups_unfold, Hd.
  - intros data mode Hd. by rewrite _rotate_backups_unfold, Hd.
Qed.

Ltac data_path_neq :=
  let H := fresh in
  intros H;
  unfold BACKUP_FOLDER, CSV_FILE, CSV_ENC, XLSX_ENC, DB_DUMP_ENC, STATE_ENC,
    SECRET_KEY_FILE, KDF_SALT_FILE, TMP_DUMP in H;
  rewrite <- ?app_assoc in H; apply app_inv_head in H;
  vm_compute in H; discriminate H.

Lemma key_paths_apart :
  SECRET_KEY_FILE <> DB_DUMP_ENC /\ SECRET_KEY_FILE <> CSV_FILE
  /\ SECRET_KEY_FILE <> CSV_ENC /\ SECRET_KEY_FILE <> XLSX_ENC
  /\ KDF_SALT_FILE <> DB_DUMP_ENC /\ KDF_SALT_FILE <> CSV_FILE
  /\ KDF_SALT_FILE <> CSV_ENC /\ KDF_SALT_FILE <> XLSX_ENC.
Proof. repeat split; data_path_neq. Qed.

Lemma tmp_dump_apart :
  TMP_DUMP <> CSV_FILE /\ TMP_DUMP <> CSV_ENC /\ TMP_DUMP <> XLSX_ENC.
Proof. repeat split; data_path_neq. Qed.

Lemma not_backup_all_writes (n : str) :
  DATA_DIR ++ [n] <> DB_DUMP_ENC -> DATA_DIR ++ [n] <> CSV_FILE ->
  DATA_DIR ++ [n] <> CSV_ENC -> DATA_DIR ++ [n] <> XLSX_ENC ->
  ~ backup_all_writes (DATA_DIR ++ [n]).
Proof.
  intros H1 H2 H3 H4 [?|[?|[?|[?|(c & f & _ & Heq & _)]]]]; try done.
  symmetry in Heq. by apply backup_child_not_data in Heq.
Qed.


End RotationBounds.

(** ** A restore that goes past the decryption *)

Section RestoreMore.

Context `{E : Externals} {I : Install} {P : Process}.

Lemma sqlite_connect_run (w : World) :
  sqlite_connect w
  = (Ok (default db_new (db w)), with_db (Some (default db_new (db w))) w).
Proof. unfold sqlite_connect. destruct w as [f [d|] ? ? ? ? ? ?]; reflexivity. Qed.

Lemma sqlite_executescript_run (sql : str) (d : DB) (w : World) :
  budget w = None -> db w = Some d ->
  sqlite_executescript sql w
  = (match (executescript sql d).2 with
     | None => Ok tt
     | Some e => Raise e
     end, with_db (Some (executescript sql d).1) w).
Proof.
  intros Hb Hd. unfold sqlite_executescript.
  rewrite syscall_unbounded by done. rewrite Hd.
  by destruct (executescript sql d) as [d' [e|]].
Qed.

(** X12. The table is dropped, and the plaintext of the dump is on disk,
    before the script of the dump is run: when that script fails,
    [restore_from_encrypted_dump] raises the error of the script with the
    database left as the failed script left it, the old table gone, and
    with the decrypted dump still in [__tmp_dump.sql], which is removed
    only after a script that succeeds. *)
Theorem restore_script_failure (enc_path : path) (blob plain : bytes)
    (mode : N) (d1 d2 : DB) (e : exn) (w : World) :
  budget w = None ->
  fs w !! enc_path = Some (File blob mode) ->
  fernet_decrypt (fernet_key CIPHER) blob = Some plain ->
  writable TMP_DUMP w ->
  executescript (lit "DROP TABLE IF EXISTS finance;") (default db_new (db w))
  = (d1, None) ->
  executescript (decode_ignore plain) d1 = (d2, Some e) ->
  exists w',
    restore_from_encrypted_dump enc_path w = (Raise e, w')
    /\ db w' = Some d2
    /\ fs w' !! TMP_DUMP = Some (File plain (mode_at TMP_DUMP w)).
Proof.
  intros Hb Hf Hd Hw Hdrop Hsql. unfold restore_from_encrypted_dump.
  fold TMP_DUMP.
  rewrite (bind_Ok _ _ _ _ _
             (decrypt_artifact_run _ _ _ _ _ _ Hb Hf Hd Hw)).
  erewrite bind_Ok; cycle 1.
  { eapply read_file_run. cbn. apply lookup_insert_eq. }
  rewrite (bind_Ok _ _ _ _ _ (sqlite_connect_run _)).
  erewrite bind_Ok; cycle 1.
  { erewrite sqlite_executescript_run; [|done|reflexivity].
    cbn [db with_db with_fs after_decrypt with_trace].
    by rewrite Hdrop. }
  eexists. split.
  - apply bind_Raise.
    erewrite sqlite_executescript_run; [|done|reflexivity].
    cbn [fst]. by rewrite Hsql.
  - split; [done|]. cbn. apply lookup_insert_eq.
Qed.

Lemma sqlite_executescript_Ok (sql : str) (w w1 : World) :
  sqlite_executescript sql w = (Ok tt, w1) ->
  exists d d', db w = Some d /\ executescript sql d = (d', None)
               /\ db w1 = Some d'.
Proof.
  unfold sqlite_executescript, syscall. rewrite bind_unfold.
  assert (forall u, db u = db w ->
            (match db u with
             | Some d =>
                 match executescript sql d with
                 | (d', None) => (Ok tt, with_db (Some d') u)
                 | (d', Some e) => (Raise e, with_db (Some d') u)
                 end
             | None => (Raise DatabaseError, u)
             end) = (Ok tt, w1) ->
            exists d d', db w = Some d /\ executescript sql d = (d', None)
                         /\ db w1 = Some d') as Hcase.
  { intros u Hu. rewrite Hu. destruct (db w) as [d|]; [|discriminate].
    destruct (executescript sql d) as [d' [e|]] eqn:He; [discriminate|].
    intros [= <-]. eauto. }
  unfold tick. destruct (budget w) as [[|n]|]; [discriminate|..];
    by apply Hcase.
Qed.

Lemma remove_Ok (p : path) (w w1 : World) :
  remove p w = (Ok tt, w1) -> fs w1 !! p = None /\ db w1 = db w.
Proof.
  unfold remove, syscall. rewrite bind_unfold.
  assert (forall u, fs u = fs w -> db u = db w ->
            (match fs u !! p with
             | Some (File _ _) => (Ok tt, with_fs (delete p (fs u)) u)
             | Some Dir => (Raise IsADirectoryError, u)
             | None => (Raise FileNotFoundError, u)
             end) = (Ok tt, w1) ->
            fs w1 !! p = None /\ db w1 = db w) as Hcase.
  { intros u Hu Hd. destruct (fs u !! p) as [[]|]; [|discriminate..].
    intros [= <-]. cbn. by rewrite lookup_delete_eq. }
  unfold tick. destruct (budget w) as [[|n]|]; [discriminate|..];
    by apply Hcase.
Qed.


End RestoreMore.

(** ** Rotating twice *)

Section RotationTwice.

Context `{E : Externals} {I : Install}.

Lemma StronglySorted_sublist {A} (R : relation A) (k l : list A) :
  k `sublist_of` l -> StronglySorted R l -> StronglySorted R k.
Proof.
  induction 1 as [|x k l Hs IH|x k l Hs IH]; intros Hl.
  - constructor.
  - apply StronglySorted_inv in Hl as [Hl Hx]. constructor; [auto|].
    apply Forall_forall. intros y Hy. rewrite Forall_forall in Hx.
    apply Hx. by eapply elem_of_sublist.
  - apply StronglySorted_inv in Hl as [Hl _]. auto.
Qed.

(** Pruning names none of which is a file changes nothing. *)
Lemma prune_no_files (victims : list str) (m : gmap path node) :
  (forall v data mode, v ∈ victims ->
     m !! (BACKUP_FOLDER ++ [v]) <> Some (File data mode)) ->
  prune victims m = m.
Proof.
  intros H. apply map_eq. intros p. rewrite lookup_prune.
  destruct (m !! p) as [[data mode|]|] eqn:Hp; [|done..].
  destruct (decide _) as [Hex|]; [|done].
  apply Exists_exists in Hex as (v & Hv & ->). by destruct (H v data mode Hv).
Qed.

(** The names left by a rotation: the first [BACKUP_RETENTION], and
    beyond them those that are directories, which [os.remove] refuses. *)
Lemma backup_files_rotated (prefix : str) (m : gmap path node) :
  let files := backup_files prefix m in
  backup_files prefix (prune (drop BACKUP_RETENTION files) m)
  = take BACKUP_RETENTION files
    ++ filter (fun f => m !! (BACKUP_FOLDER ++ [f]) = Some Dir)
         (drop BACKUP_RETENTION files).
Proof.
  cbv zeta. set (files := backup_files prefix m).
  pose proof (NoDup_backup_files prefix m) as Hnd. fold files in Hnd.
  pose proof (backup_files_sorted prefix m) as Hs. fold files in Hs.
  assert (take BACKUP_RETENTION files
          ++ filter (fun f => m !! (BACKUP_FOLDER ++ [f]) = Some Dir)
               (drop BACKUP_RETENTION files) `sublist_of` files) as Hsub.
  { rewrite <- (take_drop BACKUP_RETENTION files) at 3.
    apply sublist_app; [done|apply sublist_filter]. }
  apply backup_files_unique.
  - by eapply StronglySorted_sublist.
  - by eapply sublist_NoDup.
  - intros f. rewrite lookup_prune, elem_of_app, list_elem_of_filter.
    rewrite <- (take_drop BACKUP_RETENTION files) in Hnd.
    apply NoDup_app in Hnd as (_ & Hdisj & _). split.
    + intros [Hf|[Hdir Hf]].
      * assert (f ∈ files) as Hin by (by apply (subseteq_take BACKUP_RETENTION)).
        apply elem_of_backup_files in Hin as [Hp [x Hx]]. split; [done|].
        rewrite Hx. destruct x as [data mode|]; [|eauto].
        rewrite decide_False; [eauto|]. rewrite Exists_child. by apply Hdisj.
      * assert (f ∈ files) as Hin by (by apply (subseteq_drop BACKUP_RETENTION)).
        apply elem_of_backup_files in Hin as [Hp _]. split; [done|].
        rewrite Hdir. eauto.
    + intros [Hp Hsome].
      destruct (m !! (BACKUP_FOLDER ++ [f])) as [[data mode|]|] eqn:Hm.
      * destruct (decide (Exists _ _)) as [|Hne]; [by destruct Hsome|].
        rewrite Exists_child in Hne.
        assert (f ∈ files) as Hin
          by (apply elem_of_backup_files; rewrite Hm; eauto).
        rewrite <- (take_drop BACKUP_RETENTION files) in Hin.
        apply elem_of_app in Hin as [|]; [by left|done].
      * assert (f ∈ files) as Hin
          by (apply elem_of_backup_files; rewrite Hm; eauto).
        rewrite <- (take_drop BACKUP_RETENTION files) in Hin.
        apply elem_of_app in Hin as [|]; [by left|by right].
      * by destruct Hsome.
Qed.

(** X14. Rotation is idempotent: left alone, a second rotation under the same
    prefix ends as the first did and changes nothing more.  What the first
    could not remove, the second cannot remove either. *)
Theorem _rotate_backups_idempotent (prefix : str) (w : World) :
  budget w = None ->
  _rotate_backups prefix (_rotate_backups prefix w).2
  = _rotate_backups prefix w.
Proof.
  intros Hb. destruct (fs w !! BACKUP_FOLDER) as [[data mode|]|] eqn:Hd.
  - rewrite (_rotate_backups_unfold prefix w), Hd. cbn [snd].
    by rewrite _rotate_backups_unfold, Hd.
  - rewrite (_rotate_backups_run prefix w Hb Hd). cbn [snd].
    set (files := backup_files prefix (fs w)).
    set (m1 := prune (drop BACKUP_RETENTION files) (fs w)).
    assert (m1 !! BACKUP_FOLDER = Some Dir) as Hd1.
    { unfold m1. by rewrite lookup_prune, Hd. }
    rewrite _rotate_backups_run by done. cbn [fs with_fs].
    f_equal. rewrite with_fs_with_fs. f_equal.
    apply prune_no_files. intros v data' mode' Hv Hfile.
    unfold m1 in Hv. fold files in Hv.
    pose proof (backup_files_rotated prefix (fs w)) as Hrot.
    cbv zeta in Hrot. fold files in Hrot. rewrite Hrot in Hv.
    rewrite drop_app in Hv. rewrite (drop_ge (take _ _)) in Hv
      by (rewrite length_take; lia).
    cbn [app] in Hv. apply (subseteq_drop _ _) in Hv.
    apply list_elem_of_filter in Hv as [Hdir _].
    unfold m1 in Hfile. rewrite lookup_prune, Hdir in Hfile. done.
  - rewrite (_rotate_backups_unfold prefix w), Hd. cbn [snd].
    by rewrite _rotate_backups_unfold, Hd.
Qed.

End RotationTwice.

(** ** Tagging a note *)

Section AutoTag.

Context {U : Unicode}.

Lemma contains_app (a x b : str) : contains (a ++ x ++ b) x = true.
Proof.
  induction a as [|c a IH].
  - cbn [app]. destruct (x ++ b) eqn:Hxb.
    + destruct x; [done|discriminate Hxb].
    + cbn [contains]. rewrite <- Hxb. by rewrite startswith_app.
  - cbn [app contains]. rewrite IH. apply orb_true_r.
Qed.

(** The loop that removes duplicates leaves a duplicate-free list as it
    is. *)
Lemma dedupe_NoDup (tags : list str) : NoDup tags -> (dedupe tags).2 = tags.
Proof.
  unfold dedupe.
  assert (forall (l out : list str) (seen : gset str),
            (forall t, t ∈ seen <-> t ∈ out) -> NoDup (out ++ l) ->
            (foldl (fun '(seen, out) t =>
                      if decide (t ∈ seen) then (seen, out)
                      else ({[t]} ∪ seen, out ++ [t]))
               (seen, out) l).2 = out ++ l) as H.
  { induction l as [|t l IH]; intros out seen Hseen Hnd.
    - cbn. by rewrite app_nil_r.
    - cbn [foldl]. apply NoDup_app in Hnd as (Hout & Hdisj & Hl).
      destruct (decide (t ∈ seen)) as [Hin|Hnin].
      + apply Hseen in Hin. destruct (Hdisj t Hin). by left.
      + rewrite IH.
        * by rewrite <- app_assoc.
        * intros t'. rewrite elem_of_union, elem_of_singleton, elem_of_app,
            list_elem_of_singleton, Hseen. tauto.
        * rewrite <- app_assoc. cbn. apply NoDup_app. split; [done|].
          split; [|done]. intros x Hx. apply Hdisj, Hx. }
  intros Hnd. rewrite H; [done| |done]. intros t.
  rewrite elem_of_empty. split; [done|]. by intros ?%elem_of_nil.
Qed.

(** [auto_tag] joins the tags of the rules that fire. *)
Lemma auto_tag_fired (note_text : option str) :
  auto_tag note_text = join (lit " ") (fired (lower (default [] note_text))).
Proof.
  unfold auto_tag, fired, tag_rules. cbv zeta. cbn [omap list_omap fst snd].
  generalize (lower (default [] note_text)). intros s.
  destruct (any_in [lit "tired"; lit "lazy"; lit "rest"; lit "sleep"] s),
    (any_in [lit "short"; lit "half"; lit "partial"] s),
    (any_in [lit "save"; lit "no spend"; lit "zero spend"] s),
    (any_in [lit "food"; lit "coffee"; lit "drink"; lit "meal"] s),
    (any_in [lit "uber"; lit "bus"; lit "trip"; lit "travel"; lit "metro";
             lit "rickshaw"] s);
    cbn [app]; (rewrite dedupe_NoDup; [reflexivity|]);
    apply (bool_decide_unpack _); vm_compute; reflexivity.
Qed.

Lemma auto_tag_contains_iff (note_text : option str) (kws : list str)
    (tag : str) :
  (kws, tag) ∈ tag_rules ->
  contains (auto_tag note_text) tag = true
  <-> any_in kws (lower (default [] note_text)) = true.
Proof.
  intros Hr. rewrite auto_tag_fired. unfold fired, tag_rules in *.
  cbn [omap list_omap fst snd].
  generalize (lower (default [] note_text)). intros s.
  repeat (apply elem_of_cons in Hr as [[= -> ->]|Hr]);
    [..|by apply elem_of_nil in Hr];
    destruct (any_in [lit "tired"; lit "lazy"; lit "rest"; lit "sleep"] s),
      (any_in [lit "short"; lit "half"; lit "partial"] s),
      (any_in [lit "save"; lit "no spend"; lit "zero spend"] s),
      (any_in [lit "food"; lit "coffee"; lit "drink"; lit "meal"] s),
      (any_in [lit "uber"; lit "bus"; lit "trip"; lit "travel"; lit "metro";
               lit "rickshaw"] s);
    vm_compute; split; intros; congruence.
Qed.

(** X15. A tag is in what [auto_tag] returns exactly when one of its keywords
    occurs in the lower-cased note; the tags come in the order of the
    rules, each once, with one space between them. *)
Theorem auto_tag_rule_iff (note_text : option str) (kws : list str)
    (tag : str) :
  (kws, tag) ∈ tag_rules ->
  (contains (auto_tag note_text) tag = true
   <-> any_in kws (lower (default [] note_text)) = true)
  /\ auto_tag note_text
     = join (lit " ") (fired (lower (default [] note_text)))
  /\ fired (lower (default [] note_text)) `sublist_of` tag_rules.*2.
Proof.
  intros Hr. split; [by apply auto_tag_contains_iff|].
  split; [apply auto_tag_fired|].
  unfold fired. generalize (lower (default [] note_text)). intros s.
  clear Hr. generalize tag_rules. intros l.
  induction l as [|r l IH]; [constructor|].
  cbn [omap list_omap fmap list_fmap].
  destruct (any_in r.1 s); cbn; by constructor.
Qed.

(** A keyword, or a lower-case letter or a space, is its own lower
    case wherever it stands; an upper-case letter becomes the lower-case
    one. *)
Lemma lower_spells (s u k : str) (g : nat -> nat) :
  spells u k -> Forall (fun c => c < 128 /\ ~ (65 <= c <= 90)) k ->
  concat (imap (fun i => lower_at s (g i)) u) = k.
Proof.
  intros Hs. revert g. induction Hs as [|x c u k Hx Hs IH]; intros g Hk.
  - reflexivity.
  - apply Forall_cons in Hk as [[Hc1 Hc2] Hk]. cbn [imap concat].
    assert (concat (imap ((fun i => lower_at s (g i)) ∘ S) u) = k) as ->
      by apply (IH (g ∘ S) Hk).
    assert (lower_at s (g 0%nat) x = [c]) as ->; [|done].
    unfold lower_at. destruct Hx as [->|[Hc Hx]].
    + replace ((65 <=? c) && (c <=? 90)) with false.
      * replace (c <? 128) with true; [done|].
        symmetry. by apply N.ltb_lt.
      * symmetry. apply andb_false_iff.
        destruct (N.leb_spec 65 c); [|by left].
        destruct (N.leb_spec c 90); [|by right]. destruct Hc2. lia.
    + replace ((65 <=? x) && (x <=? 90)) with true; [by rewrite Hx|].
      symmetry. apply andb_true_iff. split; apply N.leb_le; lia.
Qed.

Lemma keywords_lower_case (kws : list str) (tag : str) (k : str) :
  (kws, tag) ∈ tag_rules -> k ∈ kws ->
  Forall (fun c => c < 128 /\ ~ (65 <= c <= 90)) k.
Proof.
  intros Hr Hk.
  assert (Forall (fun r : list str * str =>
                    Forall (Forall (fun c => c < 128 /\ ~ (65 <= c <= 90))) r.1)
            tag_rules) as Hall.
  { apply (bool_decide_unpack _). vm_compute. reflexivity. }
  rewrite Forall_forall in Hall. specialize (Hall _ Hr). cbn in Hall.
  rewrite Forall_forall in Hall. by apply Hall.
Qed.

(** X16. A note in which a keyword occurs, in any mix of upper and lower
    case and anywhere, inside a longer word included, gets the tag of the
    keyword. *)
Theorem auto_tag_keyword (kws : list str) (tag k pre u post : str) :
  (kws, tag) ∈ tag_rules -> k ∈ kws -> spells u k ->
  contains (auto_tag (Some (pre ++ u ++ post))) tag = true.
Proof.
  intros Hr Hk Hs. apply (auto_tag_contains_iff _ kws); [done|].
  unfold any_in. apply existsb_exists. exists k.
  split; [by apply list_elem_of_In|].
  change (default [] (Some (pre ++ u ++ post))) with (pre ++ u ++ post).
  unfold lower. rewrite imap_app, concat_app, imap_app, concat_app.
  rewrite (lower_spells _ u k); [apply contains_app|done|].
  by eapply keywords_lower_case.
Qed.

End AutoTag.

(** ** The state file *)

Section StateText.

Lemma lit_cons (a : ascii) (s : string) :
  lit (String a s) = N_of_ascii a :: lit s.
Proof. reflexivity. Qed.

(** The digits of an integer are digits, after a minus sign at most. *)
Lemma str_of_int_chars (z : Z) :
  Forall (fun c => c = 45 \/ 48 <= c <= 57) (str_of_int z).
Proof.
  assert (forall d, Forall (fun c => c = 45 \/ 48 <= c <= 57)
                      (lit (NilEmpty.string_of_uint d))) as Hu.
  { induction d; cbn [NilEmpty.string_of_uint];
      [constructor
      |rewrite lit_cons; constructor;
         [right; split; apply N.leb_le; reflexivity|done]..]. }
  unfold str_of_int. destruct (Z.to_int z) as [d|d]; cbn [NilEmpty.string_of_int].
  - apply Hu.
  - rewrite lit_cons. constructor; [by left|apply Hu].
Qed.

Lemma universal_newlines_plain (s : str) :
  Forall (fun c => c <> 13) s -> universal_newlines s = s.
Proof.
  induction 1 as [|c s Hc _ IH]; [done|]. cbn [universal_newlines].
  apply N.eqb_neq in Hc. by rewrite Hc, IH.
Qed.

Lemma utf8_encode_plain (s : str) :
  Forall (fun c => c < 128) s -> is_Some (utf8_encode s).
Proof.
  induction 1 as [|c s Hc _ [b IH]]; [by eexists|]. cbn [utf8_encode].
  unfold utf8_encode_char. apply N.ltb_lt in Hc. rewrite Hc, IH. by eexists.
Qed.

End StateText.

Section State.

Context `{E : Externals} {L : Libraries} {I : Install} {P : Process}.

Lemma state_text_chars (sd sb : str) :
  Forall (fun c => 32 <= c < 127) sd -> Forall (fun c => 32 <= c < 127) sb ->
  Forall (fun c => 32 <= c < 127)
    (lit "{" ++ dq "day_index" ++ lit ": " ++ sd ++ lit ", "
     ++ dq "balance_rollover" ++ lit ": " ++ sb ++ lit "}").
Proof.
  intros Hd Hb.
  assert (forall (l : str),
            forallb (fun c => (32 <=? c) && (c <? 127)) l = true ->
            Forall (fun c => 32 <= c < 127) l) as Hlit.
  { intros l Hl. apply Forall_forall. intros c Hc.
    rewrite forallb_forall in Hl. apply list_elem_of_In, Hl in Hc.
    apply andb_true_iff in Hc as [?%N.leb_le ?%N.ltb_lt]. lia. }
  apply Forall_app; split; [apply Hlit; vm_compute; reflexivity|].
  apply Forall_app; split; [apply Hlit; vm_compute; reflexivity|].
  apply Forall_app; split; [apply Hlit; vm_compute; reflexivity|].
  apply Forall_app; split; [apply Hd|].
  apply Forall_app; split; [apply Hlit; vm_compute; reflexivity|].
  apply Forall_app; split; [apply Hlit; vm_compute; reflexivity|].
  apply Forall_app; split; [apply Hlit; vm_compute; reflexivity|].
  apply Forall_app; split; [apply Hb|].
  apply Hlit; vm_compute; reflexivity.
Qed.

(** The text written for a state is made of printable ASCII. *)
Lemma json_dumps_state_chars (d b : Z) (text : str) :
  json_dumps_state d b = Some text ->
  Forall (fun c => 32 <= c < 127) text.
Proof.
  unfold json_dumps_state, int_str.
  destruct (_ || _); [|discriminate]. destruct (_ || _); [|discriminate].
  intros H. injection H as <-.
  assert (forall z, Forall (fun c => 32 <= c < 127) (str_of_int z)) as Hz.
  { intros z. eapply Forall_impl; [apply str_of_int_chars|].
    cbn. intros c [->|?]; lia. }
  apply state_text_chars; apply Hz.
Qed.

Lemma json_dumps_state_codec (d b : Z) (text : str) :
  json_dumps_state d b = Some text ->
  universal_newlines text = text
  /\ exists blob, utf8_encode text = Some blob /\ utf8_decode blob = Some text.
Proof.
  intros H. apply json_dumps_state_chars in H. split.
  - apply universal_newlines_plain. eapply Forall_impl; [exact H|].
    cbn. intros c ?. lia.
  - destruct (utf8_encode_plain text) as [blob Hb].
    { eapply Forall_impl; [exact H|]. cbn. intros c ?. lia. }
    exists blob. split; [done|]. by apply utf8_decode_encode.
Qed.

Lemma load_state_plain_file (blob : bytes) (mode : N) (text : str)
    (w : World) :
  fs w !! STATE_FILE = Some (File blob mode) ->
  utf8_decode blob = Some text ->
  load_state_plain w = (Ok (state_of_json (universal_newlines text)), w).
Proof.
  intros Hf Hd. unfold load_state_plain.
  rewrite (bind_Ok _ _ _ _ _ (path_exists_run _ _)).
  rewrite bool_decide_true by (rewrite Hf; eauto).
  rewrite try_except_unfold. unfold read_text.
  rewrite bind_unfold, bind_unfold, (read_file_run _ _ _ _ Hf).
  unfold decode_utf8. rewrite Hd. cbn [of_option].
  unfold parse_state. cbv [mbind M_bind mret M_ret].
  by destruct (state_of_json (universal_newlines text)).
Qed.

(** The first block gives nothing in any other case, and leaves the
    world as it is. *)
Lemma load_state_plain_none (w : World) :
  (forall blob mode text,
     fs w !! STATE_FILE = Some (File blob mode) ->
     utf8_decode blob = Some text ->
     state_of_json (universal_newlines text) = None) ->
  load_state_plain w = (Ok None, w).
Proof.
  intros H. unfold load_state_plain.
  rewrite (bind_Ok _ _ _ _ _ (path_exists_run _ _)).
  destruct (fs w !! STATE_FILE) as [[blob mode|]|] eqn:Hf.
  - rewrite bool_decide_true by eauto.
    rewrite try_except_unfold. unfold read_text.
    rewrite bind_unfold, bind_unfold, (read_file_run _ _ _ _ Hf).
    unfold decode_utf8.
    destruct (utf8_decode blob) as [text|] eqn:Hd; [|done].
    cbn [of_option]. unfold parse_state. cbv [mbind M_bind mret M_ret].
    by rewrite (H blob mode text).
  - rewrite bool_decide_true by eauto.
    rewrite try_except_unfold. unfold read_text.
    rewrite bind_unfold, bind_unfold. unfold read_file. by rewrite Hf.
  - rewrite bool_decide_false; [done|]. by intros [? ?].
Qed.

Lemma load_state_plain_total (w : World) :
  exists r, load_state_plain w = (Ok r, w).
Proof.
  destruct (fs w !! STATE_FILE) as [[blob mode|]|] eqn:Hf.
  - destruct (utf8_decode blob) as [text|] eqn:Hd.
    + eexists. by eapply load_state_plain_file.
    + exists None. apply load_state_plain_none.
      intros blob' mode' text' Hf' Hd'. rewrite Hf in Hf'.
      injection Hf' as <- <-. congruence.
  - exists None. apply load_state_plain_none. intros ? ? ? Hf'.
    rewrite Hf in Hf'. discriminate Hf'.
  - exists None. apply load_state_plain_none. intros ? ? ? Hf'.
    rewrite Hf in Hf'. discriminate Hf'.
Qed.

Lemma load_state_sealed_run (w : World) :
  load_state_sealed w
  = (Ok (sealed_state w),
     match fs w !! STATE_ENC with
     | Some (File blob _) => after_decrypt blob w
     | _ => w
     end).
Proof.
  unfold load_state_sealed, sealed_state.
  rewrite (bind_Ok _ _ _ _ _ (path_exists_run _ _)).
  destruct (fs w !! STATE_ENC) as [[blob mode|]|] eqn:Hf.
  - rewrite bool_decide_true by eauto.
    rewrite try_except_unfold.
    rewrite bind_unfold, (read_file_run _ _ _ _ Hf).
    rewrite bind_unfold. unfold dec_bytes. rewrite Fernet_decrypt_run.
    destruct (fernet_decrypt (fernet_key CIPHER) blob) as [raw|]; [|done].
    cbn [mbind option_bind]. unfold decode_utf8.
    destruct (utf8_decode raw) as [text|]; [|done].
    cbn [of_option mbind option_bind]. unfold parse_state.
    cbv [mbind M_bind mret M_ret].
    by destruct (state_of_json text).
  - rewrite bool_decide_true by eauto.
    rewrite try_except_unfold, bind_unfold. unfold read_file.
    by rewrite Hf.
  - rewrite bool_decide_false; [done|]. by intros [? ?].
Qed.

End State.

Section StateClaims.

Context `{E : Externals} {L : Libraries} {I : Install} {P : Process}.

Lemma load_state_run (w : World) (plain : option (Z * Z)) :
  load_state_plain w = (Ok plain, w) ->
  load_state w
  = match plain with
    | Some st => (Ok st, w)
    | None =>
        (Ok (default (0, 0)%Z (sealed_state w)),
         match fs w !! STATE_ENC with
         | Some (File blob _) => after_decrypt blob w
         | _ => w
         end)
    end.
Proof.
  intros Hp. unfold load_state. rewrite (bind_Ok _ _ _ _ _ Hp).
  destruct plain as [st|]; [done|].
  rewrite (bind_Ok _ _ _ _ _ (load_state_sealed_run w)).
  by destruct (sealed_state w).
Qed.

(** X17. [load_state] reads the plaintext state file first.  When that file
    is there, is UTF-8 and parses, its content is the state and the world
    is left as it is: the sealed copy is not opened, whatever it holds.
    In every other case the state is the one of the sealed copy, if that
    opens under the process key and parses, and [(0, 0)] if not. *)
Theorem load_state_plaintext_first (w : World) :
  (forall blob mode text st,
     fs w !! STATE_FILE = Some (File blob mode) ->
     utf8_decode blob = Some text ->
     state_of_json (universal_newlines text) = Some st ->
     load_state w = (Ok st, w))
  /\ ((forall blob mode text,
         fs w !! STATE_FILE = Some (File blob mode) ->
         utf8_decode blob = Some text ->
         state_of_json (universal_newlines text) = None) ->
      load_state w
      = (Ok (default (0, 0)%Z (sealed_state w)),
         match fs w !! STATE_ENC with
         | Some (File blob _) => after_decrypt blob w
         | _ => w
         end)).
Proof.
  split.
  - intros blob mode text st Hf Hd Hst.
    rewrite (load_state_run w (Some st)); [done|].
    rewrite <- Hst. by eapply load_state_plain_file.
  - intros H. rewrite (load_state_run w None); [done|].
    by apply load_state_plain_none.
Qed.

(** X18. [load_state] never raises and never writes: it returns a state in
    every world, with the files and the database as they were.  A state
    that cannot be read is not reported: with no plaintext file and a
    sealed copy that does not authenticate, or with neither file, the
    state is [(0, 0)]. *)
Theorem load_state_never_raises (w : World) :
  exists st w',
    load_state w = (Ok st, w')
    /\ fs w' = fs w /\ db w' = db w /\ stdout w' = stdout w
    /\ (fs w !! STATE_FILE = None ->
        (fs w !! STATE_ENC = None
         \/ exists blob mode,
              fs w !! STATE_ENC = Some (File blob mode)
              /\ fernet_decrypt (fernet_key CIPHER) blob = None) ->
        st = (0, 0)%Z).
Proof.
  destruct (load_state_plain_total w) as [plain Hp].
  rewrite (load_state_run w plain Hp). destruct plain as [st|].
  - exists st, w. do 4 (split; [done|]). intros Hf _.
    revert Hp. unfold load_state_plain.
    rewrite (bind_Ok _ _ _ _ _ (path_exists_run _ _)).
    rewrite bool_decide_false; [discriminate|]. rewrite Hf. by intros [? ?].
  - eexists _, _. split; [done|].
    split; [by destruct (fs w !! STATE_ENC) as [[]|]|].
    split; [by destruct (fs w !! STATE_ENC) as [[]|]|].
    split; [by destruct (fs w !! STATE_ENC) as [[]|]|].
    intros _ [Hn|(blob & mode & Hf & Hd)]; unfold sealed_state.
    + by rewrite Hn.
    + by rewrite Hf, Hd.
Qed.

Lemma open_wb_Raise (p : path) (w u : World) (e : exn) :
  open_wb p w = (Raise e, u) ->
  fs u = fs w /\ forall data mode, fs w !! p <> Some (File data mode).
Proof.
  unfold open_wb, syscall. rewrite bind_unfold.
  assert (forall v, fs v = fs w ->
            (match fs v !! p with
             | Some (File _ mode) => (Ok tt, with_fs (<[p := File [] mode]> (fs v)) v)
             | Some Dir => (Raise IsADirectoryError, v)
             | None =>
                 match fs v !! parent p with
                 | Some Dir => (Ok tt, with_fs (<[p := File [] default_mode]> (fs v)) v)
                 | Some (File _ _) => (Raise NotADirectoryError, v)
                 | None => (Raise FileNotFoundError, v)
                 end
             end) = (Raise e, u) ->
            fs u = fs w /\ forall data mode, fs w !! p <> Some (File data mode))
    as Hcase.
  { intros v Hv. rewrite Hv.
    destruct (fs w !! p) as [[old mode|]|]; [discriminate| |].
    - intros [= _ <-]. done.
    - destruct (fs w !! parent p) as [[]|]; [|discriminate|];
        intros [= _ <-]; done. }
  unfold tick. destruct (budget w) as [[|n]|]; [discriminate|..];
    by apply Hcase.
Qed.

Lemma write_fd_no_raise (p : path) (data old : bytes) (mode : N)
    (w u : World) (e : exn) :
  fs w !! p = Some (File old mode) -> write_fd p data w <> (Raise e, u).
Proof.
  intros Hf. unfold write_fd, syscall. rewrite bind_unfold. unfold tick.
  destruct (budget w) as [[|n]|]; [discriminate|..]; cbn; by rewrite Hf.
Qed.

(** What the first block of [save_state] leaves at the plaintext path:
    the whole text when it goes through, and what was there, which is no
    file, when the file cannot be opened. *)
Lemma json_dump_state_cases (d b : Z) (text : str) (blob : bytes)
    (p : path) (w : World) :
  json_dumps_state d b = Some text -> utf8_encode text = Some blob ->
  match json_dump_state d b p w with
  | (Ok _, u) => exists mode, fs u !! p = Some (File blob mode)
  | (Raise _, u) =>
      fs u = fs w /\ forall data mode, fs w !! p <> Some (File data mode)
  | (Killed, _) => True
  end.
Proof.
  intros Ht Hb. unfold json_dump_state. rewrite Ht, bind_unfold.
  destruct (open_wb p w) as [[[]|e|] u1] eqn:Hopen; [|by eapply open_wb_Raise|done].
  apply open_wb_Ok in Hopen. unfold encode_utf8. rewrite Hb.
  cbn [of_option]. rewrite bind_ret_l.
  destruct (write_fd p blob u1) as [[[]|e|] u2] eqn:Hw; [| |done].
  - eexists. by eapply (write_fd_Ok p blob []).
  - by eapply write_fd_no_raise in Hw.
Qed.

Lemma state_paths_apart : STATE_ENC <> STATE_FILE.
Proof.
  unfold STATE_FILE, STATE_ENC. intros H. apply app_inv_head in H.
  vm_compute in H. discriminate H.
Qed.

Context {F : FernetSpec E} {J : JsonSpec}.


End StateClaims.

(** ** The restore at start-up *)

Section StartupRestore.

Context `{E : Externals} {L : Libraries} {I : Install} {P : Process}.

#[global] Instance same_fs_refl : Reflexive same_fs.
Proof. by intros w. Qed.

#[global] Instance same_fs_trans : Transitive same_fs.
Proof. unfold same_fs. intros w1 w2 w3 H1 H2. congruence. Qed.

Lemma sqlite_executescript_same_fs (sql : str) :
  preserves same_fs (sqlite_executescript sql).
Proof.
  unfold sqlite_executescript, syscall.
  apply preserves_bind; [apply _| |intros _].
  - intros w. unfold tick. by destruct (budget w) as [[|n]|].
  - intros w. destruct (db w) as [d|]; [|done].
    by destruct (executescript sql d) as [d' [e|]].
Qed.

(** The guarded block of [restore_from_db_dump_if_any]. *)
Lemma restore_block_same_fs :
  preserves same_fs
    (blob ← read_file DB_DUMP_ENC;
     raw ← dec_bytes blob;
     sqlite_connect;;
     sqlite_executescript (bytes_decode_ignore raw);;
     log (lit "Restored DB from encrypted dump.") Fore_CYAN).
Proof.
  apply preserves_bind; [apply _| |intros blob].
  { intros w. unfold read_file. by destruct (fs w !! DB_DUMP_ENC) as [[]|]. }
  apply preserves_bind; [apply _| |intros raw].
  { intros w. unfold dec_bytes. by rewrite Fernet_decrypt_run. }
  apply preserves_bind; [apply _| |intros _].
  { intros w. unfold sqlite_connect. by destruct (db w). }
  apply preserves_bind;
    [apply _|apply sqlite_executescript_same_fs|intros _].
  by intros w.
Qed.

(** X20. [restore_from_db_dump_if_any] never raises: whatever goes wrong in
    it is turned into a line on the standard output.  It never writes a
    file, and with no sealed dump it does nothing at all. *)
Theorem restore_from_db_dump_if_any_never_raises (w : World) :
  (forall e, (restore_from_db_dump_if_any w).1 <> Raise e)
  /\ fs (restore_from_db_dump_if_any w).2 = fs w
  /\ (fs w !! DB_DUMP_ENC = None ->
      restore_from_db_dump_if_any w = (Ok tt, w)).
Proof.
  unfold restore_from_db_dump_if_any.
  rewrite (bind_Ok _ _ _ _ _ (path_exists_run _ _)).
  destruct (fs w !! DB_DUMP_ENC) as [x|] eqn:Hf.
  2:{ rewrite bool_decide_false by (by intros [? ?]). done. }
  rewrite bool_decide_true by eauto. cbn [negb].
  rewrite try_except_unfold.
  pose proof (restore_block_same_fs w) as Hfs.
  match goal with |- context [match ?m w with _ => _ end] =>
    destruct (m w) as [[[]|e|] u] eqn:Hm
  end; cbn [snd] in Hfs; (split; [|split; [|done]]); try done.
Qed.

(** X21. What the restore at start-up does with a sealed dump that is there,
    left alone.  A dump that does not authenticate leaves the database as
    it is.  A dump that opens is run as a script on the database as it
    stands, whether that is empty or not; when the script fails the
    database stays as the failed script left it.  Either failure is
    printed and the call returns. *)
Theorem restore_from_db_dump_if_any_outcomes (blob : bytes) (mode : N)
    (w : World) :
  budget w = None -> fs w !! DB_DUMP_ENC = Some (File blob mode) ->
  exists w',
    restore_from_db_dump_if_any w = (Ok tt, w')
    /\ match fernet_decrypt (fernet_key CIPHER) blob with
       | None =>
           db w' = db w
           /\ stdout w' = stdout w ++ [restore_failed InvalidToken]
       | Some raw =>
           match executescript (bytes_decode_ignore raw)
                   (default db_new (db w)) with
           | (d', None) =>
               db w' = Some d' /\ stdout w' = stdout w ++ [restore_done]
           | (d', Some e) =>
               db w' = Some d' /\ stdout w' = stdout w ++ [restore_failed e]
           end
       end.
Proof.
  intros Hb Hf. unfold restore_from_db_dump_if_any.
  rewrite (bind_Ok _ _ _ _ _ (path_exists_run _ _)).
  rewrite bool_decide_true by (rewrite Hf; eauto). cbn [negb].
  rewrite try_except_unfold.
  rewrite (bind_Ok _ _ _ _ _ (read_file_run _ _ _ _ Hf)).
  rewrite bind_unfold. unfold dec_bytes at 1. rewrite Fernet_decrypt_run.
  destruct (fernet_decrypt (fernet_key CIPHER) blob) as [raw|].
  2:{ eexists. split; [reflexivity|]. done. }
  rewrite (bind_Ok _ _ _ _ _ (sqlite_connect_run _)).
  rewrite bind_unfold.
  erewrite sqlite_executescript_run; [|done|reflexivity].
  cbn [db after_decrypt with_trace].
  destruct (executescript (bytes_decode_ignore raw) (default db_new (db w)))
    as [d' [e|]]; cbn [fst snd].
  - eexists. split; [reflexivity|]. done.
  - eexists. split; [reflexivity|]. done.
Qed.

End StartupRestore.

(** ** The table of the views, and the export of the dump *)

Section Views.

Context `{E : Externals} {L : Libraries} {I : Install} {P : Process}.

(** X22. [load_df] writes no file but the plaintext table, which it rebuilds
    from the database only when the table is missing, does not parse or
    lacks a column; it leaves the database as it is and calls the
    cryptography library only to decrypt.  When the plaintext table is
    there, parses and has every column of the schema, [load_df] returns
    its frame and leaves the world as it is: the database is not looked
    at. *)
Theorem load_df_frame (w : World) :
  footprint (eq CSV_FILE) is_decrypt_call w (load_df w).2
  /\ db (load_df w).2 = db w
  /\ (forall b mode df,
        fs w !! CSV_FILE = Some (File b mode) -> read_csv b = Some df ->
        (forall c, c ∈ CSV_COLUMNS -> c ∈ df_columns df) ->
        load_df w = (Ok df, w)).
Proof.
  split; [|split].
  - unfold load_df.
    apply preserves_bind; [apply _|apply path_exists_footprint|intros e].
    apply preserves_if; [|by apply rebuild_and_read_decrypts].
    apply preserves_try_except;
      [apply _| |intros _; by apply rebuild_and_read_decrypts].
    apply preserves_bind; [apply _|apply pd_read_csv_decrypts|intros df].
    apply preserves_if; [apply preserves_ret; apply _|].
    apply preserves_bind;
      [apply _|by apply rebuild_csv_from_db_decrypts|intros _].
    apply pd_read_csv_decrypts.
  - unfold load_df.
    apply (preserves_bind same_db); [intros u; reflexivity|intros e].
    apply preserves_if; [|apply rebuild_and_read_same_db].
    apply preserves_try_except;
      [apply _| |intros _; apply rebuild_and_read_same_db].
    apply preserves_bind; [apply _|apply pd_read_csv_same_db|intros df].
    apply preserves_if; [apply preserves_ret; apply _|].
    apply preserves_bind;
      [apply _|apply rebuild_csv_from_db_same_db|intros _].
    apply pd_read_csv_same_db.
  - intros b mode df Hf Hcsv Hcols. unfold load_df.
    rewrite (bind_Ok _ _ _ _ _ (path_exists_run _ _)).
    rewrite bool_decide_true by (rewrite Hf; eauto).
    rewrite try_except_unfold.
    assert (pd_read_csv CSV_FILE w = (Ok df, w)) as Hread.
    { unfold pd_read_csv.
      rewrite (bind_Ok _ _ _ _ _ (read_file_run _ _ _ _ Hf)).
      by rewrite Hcsv. }
    rewrite (bind_Ok _ _ _ _ _ Hread).
    replace (forallb _ CSV_COLUMNS) with true; [done|].
    symmetry. apply forallb_forall. intros c Hc.
    apply bool_decide_eq_true, Hcols. by apply list_elem_of_In.
Qed.

(** X23. [export_db] never answers that the dump is not found: it seals the
    dump first, so that when the sealing returns the sealed dump is there
    and is sent, and when the sealing fails the failure is raised to the
    caller. *)
Theorem export_db_sends_dump (w : World) :
  (forall w1, persist_db_dump w = (Ok tt, w1) ->
              export_db w = (Ok (Attachment DB_DUMP_ENC), w1))
  /\ (forall e w1, persist_db_dump w = (Raise e, w1) ->
                   export_db w = (Raise e, w1))
  /\ (forall text, (export_db w).1 <> Ok (Body text)).
Proof.
  assert (forall w1, persist_db_dump w = (Ok tt, w1) ->
            export_db w = (Ok (Attachment DB_DUMP_ENC), w1)) as Hok.
  { intros w1 H. unfold export_db. rewrite (bind_Ok _ _ _ _ _ H).
    rewrite (bind_Ok _ _ _ _ _ (path_exists_run _ _)).
    apply persist_db_dump_Ok in H as (plain & v & mode & Hf).
    rewrite bool_decide_true by (rewrite Hf; eauto).
    unfold send_file. by rewrite (bind_Ok _ _ _ _ _ (read_file_run _ _ _ _ Hf)). }
  split; [exact Hok|]. split.
  - intros e w1 H. unfold export_db. by apply bind_Raise.
  - intros text. destruct (persist_db_dump w) as [[[]|e|] w1] eqn:H.
    + by rewrite (Hok w1).
    + unfold export_db. by rewrite (bind_Raise _ _ _ _ _ H).
    + unfold export_db. by rewrite (bind_Killed _ _ _ _ H).
Qed.

End Views.

(** ** The stand-in reader keeps the contract of [json] *)

Module ToyEngineFacts.

Import ToyEngine.

Lemma ascii_string_lit (s : string) : ascii_string (lit s) = s.
Proof.
  unfold ascii_string, lit. induction s as [|a s IH]; [done|].
  cbn [list_ascii_of_string fmap list_fmap string_of_list_ascii].
  rewrite ascii_N_embedding. f_equal. exact IH.
Qed.

Lemma parse_int_str_of_int (z : Z) : parse_int (str_of_int z) = Some z.
Proof.
  unfold parse_int, str_of_int. rewrite ascii_string_lit, NilEmpty.isi.
  cbn. by rewrite DecimalZ.of_to.
Qed.

Lemma strip_prefix_app (p r : str) : strip_prefix p (p ++ r) = Some r.
Proof.
  induction p as [|c p IH]; [by destruct r|]. cbn. by rewrite N.eqb_refl.
Qed.

Lemma span_int_app (d r : str) :
  Forall (fun c => c = 45 \/ 48 <= c <= 57) d ->
  match r with c :: _ => int_char c = false | [] => True end ->
  span_int (d ++ r) = (d, r).
Proof.
  intros Hd Hr. induction Hd as [|c d Hc _ IH]; cbn [app span_int].
  - destruct r as [|c r]; [done|]. cbn [span_int]. by rewrite Hr.
  - replace (int_char c) with true; [by rewrite IH|].
    symmetry. unfold int_char. destruct Hc as [->|Hc]; [done|].
    apply orb_true_iff. right. apply andb_true_iff.
    split; apply N.leb_le; lia.
Qed.

Lemma read_state_text (sd sb : str) :
  Forall (fun c => c = 45 \/ 48 <= c <= 57) sd ->
  Forall (fun c => c = 45 \/ 48 <= c <= 57) sb ->
  read_state (lit "{" ++ dq "day_index" ++ lit ": " ++ sd ++ lit ", "
              ++ dq "balance_rollover" ++ lit ": " ++ sb ++ lit "}")
  = (d ← parse_int sd; b ← parse_int sb; Some (d, b)).
Proof.
  intros Hd Hb.
  replace (lit "{" ++ dq "day_index" ++ lit ": " ++ sd ++ lit ", "
           ++ dq "balance_rollover" ++ lit ": " ++ sb ++ lit "}")
    with (key1 ++ sd ++ key2 ++ sb ++ lit "}")
    by (unfold key1, key2; by rewrite <- !app_assoc).
  unfold read_state. rewrite strip_prefix_app. cbn [mbind option_bind].
  rewrite (span_int_app sd) by done. cbn [fst snd].
  rewrite strip_prefix_app. cbn [mbind option_bind].
  rewrite (span_int_app sb) by done. cbn [fst snd].
  by rewrite decide_True.
Qed.

#[global] Instance json_spec : JsonSpec.
Proof.
  intros d b text. unfold json_dumps_state, int_str.
  destruct (_ || _); [|discriminate]. destruct (_ || _); [|discriminate].
  intros H. injection H as <-.
  change (read_state
            (lit "{" ++ dq "day_index" ++ lit ": " ++ str_of_int d ++ lit ", "
             ++ dq "balance_rollover" ++ lit ": " ++ str_of_int b ++ lit "}")
          = Some (d, b)).
  rewrite read_state_text by apply str_of_int_chars.
  by rewrite !parse_int_str_of_int.
Qed.

End ToyEngineFacts.

(** ** What the sealed exports and the records of a backup open to *)

Section SealedContents.

Context `{E : Externals} {I : Install} {P : Process} {F : FernetSpec E}.

(** X24. When the plaintext table is there and parses, the sealed exports are
    made from it and from nothing else: the sealed table opens under the
    process key to the CSV text of its frame and the sealed workbook to
    the workbook of its frame, both with mode 0600; the database is not
    consulted, nor created when it is missing, and the plaintext table is
    left as it is. *)
Theorem persist_csv_mirrors_plaintext (w w1 : World) (b : bytes) (mode : N)
    (df : DataFrame) :
  budget w = None ->
  fs w !! CSV_FILE = Some (File b mode) -> read_csv b = Some df ->
  persist_csv_and_excel_encrypted w = (Ok tt, w1) ->
  exists csv xlsx sealed_csv sealed_xlsx,
    utf8_encode (df_to_csv df) = Some csv
    /\ workbook_bytes CSV_COLUMNS df = Some xlsx
    /\ fs w1 !! CSV_ENC = Some (File sealed_csv 384)
    /\ fernet_decrypt (fernet_key CIPHER) sealed_csv = Some csv
    /\ fs w1 !! XLSX_ENC = Some (File sealed_xlsx 384)
    /\ fernet_decrypt (fernet_key CIPHER) sealed_xlsx = Some xlsx
    /\ db w1 = db w
    /\ fs w1 !! CSV_FILE = Some (File b mode).
Proof.
  intros Hb Hf Hcsv H.
  pose proof (persist_csv_and_excel_encrypted_same_db w) as Hdb.
  rewrite H in Hdb. cbn [snd] in Hdb.
  unfold persist_csv_and_excel_encrypted in H.
  rewrite (bind_Ok _ _ _ _ _ (path_exists_run _ _)) in H.
  rewrite bool_decide_true in H by (rewrite Hf; eauto).
  assert (try_except (pd_read_csv CSV_FILE) (fun _ => rebuild_and_read) w
          = (Ok df, w)) as Hload.
  { rewrite try_except_unfold. unfold pd_read_csv.
    rewrite (bind_Ok _ _ _ _ _ (read_file_run _ _ _ _ Hf)).
    by rewrite Hcsv. }
  rewrite (bind_Ok _ _ _ _ _ Hload) in H.
  apply bind_Ok_inv in H as (csv & u1 & Henc & H).
  unfold encode_utf8, of_option in Henc.
  destruct (utf8_encode (df_to_csv df)) as [c|] eqn:Hc; [|discriminate Henc].
  injection Henc as <- <-.
  apply bind_Ok_inv in H as (sealed & u2 & Hs & H).
  rewrite enc_bytes_run in Hs. injection Hs as <- <-.
  apply bind_Ok_inv in H as ([] & u3 & Hw1 & H).
  apply _write_file_secure_Ok_inv in Hw1 as [_ ->]; [|done].
  apply bind_Ok_inv in H as (xlsx & u4 & Hx & H).
  unfold of_option in Hx.
  destruct (workbook_bytes CSV_COLUMNS df) as [x|] eqn:Hwb; [|discriminate Hx].
  injection Hx as <- <-.
  apply bind_Ok_inv in H as (sealed' & u5 & Hs & H).
  rewrite enc_bytes_run in Hs. injection Hs as <- <-.
  apply _write_file_secure_Ok_inv in H as [_ ->]; [|done].
  destruct sealed_paths_apart as (_ & _ & _ & N1 & N2 & N3 & _).
  eexists c, x, _, _. split; [done|]. split; [done|].
  split; [|split; [|split; [|split; [|split]]]].
  - cbn. rewrite lookup_insert_ne by done. apply lookup_insert_eq.
  - unfold token_at. apply fernet_decrypt_encrypt.
  - cbn. apply lookup_insert_eq.
  - unfold token_at. apply fernet_decrypt_encrypt.
  - exact Hdb.
  - cbn. rewrite !lookup_insert_ne by done. exact Hf.
Qed.

(** X25. The record a backup makes of the database, when the rotation has
    kept it, opens under the process key to the UTF-8 text of the dump of
    the database as it was when the backup began: it is what
    [restore_from_encrypted_dump] and [decrypt_artifact] expect. *)
Theorem backup_all_dump_record_opens (w w' : World) (blob : bytes)
    (mode : N) :
  budget w = None -> backup_all w = (Ok tt, w') ->
  fs w' !! (BACKUP_FOLDER
            ++ [backup_name (lit "dbdump") (strftime_ts (clock w))])
  = Some (File blob mode) ->
  exists conn text dump,
    (db w = Some conn \/ (db w = None /\ conn = db_new))
    /\ iterdump conn = Some text /\ utf8_encode text = Some dump
    /\ fernet_decrypt (fernet_key CIPHER) blob = Some dump.
Proof.
  intros Hb H Hrec. rewrite backup_all_unfold in H.
  apply bind_Ok_inv in H as ([] & w1 & Hdump & H).
  apply bind_Ok_inv in H as ([] & w2 & Hcsv & H).
  unfold categories in H. cbn [for_ fst snd] in H.
  apply bind_Ok_inv in H as ([] & u' & Hcopy & Hrest).
  destruct (persist_db_dump_Ok_inv w w1 Hb Hdump)
    as (conn & text & dump & Hdb & Hit & Henc & _ & Hw1).
  cbv zeta in Hw1. exists conn, text, dump.
  split; [done|]. split; [done|]. split; [done|].
  assert (budget w1 = None) as Hb1.
  { rewrite Hw1. cbn. unfold sqlite_connect. by destruct (db w). }
  pose proof (persist_csv_and_excel_encrypted_footprint
                (fun p => p = CSV_FILE \/ p = CSV_ENC \/ p = XLSX_ENC)
                (or_introl eq_refl) (or_intror (or_introl eq_refl))
                (or_intror (or_intror eq_refl)) w1)
    as (F2 & _ & _ & _ & _ & _ & B2).
  rewrite Hcsv in F2, B2. cbn [snd] in F2, B2.
  destruct sealed_paths_apart as (N1 & N2 & N3 & _).
  assert (fs w2 !! DB_DUMP_ENC
          = Some (File (token_at CIPHER dump (sqlite_connect w).2) 384)) as Hsrc.
  { rewrite F2 by (intros [?|[?|?]]; done). rewrite Hw1. cbn.
    apply lookup_insert_eq. }
  apply copy_enc_Ok_inv in Hcopy
    as [[Hnone _]|(raw & mode' & Hr & _ & _ & Hu')]; [congruence| |by apply B2].
  rewrite Hsrc in Hr. injection Hr as <- <-. cbv zeta in Hu'.
  assert (backup_plain (token_at CIPHER dump (sqlite_connect w).2) = dump)
    as Hplain.
  { unfold backup_plain, token_at. by rewrite fernet_decrypt_encrypt. }
  rewrite Hplain in Hu'.
  pose proof (copy_loop_footprint
                [(lit "csv", CSV_ENC); (lit "excel", XLSX_ENC);
                 (lit "state", STATE_ENC)] (strftime_ts (clock w)) u')
    as (F3 & _).
  cbn [for_ fst snd] in F3. rewrite Hrest in F3. cbn [snd] in F3.
  rewrite F3 in Hrec.
  2:{ intros (c & f & Hc & Heq & Hf). apply app_inv_head in Heq.
      injection Heq as <-.
      assert (startswith (backup_name (lit "dbdump") (strftime_ts (clock w)))
                (c.1 ++ lit "_") = false) as Hno.
      { apply (category_prefixes_apart (lit "dbdump") c.1).
        - cbn. by left.
        - apply list_elem_of_fmap. exists c. split; [done|].
          unfold categories. by right.
        - intros Heq.
          repeat (apply elem_of_cons in Hc as [->|Hc]);
            [..|by apply elem_of_nil in Hc];
            vm_compute in Heq; discriminate Heq.
        - apply startswith_backup_name. }
      congruence. }
  rewrite Hu' in Hrec. cbn [fs with_fs] in Hrec.
  rewrite lookup_prune, lookup_insert_eq in Hrec.
  destruct (decide _); [discriminate Hrec|]. injection Hrec as <- _.
  unfold token_at. apply fernet_decrypt_encrypt.
Qed.

End SealedContents.

(** ** The further properties at work *)

(** X1 at work: a first start creates the key file; the second start reads the
    same key back. *)
Lemma get_cipher_stable_witness :
  exists c w2,
    (get_cipher Toy.world0).1 = Ok c
    /\ get_cipher (get_cipher Toy.world0).2 = (Ok c, w2)
    /\ fs w2 = fs (get_cipher Toy.world0).2.
Proof.
  assert (exists c, (get_cipher Toy.world0).1 = Ok c) as [c Hc]
    by (vm_compute; eauto).
  destruct (get_cipher_stable Toy.world0 _ c (run_eq get_cipher Toy.world0 _ Hc))
    as (w2 & H2 & Hfs & _).
  exists c, w2. auto.
Defined.

(** X2 at work: a key file that holds something else than a key. *)
Lemma get_cipher_damaged_key_file_witness :
  let w := with_fs (<[SECRET_KEY_FILE := File (blit "not a key") 384]> Toy.fs0)
             Toy.world0 in
  get_cipher w = (Raise ValueError, w).
Proof.
  cbv zeta. eapply get_cipher_damaged_key_file.
  - vm_compute. exact Logic.I.
  - apply lookup_insert_eq.
  - intros k H. vm_compute in H. discriminate H.
Defined.

(** X3 at work: a new sealed table, interrupted before its mode is set: the
    content is complete and the mode is 0644. *)
Lemma _write_file_secure_mode_window_witness :
  let w := with_budget (Some 2%nat) Toy.world0 in
  (_write_file_secure CSV_ENC (blit "sealed") w).1 = Killed
  /\ fs (_write_file_secure CSV_ENC (blit "sealed") w).2 !! CSV_ENC
     = Some (File (blit "sealed") 420).
Proof.
  cbv zeta.
  destruct (_write_file_secure_mode_window CSV_ENC (blit "sealed")
              (with_budget (Some 2%nat) Toy.world0))
    as (Hk & Hf & Hm); [vm_compute; reflexivity|reflexivity|].
  split; [exact Hk|]. rewrite Hf, Hm; [reflexivity|]. vm_compute. reflexivity.
Defined.

(** X5 at work: a note encrypts to a ciphertext that is not empty. *)
Lemma enc_text_empty_iff_witness :
  exists c,
    (enc_text (Some (lit "lunch")) Toy.world0).1 = Ok c
    /\ c <> [] /\ Forall (fun x => x < 0x80) c.
Proof.
  assert (exists c, (enc_text (Some (lit "lunch")) Toy.world0).1 = Ok c)
    as [c Hc] by (vm_compute; eauto).
  destruct (enc_text_empty_iff (F := ToyFacts.fernet_spec) _ _ _ c
              (run_eq (enc_text (Some (lit "lunch"))) Toy.world0 _ Hc))
    as [Hiff Hascii].
  exists c. split; [exact Hc|]. split; [|exact Hascii].
  intros Hnil. apply Hiff in Hnil as [Hn|Hn]; discriminate Hn.
Defined.

(** X7 at work: the sealed dump of a fresh installation, opened again. *)
Lemma persist_db_dump_decrypt_artifact_witness :
  let out := DATA_DIR ++ [lit "dump.sql"] in
  let w1 := (persist_db_dump Toy.world0).2 in
  exists dump,
    fs (decrypt_artifact DB_DUMP_ENC out w1).2 !! out = Some (File dump 420)
    /\ utf8_decode dump = Some (lit "CREATE TABLE finance;").
Proof.
  cbv zeta.
  assert ((persist_db_dump Toy.world0).1 = Ok tt) as Hrun
    by (vm_compute; reflexivity).
  destruct (persist_db_dump_decrypt_artifact (F := ToyFacts.fernet_spec)
              Toy.world0 _ (DATA_DIR ++ [lit "dump.sql"]) eq_refl
              (run_eq persist_db_dump Toy.world0 _ Hrun))
    as (conn & text & dump & w2 & Hdb & Hit & Henc & Hdec & Hf).
  { vm_compute. reflexivity. }
  exists dump. rewrite Hdec. cbn [snd]. split.
  - rewrite Hf. vm_compute. reflexivity.
  - destruct Hdb as [Hdb|[Hdb _]]; [|discriminate Hdb].
    injection Hdb as <-. injection Hit as <-.
    by apply utf8_decode_encode.
Defined.

(** X8 at work: a bell character in a note: the sealed table is written and the
    workbook is refused. *)
Lemma persist_csv_sealed_before_workbook_witness :
  let r := @persist_csv_and_excel_encrypted ToyStrict.externals Toy.install
             Toy.process ToyStrict.world_bell in
  r.1 = Raise IllegalCharacterError
  /\ is_Some (fs r.2 !! CSV_ENC)
  /\ fs r.2 !! XLSX_ENC = None.
Proof.
  cbv zeta.
  assert ((@persist_csv_and_excel_encrypted ToyStrict.externals Toy.install
             Toy.process ToyStrict.world_bell).1 = Raise IllegalCharacterError)
    as Hrun by (vm_compute; reflexivity).
  split; [exact Hrun|].
  destruct (@persist_csv_sealed_before_workbook ToyStrict.externals Toy.install
              Toy.process ToyStrict.world_bell _ eq_refl
              (run_eq _ ToyStrict.world_bell _ Hrun))
    as (df & csv & u & _ & _ & Hcsv & Hxlsx).
  split; [rewrite Hcsv; eauto|]. rewrite Hxlsx. vm_compute. reflexivity.
Defined.

(** X12 at work: a sealed dump whose script fails: the table is dropped, the
    error is raised, and the decrypted dump stays on disk with mode 0644. *)
Lemma restore_script_failure_witness :
  let blob := Toy.encrypt Toy.key0 [b8 1] 0 (blit "!not sql") in
  let w := with_fs (<[DB_DUMP_ENC := File blob 384]> Toy.fs0) Toy.world0 in
  exists w',
    restore_from_encrypted_dump DB_DUMP_ENC w = (Raise DatabaseError, w')
    /\ db w' = Some [lit "CREATE TABLE finance;";
                     lit "DROP TABLE IF EXISTS finance;"]
    /\ fs w' !! TMP_DUMP = Some (File (blit "!not sql") 420).
Proof.
  cbv zeta.
  destruct (restore_script_failure (E := Toy.externals) DB_DUMP_ENC
              (Toy.encrypt Toy.key0 [b8 1] 0 (blit "!not sql"))
              (blit "!not sql") 384
              [lit "CREATE TABLE finance;"; lit "DROP TABLE IF EXISTS finance;"]
              [lit "CREATE TABLE finance;"; lit "DROP TABLE IF EXISTS finance;"]
              DatabaseError
              (with_fs (<[DB_DUMP_ENC :=
                            File (Toy.encrypt Toy.key0 [b8 1] 0 (blit "!not sql"))
                              384]> Toy.fs0) Toy.world0))
    as (w' & Hrun & Hdb & Hf).
  - reflexivity.
  - apply lookup_insert_eq.
  - vm_compute. reflexivity.
  - vm_compute. reflexivity.
  - vm_compute. reflexivity.
  - vm_compute. reflexivity.
  - exists w'. split; [exact Hrun|]. split; [exact Hdb|].
    rewrite Hf. vm_compute. reflexivity.
Defined.


(** X14 at work: twenty-one records rotated twice. *)
Lemma _rotate_backups_idempotent_witness :
  let w := Toy.world_old (lit "csv") in
  _rotate_backups (lit "csv_") (_rotate_backups (lit "csv_") w).2
  = _rotate_backups (lit "csv_") w.
Proof. cbv zeta. apply _rotate_backups_idempotent. reflexivity. Defined.

(** X15 at work: a note on coffee gets the tag of food. *)
Lemma auto_tag_rule_iff_witness :
  contains (auto_tag (Some (lit "Coffee with Sam"))) (lit "#food") = true
  /\ contains (auto_tag (Some (lit "Coffee with Sam"))) (lit "#travel") = false.
Proof.
  destruct (auto_tag_rule_iff (Some (lit "Coffee with Sam"))
              [lit "food"; lit "coffee"; lit "drink"; lit "meal"] (lit "#food"))
    as ([_ Hfood] & _ & _).
  { unfold tag_rules. do 3 right. by left. }
  split; [apply Hfood; vm_compute; reflexivity|]. vm_compute. reflexivity.
Defined.

(** X16 at work: the word "interest" holds the keyword "rest". *)
Lemma auto_tag_keyword_witness :
  spells (lit "REST") (lit "rest")
  /\ contains (auto_tag (Some (lit "Inte" ++ lit "REST" ++ lit " on savings")))
       (lit "#skipday") = true.
Proof.
  assert (spells (lit "REST") (lit "rest")) as Hs.
  { unfold spells.
    do 4 (constructor;
          [right; split; [split; apply N.leb_le; reflexivity|reflexivity]|]).
    constructor. }
  split; [exact Hs|].
  apply (auto_tag_keyword [lit "tired"; lit "lazy"; lit "rest"; lit "sleep"]
           (lit "#skipday") (lit "rest")); [|..|exact Hs].
  - unfold tag_rules. by left.
  - do 2 right. by left.
Defined.


(** X21 at work: a sealed dump that was tampered with, at start-up: the start
    goes on, the database is what it was and the failure is printed. *)
Lemma restore_from_db_dump_if_any_outcomes_witness :
  let tampered := blit "zaaaedfcefebfeefcafeebecemefcagggjgogbgogdgfdl" in
  let w := with_fs (<[DB_DUMP_ENC := File tampered 384]> Toy.fs0) Toy.world0 in
  exists w',
    restore_from_db_dump_if_any w = (Ok tt, w')
    /\ db w' = db w
    /\ stdout w' = [restore_failed InvalidToken].
Proof.
  cbv zeta.
  match goal with |- exists w', ?m ?w = _ /\ _ =>
    destruct (restore_from_db_dump_if_any_outcomes
                (blit "zaaaedfcefebfeefcafeebecemefcagggjgogbgogdgfdl") 384 w
                eq_refl (lookup_insert_eq _ _ _))
      as (w' & Hrun & Hcase)
  end.
  exists w'. split; [exact Hrun|].
  assert (fernet_decrypt (fernet_key CIPHER)
            (blit "zaaaedfcefebfeefcafeebecemefcagggjgogbgogdgfdl") = None)
    as Hd by (vm_compute; reflexivity).
  rewrite Hd in Hcase. exact Hcase.
Defined.

(** X24 at work: a plaintext table of one line: the sealed table opens to that
    line. *)
Lemma persist_csv_mirrors_plaintext_witness :
  let w := with_fs (<[CSV_FILE := File (blit "date,note") 420]> Toy.fs0)
             Toy.world0 in
  exists sealed,
    fs (persist_csv_and_excel_encrypted w).2 !! CSV_ENC = Some (File sealed 384)
    /\ fernet_decrypt (fernet_key CIPHER) sealed = Some (blit "date,note")
    /\ db (persist_csv_and_excel_encrypted w).2 = db w.
Proof.
  cbv zeta.
  match goal with |- exists sealed, fs (?m ?w).2 !! _ = _ /\ _ =>
    assert ((m w).1 = Ok tt) as Hrun by (vm_compute; reflexivity);
    destruct (persist_csv_mirrors_plaintext (F := ToyFacts.fernet_spec)
                w _ (blit "date,note") 420 [lit "date,note"] eq_refl
                (lookup_insert_eq _ _ _) eq_refl (run_eq m w _ Hrun))
      as (csv & xlsx & s1 & s2 & Hc & _ & Hf1 & Hd1 & _ & _ & Hdb & _)
  end.
  exists s1. split; [exact Hf1|]. split; [|exact Hdb].
  rewrite Hd1, <- Hc. vm_compute. reflexivity.
Defined.

(** X25 at work: the record of the database made by a backup at noon opens to
    the dump. *)
Lemma backup_all_dump_record_opens_witness :
  exists blob mode,
    fs (backup_all Toy.world0).2
      !! (BACKUP_FOLDER ++ [backup_name (lit "dbdump") (strftime_ts Toy.noon)])
    = Some (File blob mode)
    /\ fernet_decrypt (fernet_key CIPHER) blob
       = Some (blit "CREATE TABLE finance;").
Proof.
  assert ((backup_all Toy.world0).1 = Ok tt) as Hrun
    by (vm_compute; reflexivity).
  assert (exists blob mode,
            fs (backup_all Toy.world0).2
              !! (BACKUP_FOLDER
                  ++ [backup_name (lit "dbdump") (strftime_ts Toy.noon)])
            = Some (File blob mode)) as (blob & mode & Hrec)
    by (vm_compute; eauto).
  destruct (backup_all_dump_record_opens (F := ToyFacts.fernet_spec)
              Toy.world0 _ blob mode eq_refl
              (run_eq backup_all Toy.world0 _ Hrun) Hrec)
    as (conn & text & dump & Hdb & Hit & Henc & Hdec).
  exists blob, mode. split; [exact Hrec|].
  destruct Hdb as [Hdb|[Hdb _]]; [|discriminate Hdb].
  injection Hdb as <-. injection Hit as <-.
  rewrite Hdec, <- Henc. vm_compute. reflexivity.
Defined.
